(** * Diffeomorphic VAE ([src/models/longitudinal_models/diffeo_vae.py])

    A shallow embedding of the two model classes [DVAE] and [DRVAE]:
    construction ([__init__]), the scaling-and-squaring integrator
    ([vector_field_integration]), the isometry normaliser inside [decode_s],
    the reconstruction ([apply_diffeomorphism], [absolute_decode], [decode])
    and the two [encode] variants.

    Modelling conventions.
    - Python exceptions are values of [exn]; a method that can raise returns
      a [result].
    - A tensor element is a [Scalar.t]: a real number, an infinity or NaN.
      The special values follow IEEE 754 (NaN is absorbing, [inf - inf],
      [0 * inf] and [0 / 0] are NaN, [x / 0] is infinite, the square root of
      a negative number is NaN, every comparison with NaN is false).  Finite
      arithmetic is exact: rounding, signed zeros and silent overflow of
      tensor arithmetic are outside the model.
    - Python integers are [Z]; tensor sizes are [nat].  The conversion
      [float(n)] of a Python integer raises [OverflowError] beyond the range
      of a double, as in CPython.
    - A tensor is its shape together with its elements in row-major order.
    - The collaborators that live outside this file of the repository (the
      network factories, the interpolators and the kernel smoother) are the
      fields of the class [Externals]. *)

From Stdlib Require Import String Bool ZArith Reals Lra Lia List.
Import ListNotations.

Set Implicit Arguments.

(** ** Exceptions and the error monad *)

Inductive exn : Type :=
| AssertionError (msg : string)
| ZeroDivisionError
| OverflowError
| IndexError
| RuntimeError.

Inductive result (A : Type) : Type :=
| Ok (a : A)
| Raise (e : exn).

Arguments Ok {A} a.
Arguments Raise {A} e.

Definition bind {A B : Type} (c : result A) (k : A -> result B) : result B :=
  match c with
  | Ok a => k a
  | Raise e => Raise e
  end.

Notation "x <- c ;; k" := (bind c (fun x => k))
  (at level 61, c at next level, right associativity).
Notation "' pat <- c ;; k" := (bind c (fun x => match x with pat => k end))
  (at level 61, pat pattern, c at next level, right associativity).

(** [assert cond, msg] *)
Definition assert (cond : bool) (msg : string) : result unit :=
  if cond then Ok tt else Raise (AssertionError msg).

Definition returns {A : Type} (c : result A) : Prop := exists a, c = Ok a.
Definition raises {A : Type} (c : result A) : Prop := exists e, c = Raise e.

(** ** Tensor elements *)

Module Scalar.

Inductive t : Type :=
| NaN
| Inf (negative : bool)
| Fin (r : R).

Definition zero : t := Fin 0%R.
Definition one : t := Fin 1%R.

Definition isnan (x : t) : bool :=
  match x with NaN => true | _ => false end.

Definition isfinite (x : t) : bool :=
  match x with Fin _ => true | _ => false end.

Definition is_neg (r : R) : bool := if Rlt_dec r 0 then true else false.
Definition is_zero (r : R) : bool := if Req_dec_T r 0 then true else false.

Definition neg (x : t) : t :=
  match x with
  | NaN => NaN
  | Inf s => Inf (negb s)
  | Fin r => Fin (- r)
  end.

Definition add (x y : t) : t :=
  match x, y with
  | NaN, _ | _, NaN => NaN
  | Inf s, Inf s' => if Bool.eqb s s' then Inf s else NaN
  | Inf s, Fin _ => Inf s
  | Fin _, Inf s => Inf s
  | Fin a, Fin b => Fin (a + b)
  end.

Definition sub (x y : t) : t := add x (neg y).

Definition mul (x y : t) : t :=
  match x, y with
  | NaN, _ | _, NaN => NaN
  | Inf s, Inf s' => Inf (xorb s s')
  | Inf s, Fin r | Fin r, Inf s =>
      if is_zero r then NaN else Inf (xorb s (is_neg r))
  | Fin a, Fin b => Fin (a * b)
  end.

Definition div (x y : t) : t :=
  match x, y with
  | NaN, _ | _, NaN => NaN
  | Inf _, Inf _ => NaN
  | Inf s, Fin r => Inf (xorb s (is_neg r))
  | Fin _, Inf _ => Fin 0
  | Fin a, Fin b =>
      if is_zero b
      then (if is_zero a then NaN else Inf (is_neg a))
      else Fin (a / b)
  end.

Definition sqrt (x : t) : t :=
  match x with
  | NaN => NaN
  | Inf false => Inf false
  | Inf true => NaN
  | Fin r => if is_neg r then NaN else Fin (R_sqrt.sqrt r)
  end.

(** [x > y] *)
Definition gt (x y : t) : bool :=
  match x, y with
  | NaN, _ | _, NaN => false
  | Inf true, _ => false
  | Inf false, Inf false => false
  | Inf false, _ => true
  | Fin _, Inf s => s
  | Fin a, Fin b => if Rlt_dec b a then true else false
  end.

Definition lt (x y : t) : bool := gt y x.

(** [torch.clamp(x, lo, hi)]: [min(max(x, lo), hi)], NaN stays NaN. *)
Definition clamp (lo hi x : t) : t :=
  if isnan x then NaN
  else
    let y := if lt x lo then lo else x in
    if gt y hi then hi else y.

(** An element that is a whole number. *)
Definition is_integer (x : t) : Prop := exists z : Z, x = Fin (IZR z).

End Scalar.

Abbreviation scalar := Scalar.t.
Abbreviation NaN := Scalar.NaN.
Abbreviation Inf := Scalar.Inf.
Abbreviation Fin := Scalar.Fin.

(** ** Python numbers *)

(** [float(n)] for a Python integer [n]: exact inside the range of a double,
    [OverflowError] at and beyond [2**1024 - 2**970], the first integer that
    rounds to [2**1024]. *)
Definition double_range : Z := 2 ^ 1024 - 2 ^ 970.

Definition float_of_int (n : Z) : result scalar :=
  if (Z.abs n <? double_range)%Z then Ok (Fin (IZR n))
  else Raise OverflowError.

(** [float(2 ** e)]: [2 ** e] is an integer for [e >= 0] and the float
    [2.0 ** e] for a negative [e]. *)
Definition float_pow2 (e : Z) : result scalar :=
  if (0 <=? e)%Z then float_of_int (2 ^ e) else Ok (Fin (powerRZ 2 e)).

(** [a / b] on Python floats: a zero divisor raises. *)
Definition py_truediv (a b : scalar) : result scalar :=
  match b with
  | Fin r => if Scalar.is_zero r then Raise ZeroDivisionError
             else Ok (Scalar.div a b)
  | _ => Ok (Scalar.div a b)
  end.

(** [2 ** k in [1, 2, 4]]: for a negative [k] the power is a float below 1. *)
Definition pow2_in_1_2_4 (k : Z) : bool :=
  (0 <=? k)%Z && existsb (Z.eqb (2 ^ k)) [1; 2; 4]%Z.

(** ** Tensors *)

Module Tensor.

Record t : Type := mk { shape : list nat; data : list scalar }.

Definition numel (sh : list nat) : nat := fold_right Nat.mul 1 sh.

(** The record describes a tensor: one element per index. *)
Definition wf (x : t) : Prop := length (data x) = numel (shape x).

Definition full (sh : list nat) (v : scalar) : t :=
  mk sh (repeat v (numel sh)).

Definition zeros (sh : list nat) : t := full sh Scalar.zero.

Definition map (f : scalar -> scalar) (x : t) : t :=
  mk (shape x) (List.map f (data x)).

(** [torch.isnan(x).any()] *)
Definition has_nan (x : t) : bool := existsb Scalar.isnan (data x).

Definition all_finite (x : t) : Prop :=
  Forall (fun e => Scalar.isfinite e = true) (data x).

(** [x.size(i)] *)
Definition size (x : t) (i : nat) : result nat :=
  match nth_error (shape x) i with
  | Some n => Ok n
  | None => Raise IndexError
  end.

(** *** Broadcasting *)

Definition map2 {A B C : Type} (f : A -> B -> C)
    (l1 : list A) (l2 : list B) : list C :=
  List.map (fun p => f (fst p) (snd p)) (combine l1 l2).

(** The first [k] consecutive blocks of [n] elements. *)
Fixpoint chunks {A : Type} (k n : nat) (d : list A) : list (list A) :=
  match k with
  | O => []
  | S k' => firstn n d :: chunks k' n (skipn n d)
  end.

Fixpoint mapM {A B : Type} (f : A -> option B) (l : list A)
    : option (list B) :=
  match l with
  | [] => Some []
  | a :: l' =>
      match f a, mapM f l' with
      | Some b, Some bs => Some (b :: bs)
      | _, _ => None
      end
  end.

(** Shapes are aligned on the right; missing leading axes have size 1. *)
Definition pad (rank : nat) (sh : list nat) : list nat :=
  repeat 1 (rank - length sh) ++ sh.

Fixpoint bshape (a b : list nat) : option (list nat) :=
  match a, b with
  | [], [] => Some []
  | x :: a', y :: b' =>
      match bshape a' b' with
      | Some r =>
          if x =? y then Some (x :: r)
          else if x =? 1 then Some (y :: r)
          else if y =? 1 then Some (x :: r)
          else None
      | None => None
      end
  | _, _ => None
  end.

Definition broadcast_shapes (a b : list nat) : option (list nat) :=
  let rank := Nat.max (length a) (length b) in
  bshape (pad rank a) (pad rank b).

(** The elements of a tensor of shape [sh] seen at shape [target] of the
    same rank: an axis of size 1 is repeated. *)
Fixpoint expand_data {A : Type} (sh target : list nat) (d : list A)
    : option (list A) :=
  match sh, target with
  | [], [] => Some d
  | s :: sh', n :: target' =>
      if s =? n then
        option_map (@concat A)
          (mapM (expand_data sh' target') (chunks s (numel sh') d))
      else if s =? 1 then
        option_map (fun r => concat (repeat r n)) (expand_data sh' target' d)
      else None
  | _, _ => None
  end.

(** [x.expand(target)] *)
Definition expand (x : t) (target : list nat) : result t :=
  match expand_data (pad (length target) (shape x)) target (data x) with
  | Some d => Ok (mk target d)
  | None => Raise RuntimeError
  end.

(** An elementwise operation of two tensors. *)
Definition binop (f : scalar -> scalar -> scalar) (x y : t) : result t :=
  match broadcast_shapes (shape x) (shape y) with
  | Some sh =>
      x' <- expand x sh ;;
      y' <- expand y sh ;;
      Ok (mk sh (map2 f (data x') (data y')))
  | None => Raise RuntimeError
  end.

Definition add := binop Scalar.add.
Definition sub := binop Scalar.sub.
Definition mul := binop Scalar.mul.
Definition div := binop Scalar.div.

(** [x += y]: the result keeps the shape of [x]. *)
Definition iadd (x y : t) : result t :=
  y' <- expand y (shape x) ;;
  Ok (mk (shape x) (map2 Scalar.add (data x) (data y'))).

(** [x / c] and [c * x] for a Python float [c]. *)
Definition div_scalar (x : t) (c : scalar) : t :=
  map (fun e => Scalar.div e c) x.
Definition scalar_mul (c : scalar) (x : t) : t :=
  map (fun e => Scalar.mul c e) x.

(** [x ** 2] *)
Definition square (x : t) : t := map (fun e => Scalar.mul e e) x.

(** *** Shape operations *)

(** [x.view(sh)] for a list of sizes [sh] *)
Definition view (x : t) (sh : list nat) : result t :=
  if numel sh =? length (data x) then Ok (mk sh (data x))
  else Raise RuntimeError.

(** [x.view(n, -1)] *)
Definition view_rows (x : t) (n : nat) : result t :=
  let len := length (data x) in
  match n with
  | O => Raise RuntimeError
  | _ => if len mod n =? 0 then Ok (mk [n; len / n] (data x))
         else Raise RuntimeError
  end.

(** [x.unsqueeze(0)] *)
Definition unsqueeze0 (x : t) : t := mk (1 :: shape x) (data x).

(** [x.repeat(n, 1, ..., 1)] with one factor per axis of [x]; a tensor
    without axes gets the one axis of size [n]. *)
Definition repeat0 (x : t) (n : nat) : result t :=
  match shape x with
  | [] => Ok (mk [n] (concat (repeat (data x) n)))
  | s :: rest => Ok (mk (n * s :: rest) (concat (repeat (data x) n)))
  end.

(** The elements of each entry along the first axis, and their sum. *)
Definition rows (x : t) : list (list scalar) :=
  match shape x with
  | [] => []
  | b :: rest => chunks b (numel rest) (data x)
  end.

Definition rowsum (row : list scalar) : scalar :=
  fold_right Scalar.add Scalar.zero row.

(** [torch.sum(x, dim=tuple(range(1, nd + 1)))] *)
Definition col_sums (m n : nat) (row : list scalar) : list scalar :=
  fold_right (map2 Scalar.add) (repeat Scalar.zero n) (chunks m n row).

Definition sum_dims (x : t) (nd : nat) : result t :=
  match shape x with
  | [] => Raise IndexError
  | b :: rest =>
      if nd <=? length rest then
        let m := numel (firstn nd rest) in
        let n := numel (skipn nd rest) in
        Ok (mk (b :: skipn nd rest)
              (concat (List.map (col_sums m n) (chunks b (m * n) (data x)))))
      else Raise IndexError
  end.

(** [torch.cat((x, y), dim=-1)] *)
Definition cat_last (x y : t) : result t :=
  match rev (shape x), rev (shape y) with
  | lx :: px, ly :: py =>
      if list_eq_dec Nat.eq_dec px py then
        let k := numel px in
        Ok (mk (rev px ++ [lx + ly])
              (concat (map2 (@app scalar) (chunks k lx (data x))
                                          (chunks k ly (data y)))))
      else Raise RuntimeError
  | _, _ => Raise RuntimeError
  end.

(** [torch.split(x, [a, b], dim=-1)] *)
Definition split_last (x : t) (a b : Z) : result (t * t) :=
  match rev (shape x) with
  | l :: p =>
      if ((0 <=? a) && (0 <=? b) && (a + b =? Z.of_nat l))%Z then
        let k := numel p in
        let rows := chunks k l (data x) in
        Ok (mk (rev p ++ [Z.to_nat a])
              (concat (List.map (firstn (Z.to_nat a)) rows)),
            mk (rev p ++ [Z.to_nat b])
              (concat (List.map (skipn (Z.to_nat a)) rows)))
      else Raise RuntimeError
  | [] => Raise RuntimeError
  end.

(** [torch.where(cond, x, c)] for a 0-dimensional constant [c]. *)
Definition where_const (shc : list nat) (cond : list bool) (x : t)
    (c : scalar) : result t :=
  match broadcast_shapes shc (shape x) with
  | Some sh =>
      match expand_data (pad (length sh) shc) sh cond with
      | Some cond' =>
          x' <- expand x sh ;;
          Ok (mk sh (map2 (fun (b : bool) e => if b then e else c)
                       cond' (data x')))
      | None => Raise RuntimeError
      end
  | None => Raise RuntimeError
  end.

(** *** Grids *)

(** [torch.linspace(start, end, steps)] *)
Definition linspace (start stop : scalar) (steps : nat) : list scalar :=
  match steps with
  | 0 => []
  | 1 => [start]
  | _ =>
      let step :=
        Scalar.div (Scalar.sub stop start) (Fin (INR (steps - 1))) in
      List.map (fun i => Scalar.add start (Scalar.mul (Fin (INR i)) step))
        (seq 0 steps)
  end.

(** [torch.meshgrid(axes)]: component [k] varies along axis [k] only. *)
Definition meshgrid_component (sizes : list nat) (k : nat)
    (axis : list scalar) : list scalar :=
  let outer := numel (firstn k sizes) in
  let inner := numel (skipn (S k) sizes) in
  concat (repeat (flat_map (fun a => repeat a inner) axis) outer).

Definition meshgrid (axes : list (list scalar)) : list t :=
  let sizes := List.map (@length scalar) axes in
  List.map (fun p => mk sizes (meshgrid_component sizes (fst p) (snd p)))
    (combine (seq 0 (length axes)) axes).

(** [torch.stack(xs)] of tensors of one shape. *)
Definition stack (xs : list t) : result t :=
  match xs with
  | [] => Raise RuntimeError
  | x :: _ =>
      if forallb (fun y => if list_eq_dec Nat.eq_dec (shape y) (shape x)
                           then true else false) xs
      then Ok (mk (length xs :: shape x) (concat (List.map data xs)))
      else Raise RuntimeError
  end.

End Tensor.

Abbreviation tensor := Tensor.t.

(** ** Configuration and collaborators *)

(** The keyword arguments read by the constructors. *)
Record kwargs : Type := {
  unclamp_atlas : bool;
  tol : scalar;
  isometry_constraint : bool;
  downsampling_grid : Z;
  deformation_kernel_width : scalar;
  number_of_time_points : Z;
  pi_mode : string;
  decoder_last_activation : string;
  nn_size : string
}.

Record network_info : Type := {
  decoder_grid_size : list nat;
  info_decoder_last_activation : string;
  info_size : string;
  pi_module : bool
}.

(** What the file imports from the rest of the repository.  A network is
    the function it computes on tensors. *)
Class Externals : Type := {
  data_info : Type;
  EncoderFactory_build :
    data_info -> Z -> network_info -> tensor -> tensor;
  DecoderFactory_build :
    data_info -> network_info -> Z -> nat -> tensor -> tensor;
  batched_vector_interpolation_adaptive : tensor -> tensor -> nat -> tensor;
  batched_scalar_interpolation_adaptive : tensor -> tensor -> tensor;
  batched_vector_smoothing : tensor -> scalar -> bool -> tensor
}.

(** The attributes of a constructed model, the same for both classes.  The
    members that no method reads back ([encoder_out_dim], [mlp_psi],
    [pi_network]) and the two [print] calls are left out. *)
Record model : Type := {
  model_name : string;
  model_type : string;
  decode_count : Z;
  clamp_atlas : bool;
  self_tol : scalar;
  self_isometry_constraint : bool;
  nb_channels : nat;
  grid_size : list nat;
  latent_dimension : Z;
  latent_dimension_s : Z;
  latent_dimension_psi : Z;
  self_downsampling_grid : nat;
  downsampled_grid_size : list nat;
  self_deformation_kernel_width : scalar;
  self_number_of_time_points : Z;
  dt : scalar;
  noise_dimension : nat;
  self_pi_mode : string;
  space_encoder : tensor -> tensor;
  time_encoder : tensor -> tensor;
  decoder_s : tensor -> tensor;
  atlas : tensor
}.

(** ** Variant A: [DVAE] *)

Module DVAE.
Section Methods.

Context {ext : Externals}.

Definition __init__ (di : data_info) (latent_dim : Z)
    (data_statistics : list tensor) (kw : kwargs) : result model :=
  stat0 <- match data_statistics with
           | s :: _ => Ok s
           | [] => Raise IndexError
           end ;;
  let initial_atlas := Tensor.unsqueeze0 stat0 in
  channels <- Tensor.size initial_atlas 1 ;;
  let gs := skipn 2 (Tensor.shape initial_atlas) in
  _ <- assert (existsb (Nat.eqb (length gs)) [2; 3])
         "Restricted to dimensions 2 and 3" ;;
  _ <- assert (pow2_in_1_2_4 (downsampling_grid kw))
         "Only supports grid downsampling by 1, 2 and 4" ;;
  let dsf := Z.to_nat (2 ^ downsampling_grid kw) in
  let dgs := List.map (fun g => g / dsf) gs in
  let ntp := number_of_time_points kw in
  denom <- float_of_int (ntp - 1) ;;
  step <- py_truediv Scalar.one denom ;;
  let info := {| decoder_grid_size := dgs;
                 info_decoder_last_activation := decoder_last_activation kw;
                 info_size := nn_size kw;
                 pi_module := true |} in
  Ok {| model_name := "referentialdiffeomorphic_vae";
        model_type := "diffeo";
        decode_count := 0;
        clamp_atlas := negb (unclamp_atlas kw);
        self_tol := tol kw;
        self_isometry_constraint := isometry_constraint kw;
        nb_channels := channels;
        grid_size := gs;
        latent_dimension := latent_dim;
        latent_dimension_s := latent_dim - 1;
        latent_dimension_psi := 1;
        self_downsampling_grid := dsf;
        downsampled_grid_size := dgs;
        self_deformation_kernel_width := deformation_kernel_width kw;
        self_number_of_time_points := ntp;
        dt := step;
        noise_dimension := Tensor.numel gs;
        self_pi_mode := pi_mode kw;
        space_encoder := EncoderFactory_build di (latent_dim - 1) info;
        time_encoder := EncoderFactory_build di 1 info;
        decoder_s := DecoderFactory_build di info latent_dim (length gs);
        atlas := initial_atlas |}.

Variable self : model.

(** The coordinates along each axis: [linspace(0.0, elt - 1.0, delt)]. *)
Definition axis_coordinates : list (list scalar) :=
  List.map (fun p => Tensor.linspace (Fin 0) (Fin (INR (fst p) - 1)) (snd p))
    (combine (grid_size self) (downsampled_grid_size self)).

(** The tensor [grid] of [vector_field_integration] for a batch of [bts]. *)
Definition base_grid (bts : nat) : result tensor :=
  let dim := length (grid_size self) in
  g <- Tensor.stack (Tensor.meshgrid axis_coordinates) ;;
  g <- Tensor.view g ([1; dim] ++ downsampled_grid_size self) ;;
  Tensor.repeat0 g bts.

(** One pass of the loop body for each [t] in [range(1, ntp + 1)]. *)
Fixpoint integration_steps (n : nat) (grid x : tensor) : result tensor :=
  match n with
  | O => Ok x
  | S n' =>
      d <- Tensor.sub x grid ;;
      x' <- Tensor.iadd x
              (Tensor.scalar_mul (dt self)
                 (batched_vector_interpolation_adaptive d x
                    (self_downsampling_grid self))) ;;
      _ <- assert (negb (Tensor.has_nan x'))
             "NaN detected in grid during integration step" ;;
      integration_steps n' grid x'
  end.

Definition vector_field_integration (v_ : tensor) : result tensor :=
  bts <- Tensor.size v_ 0 ;;
  let ntp := self_number_of_time_points self in
  grid <- base_grid bts ;;
  scale <- float_pow2 ntp ;;
  x <- Tensor.add grid (Tensor.div_scalar v_ scale) ;;
  integration_steps (Z.to_nat ntp) grid x.

Definition apply_diffeomorphism (source diffeomorphism : tensor)
    : result tensor :=
  _ <- assert (negb (Tensor.has_nan source)) "NaN detected in source" ;;
  let warped_source :=
    batched_scalar_interpolation_adaptive source diffeomorphism in
  _ <- assert (negb (Tensor.has_nan warped_source))
         "NaN detected in warped_source" ;;
  Ok warped_source.

Definition encode (observations : tensor) : tensor * tensor :=
  let pre_z_psi := time_encoder self observations in
  let pre_z_s := space_encoder self observations in
  (pre_z_psi, pre_z_s).

(** [torch.sum(z.view(bts, -1) ** 2, dim=1)] *)
Definition latent_norm_squared (bts : nat) (z : tensor) : result tensor :=
  rows <- Tensor.view_rows z bts ;;
  Tensor.sum_dims (Tensor.square rows) 1.

(** [torch.sum(v_ * v_star, dim=tuple(range(1, dim + 2)))] *)
Definition v_norm_squared (v_ v_star : tensor) : result tensor :=
  p <- Tensor.mul v_ v_star ;;
  Tensor.sum_dims p (length (grid_size self) + 1).

(** The [torch.where] of step 2. *)
Definition normalizer (lns vns : tensor) : result tensor :=
  q <- Tensor.div lns vns ;;
  Tensor.where_const (Tensor.shape lns)
    (List.map (fun l => Scalar.gt l (self_tol self)) (Tensor.data lns))
    (Tensor.map Scalar.sqrt q) (Fin 0).

(** [x * normalizer.view(n, 1, ..., 1).expand(x.size())] *)
Definition rescale (lns nrm x : tensor) : result tensor :=
  n <- Tensor.size lns 0 ;;
  nrm <- Tensor.view nrm (n :: repeat 1 (length (grid_size self) + 1)) ;;
  nrm <- Tensor.expand nrm (Tensor.shape x) ;;
  Tensor.mul x nrm.

(** Steps 1 and 2 of [decode_s]: the field handed to the integrator. *)
Definition velocity_field (z_psi z : tensor) : result tensor :=
  bts <- Tensor.size z 0 ;;
  z_stacked <- Tensor.cat_last z_psi z ;;
  lns <- latent_norm_squared bts z ;;
  let v_star := decoder_s self z_stacked in
  let v_ := batched_vector_smoothing v_star
              (self_deformation_kernel_width self) false in
  if self_isometry_constraint self then
    vns <- v_norm_squared v_ v_star ;;
    nrm <- normalizer lns vns ;;
    rescale lns nrm v_
  else Ok v_.

Definition decode_s (z_psi z : tensor) : result tensor :=
  v_ <- velocity_field z_psi z ;;
  _ <- assert (negb (Tensor.has_nan v_)) "NaN detected v" ;;
  vector_field_integration v_.

Definition absolute_decode (z : tensor) : result tensor :=
  ' (z_psi, z_s) <- Tensor.split_last z (latent_dimension_psi self)
                      (latent_dimension_s self) ;;
  field_star <- decode_s z_psi z_s ;;
  _ <- assert (negb (Tensor.has_nan field_star)) "NaN detected field_star" ;;
  _ <- assert (negb (Tensor.has_nan z_psi)) "NaN detected z_psi" ;;
  _ <- assert (negb (Tensor.has_nan z_s)) "NaN detected z_s" ;;
  bts <- Tensor.size z_psi 0 ;;
  reshaped_atlas <- Tensor.repeat0 (atlas self) bts ;;
  let reshaped_atlas :=
    if clamp_atlas self then
      Tensor.map (Scalar.clamp (self_tol self)
                    (Scalar.sub Scalar.one (self_tol self))) reshaped_atlas
    else reshaped_atlas in
  apply_diffeomorphism reshaped_atlas field_star.

Definition decode (z : tensor) : result tensor :=
  absolute_decode z.

End Methods.
End DVAE.

(** ** Variant B: [DRVAE] *)

Module DRVAE.
Section Methods.

Context {ext : Externals}.

Definition __init__ (di : data_info) (latent_dim : Z)
    (data_statistics : list tensor) (kw : kwargs) : result model :=
  stat0 <- match data_statistics with
           | s :: _ => Ok s
           | [] => Raise IndexError
           end ;;
  let initial_atlas := Tensor.unsqueeze0 stat0 in
  channels <- Tensor.size initial_atlas 1 ;;
  let gs := skipn 2 (Tensor.shape initial_atlas) in
  _ <- assert (existsb (Nat.eqb (length gs)) [2; 3])
         "Restricted to dimensions 2 and 3" ;;
  _ <- assert (pow2_in_1_2_4 (downsampling_grid kw))
         "Only supports grid downsampling by 1, 2 and 4" ;;
  let dsf := Z.to_nat (2 ^ downsampling_grid kw) in
  let dgs := List.map (fun g => g / dsf) gs in
  let ntp := number_of_time_points kw in
  denom <- float_of_int (ntp - 1) ;;
  step <- py_truediv Scalar.one denom ;;
  let info := {| decoder_grid_size := dgs;
                 info_decoder_last_activation := decoder_last_activation kw;
                 info_size := nn_size kw;
                 pi_module := true |} in
  Ok {| model_name := "referentialdiffeomorphic_vae";
        model_type := "diffeo";
        decode_count := 0;
        clamp_atlas := negb (unclamp_atlas kw);
        self_tol := tol kw;
        self_isometry_constraint := isometry_constraint kw;
        nb_channels := channels;
        grid_size := gs;
        latent_dimension := latent_dim;
        latent_dimension_s := latent_dim - 1;
        latent_dimension_psi := 1;
        self_downsampling_grid := dsf;
        downsampled_grid_size := dgs;
        self_deformation_kernel_width := deformation_kernel_width kw;
        self_number_of_time_points := ntp;
        dt := step;
        noise_dimension := Tensor.numel gs;
        self_pi_mode := pi_mode kw;
        space_encoder := EncoderFactory_build di (latent_dim - 1) info;
        time_encoder := EncoderFactory_build di 1 info;
        decoder_s := DecoderFactory_build di info latent_dim (length gs);
        atlas := initial_atlas |}.

Variable self : model.

(** The coordinates along each axis: [linspace(0.0, elt - 1.0, delt)]. *)
Definition axis_coordinates : list (list scalar) :=
  List.map (fun p => Tensor.linspace (Fin 0) (Fin (INR (fst p) - 1)) (snd p))
    (combine (grid_size self) (downsampled_grid_size self)).

(** The tensor [grid] of [vector_field_integration] for a batch of [bts]. *)
Definition base_grid (bts : nat) : result tensor :=
  let dim := length (grid_size self) in
  g <- Tensor.stack (Tensor.meshgrid axis_coordinates) ;;
  g <- Tensor.view g ([1; dim] ++ downsampled_grid_size self) ;;
  Tensor.repeat0 g bts.

(** One pass of the loop body for each [t] in [range(1, ntp + 1)]. *)
Fixpoint integration_steps (n : nat) (grid x : tensor) : result tensor :=
  match n with
  | O => Ok x
  | S n' =>
      d <- Tensor.sub x grid ;;
      x' <- Tensor.iadd x
              (Tensor.scalar_mul (dt self)
                 (batched_vector_interpolation_adaptive d x
                    (self_downsampling_grid self))) ;;
      _ <- assert (negb (Tensor.has_nan x'))
             "NaN detected in grid during integration step" ;;
      integration_steps n' grid x'
  end.

Definition vector_field_integration (v_ : tensor) : result tensor :=
  bts <- Tensor.size v_ 0 ;;
  let ntp := self_number_of_time_points self in
  grid <- base_grid bts ;;
  scale <- float_pow2 ntp ;;
  x <- Tensor.add grid (Tensor.div_scalar v_ scale) ;;
  integration_steps (Z.to_nat ntp) grid x.

Definition apply_diffeomorphism (source diffeomorphism : tensor)
    : result tensor :=
  _ <- assert (negb (Tensor.has_nan source)) "NaN detected in source" ;;
  let warped_source :=
    batched_scalar_interpolation_adaptive source diffeomorphism in
  _ <- assert (negb (Tensor.has_nan warped_source))
         "NaN detected in warped_source" ;;
  Ok warped_source.

Definition atlas_anchors : tensor * tensor :=
  let static_atlas_pre_latent_psi := time_encoder self (atlas self) in
  let static_atlas_pre_latent_s := space_encoder self (atlas self) in
  (static_atlas_pre_latent_psi, static_atlas_pre_latent_s).

Definition atlas_anchoring (z_psi z_s : tensor) : result (tensor * tensor) :=
  let (static_atlas_latent_psi, static_atlas_latent_s) := atlas_anchors in
  a_psi <- Tensor.sub z_psi static_atlas_latent_psi ;;
  a_s <- Tensor.sub z_s static_atlas_latent_s ;;
  Ok (a_psi, a_s).

Definition encode (observations : tensor) : result (tensor * tensor) :=
  let pre_z_psi := time_encoder self observations in
  let pre_z_s := space_encoder self observations in
  atlas_anchoring pre_z_psi pre_z_s.

(** [torch.sum(z.view(bts, -1) ** 2, dim=1)] *)
Definition latent_norm_squared (bts : nat) (z : tensor) : result tensor :=
  rows <- Tensor.view_rows z bts ;;
  Tensor.sum_dims (Tensor.square rows) 1.

(** [torch.sum(v_ * v_star, dim=tuple(range(1, dim + 2)))] *)
Definition v_norm_squared (v_ v_star : tensor) : result tensor :=
  p <- Tensor.mul v_ v_star ;;
  Tensor.sum_dims p (length (grid_size self) + 1).

(** The [torch.where] of step 2. *)
Definition normalizer (lns vns : tensor) : result tensor :=
  q <- Tensor.div lns vns ;;
  Tensor.where_const (Tensor.shape lns)
    (List.map (fun l => Scalar.gt l (self_tol self)) (Tensor.data lns))
    (Tensor.map Scalar.sqrt q) (Fin 0).

(** [x * normalizer.view(n, 1, ..., 1).expand(x.size())] *)
Definition rescale (lns nrm x : tensor) : result tensor :=
  n <- Tensor.size lns 0 ;;
  nrm <- Tensor.view nrm (n :: repeat 1 (length (grid_size self) + 1)) ;;
  nrm <- Tensor.expand nrm (Tensor.shape x) ;;
  Tensor.mul x nrm.

(** Steps 1 and 2 of [decode_s]: the field handed to the integrator. *)
Definition velocity_field (z_psi z : tensor) : result tensor :=
  bts <- Tensor.size z 0 ;;
  z_stacked <- Tensor.cat_last z_psi z ;;
  lns <- latent_norm_squared bts z ;;
  let v_star := decoder_s self z_stacked in
  let v_ := batched_vector_smoothing v_star
              (self_deformation_kernel_width self) false in
  if self_isometry_constraint self then
    vns <- v_norm_squared v_ v_star ;;
    nrm <- normalizer lns vns ;;
    rescale lns nrm v_
  else Ok v_.

Definition decode_s (z_psi z : tensor) : result tensor :=
  v_ <- velocity_field z_psi z ;;
  _ <- assert (negb (Tensor.has_nan v_)) "NaN detected v" ;;
  vector_field_integration v_.

Definition absolute_decode (z : tensor) : result tensor :=
  ' (z_psi, z_s) <- Tensor.split_last z (latent_dimension_psi self)
                      (latent_dimension_s self) ;;
  field_star <- decode_s z_psi z_s ;;
  _ <- assert (negb (Tensor.has_nan field_star)) "NaN detected field_star" ;;
  _ <- assert (negb (Tensor.has_nan z_psi)) "NaN detected z_psi" ;;
  _ <- assert (negb (Tensor.has_nan z_s)) "NaN detected z_s" ;;
  bts <- Tensor.size z_psi 0 ;;
  reshaped_atlas <- Tensor.repeat0 (atlas self) bts ;;
  let reshaped_atlas :=
    if clamp_atlas self then
      Tensor.map (Scalar.clamp (self_tol self)
                    (Scalar.sub Scalar.one (self_tol self))) reshaped_atlas
    else reshaped_atlas in
  apply_diffeomorphism reshaped_atlas field_star.

Definition decode (z : tensor) : result tensor :=
  absolute_decode z.

End Methods.
End DRVAE.

(** ** Collaborators for running the model on concrete inputs

    The encoders return their input; the decoder fills a field of the
    decoder grid size with the first latent coordinate of each batch row;
    the smoother, the vector interpolator and the scalar interpolator return
    their first tensor argument. *)

Definition constant_field_decoder (info : network_info) (out_channels : nat)
    (z : tensor) : tensor :=
  match Tensor.shape z with
  | bts :: _ =>
      let per := Tensor.numel (out_channels :: decoder_grid_size info) in
      let width := length (Tensor.data z) / bts in
      Tensor.mk (bts :: out_channels :: decoder_grid_size info)
        (concat (List.map (fun row => repeat (hd Scalar.zero row) per)
                   (Tensor.chunks bts width (Tensor.data z))))
  | [] => z
  end.

Definition sample_externals : Externals := {|
  data_info := unit;
  EncoderFactory_build := fun _ _ _ x => x;
  DecoderFactory_build := fun _ info _ ch z => constant_field_decoder info ch z;
  batched_vector_interpolation_adaptive := fun d _ _ => d;
  batched_scalar_interpolation_adaptive := fun s _ => s;
  batched_vector_smoothing := fun v _ _ => v
|}.

(** The same collaborators with a smoother that flips the sign of the
    field, so that the pairing of smoothed velocity and momentum is
    negative. *)
Definition sign_flipping_externals : Externals := {|
  data_info := unit;
  EncoderFactory_build := fun _ _ _ x => x;
  DecoderFactory_build := fun _ info _ ch z => constant_field_decoder info ch z;
  batched_vector_interpolation_adaptive := fun d _ _ => d;
  batched_scalar_interpolation_adaptive := fun s _ => s;
  batched_vector_smoothing := fun v _ _ => Tensor.map (Scalar.mul (Fin (-1))) v
|}.

Definition sample_kwargs (k ntp : Z) (iso : bool) : kwargs := {|
  unclamp_atlas := false;
  tol := Fin (1 / 100000);
  isometry_constraint := iso;
  downsampling_grid := k;
  deformation_kernel_width := Fin 5;
  number_of_time_points := ntp;
  pi_mode := "none";
  decoder_last_activation := "tanh";
  nn_size := "normal"
|}.

(** Statistics whose first entry is a one-channel image of the given size
    with constant intensity one half. *)
Definition sample_statistics (gs : list nat) : list tensor :=
  [Tensor.full (1 :: gs) (Fin (1 / 2))].

(** The model that the constructors build from [sample_statistics gs] and
    [sample_kwargs k ntp iso] with latent dimension 4. *)
Definition sample_model (gs : list nat) (k ntp : Z) (iso : bool) : model :=
  let dsf := Z.to_nat (2 ^ k) in
  let dgs := List.map (fun g => g / dsf) gs in
  let info := {| decoder_grid_size := dgs;
                 info_decoder_last_activation := "tanh";
                 info_size := "normal";
                 pi_module := true |} in
  {| model_name := "referentialdiffeomorphic_vae";
     model_type := "diffeo";
     decode_count := 0;
     clamp_atlas := true;
     self_tol := Fin (1 / 100000);
     self_isometry_constraint := iso;
     nb_channels := 1;
     grid_size := gs;
     latent_dimension := 4;
     latent_dimension_s := 4 - 1;
     latent_dimension_psi := 1;
     self_downsampling_grid := dsf;
     downsampled_grid_size := dgs;
     self_deformation_kernel_width := Fin 5;
     self_number_of_time_points := ntp;
     dt := Fin (1 / IZR (ntp - 1));
     noise_dimension := Tensor.numel gs;
     self_pi_mode := "none";
     space_encoder := fun x => x;
     time_encoder := fun x => x;
     decoder_s := constant_field_decoder info (length gs);
     atlas := Tensor.unsqueeze0 (Tensor.full (1 :: gs) (Fin (1 / 2))) |}.

(** ** Python numbers: lemmas *)

Lemma bind_ok_inv {A B : Type} (c : result A) (k : A -> result B) (b : B) :
  bind c k = Ok b -> exists a, c = Ok a /\ k a = Ok b.
Proof.
  destruct c as [a | e]; simpl; intros H; [eauto | discriminate].
Qed.

Lemma assert_ok_inv (cond : bool) (msg : string) (u : unit) :
  assert cond msg = Ok u -> cond = true.
Proof.
  destruct cond; simpl; [reflexivity | discriminate].
Qed.

Lemma is_zero_true (r : R) : Scalar.is_zero r = true <-> r = 0%R.
Proof.
  unfold Scalar.is_zero; destruct (Req_dec_T r 0); split; intros;
    congruence.
Qed.

Lemma is_zero_false (r : R) : Scalar.is_zero r = false <-> r <> 0%R.
Proof.
  unfold Scalar.is_zero; destruct (Req_dec_T r 0); split; intros;
    congruence.
Qed.

Lemma is_neg_true (r : R) : Scalar.is_neg r = true <-> (r < 0)%R.
Proof.
  unfold Scalar.is_neg; destruct (Rlt_dec r 0); split; intros;
    congruence.
Qed.

Lemma is_neg_false (r : R) : Scalar.is_neg r = false <-> (0 <= r)%R.
Proof.
  unfold Scalar.is_neg; destruct (Rlt_dec r 0); split; intros;
    try congruence; lra.
Qed.

Lemma py_truediv_fin (a r : R) :
  r <> 0%R -> py_truediv (Fin a) (Fin r) = Ok (Fin (a / r)).
Proof.
  intros Hr. unfold py_truediv, Scalar.div.
  apply is_zero_false in Hr. now rewrite Hr.
Qed.

Lemma py_truediv_zero (a : scalar) :
  py_truediv a (Fin 0) = Raise ZeroDivisionError.
Proof.
  unfold py_truediv.
  replace (Scalar.is_zero 0) with true; [reflexivity |].
  symmetry; now apply is_zero_true.
Qed.

Lemma float_of_int_ok (n : Z) :
  (Z.abs n < double_range)%Z -> float_of_int n = Ok (Fin (IZR n)).
Proof.
  intros H. unfold float_of_int.
  apply Z.ltb_lt in H. now rewrite H.
Qed.

Lemma float_of_int_overflow (n : Z) :
  (double_range <= Z.abs n)%Z -> float_of_int n = Raise OverflowError.
Proof.
  intros H. unfold float_of_int.
  apply Z.ltb_ge in H. now rewrite H.
Qed.

Lemma float_of_int_inv (n : Z) (x : scalar) :
  float_of_int n = Ok x -> (Z.abs n < double_range)%Z /\ x = Fin (IZR n).
Proof.
  unfold float_of_int.
  destruct (Z.ltb_spec (Z.abs n) double_range) as [Hlt | Hge];
    intros H; inversion H.
  now split.
Qed.

Lemma pow2_in_1_2_4_iff (k : Z) :
  pow2_in_1_2_4 k = true <-> (k = 0 \/ k = 1 \/ k = 2)%Z.
Proof.
  unfold pow2_in_1_2_4. split.
  - intros H. apply andb_true_iff in H. destruct H as [Hk H].
    apply Z.leb_le in Hk.
    destruct (Z_lt_le_dec k 3) as [Hlt | Hge]; [lia |].
    exfalso.
    assert (Hp : (2 ^ 3 <= 2 ^ k)%Z) by (apply Z.pow_le_mono_r; lia).
    change (2 ^ 3)%Z with 8%Z in Hp.
    simpl in H. rewrite !orb_true_iff in H.
    destruct H as [H | [H | [H | H]]]; try discriminate;
      apply Z.eqb_eq in H; lia.
  - intros [-> | [-> | ->]]; reflexivity.
Qed.

(** ** Construction *)

Section Construction.

Context {ext : Externals}.

(** The record built by a constructor call that passes every check. *)
Lemma init_ok (di : data_info) (ld : Z) (s : tensor) (rest : list tensor)
    (kw : kwargs) (c : nat) :
  nth_error (Tensor.shape s) 0 = Some c ->
  (length (skipn 1 (Tensor.shape s)) = 2
   \/ length (skipn 1 (Tensor.shape s)) = 3) ->
  (downsampling_grid kw = 0 \/ downsampling_grid kw = 1
   \/ downsampling_grid kw = 2)%Z ->
  (Z.abs (number_of_time_points kw - 1) < double_range)%Z ->
  number_of_time_points kw <> 1%Z ->
  exists m,
    DVAE.__init__ di ld (s :: rest) kw = Ok m
    /\ grid_size m = skipn 1 (Tensor.shape s)
    /\ self_downsampling_grid m = Z.to_nat (2 ^ downsampling_grid kw)
    /\ downsampled_grid_size m =
         List.map (fun g => g / Z.to_nat (2 ^ downsampling_grid kw))
           (skipn 1 (Tensor.shape s))
    /\ self_number_of_time_points m = number_of_time_points kw
    /\ dt m = Fin (1 / IZR (number_of_time_points kw - 1))
    /\ atlas m = Tensor.unsqueeze0 s
    /\ self_tol m = tol kw
    /\ self_isometry_constraint m = isometry_constraint kw
    /\ clamp_atlas m = negb (unclamp_atlas kw).
Proof.
  intros Hc Hdim Hk Hrange Hntp.
  unfold DVAE.__init__. cbn [bind].
  unfold Tensor.size, Tensor.unsqueeze0.
  destruct (Tensor.shape s) as [| c0 gs0] eqn:Hshape; [discriminate |].
  simpl in Hc, Hdim. inversion Hc; subst c0. simpl.
  replace ((length gs0 =? 2) || ((length gs0 =? 3) || false)) with true
    by (destruct Hdim as [-> | ->]; reflexivity).
  apply pow2_in_1_2_4_iff in Hk. rewrite Hk. cbn [bind assert].
  rewrite (float_of_int_ok _ Hrange). cbn [bind].
  unfold Scalar.one. rewrite py_truediv_fin.
  2:{ intros H0. apply (eq_IZR _ 0) in H0. lia. }
  cbn [bind]. eexists. split; [reflexivity |].
  cbn. repeat split; reflexivity.
Qed.

(** What a successful constructor call tells about its arguments. *)
Lemma init_inv (di : data_info) (ld : Z) (stats : list tensor)
    (kw : kwargs) (m : model) :
  DVAE.__init__ di ld stats kw = Ok m ->
  exists s rest c,
    stats = s :: rest
    /\ nth_error (Tensor.shape s) 0 = Some c
    /\ (length (skipn 1 (Tensor.shape s)) = 2
        \/ length (skipn 1 (Tensor.shape s)) = 3)
    /\ (downsampling_grid kw = 0 \/ downsampling_grid kw = 1
        \/ downsampling_grid kw = 2)%Z
    /\ (Z.abs (number_of_time_points kw - 1) < double_range)%Z
    /\ number_of_time_points kw <> 1%Z.
Proof.
  unfold DVAE.__init__. intros H.
  destruct stats as [| s rest]; [discriminate |]. cbn [bind] in H.
  apply bind_ok_inv in H. destruct H as (c & Hc & H).
  apply bind_ok_inv in H. destruct H as (u1 & Hdim & H).
  apply bind_ok_inv in H. destruct H as (u2 & Hk & H).
  apply bind_ok_inv in H. destruct H as (den & Hden & H).
  apply bind_ok_inv in H. destruct H as (step & Hstep & H).
  exists s, rest, c.
  unfold Tensor.size, Tensor.unsqueeze0 in Hc.
  unfold Tensor.unsqueeze0 in Hdim.
  apply assert_ok_inv in Hdim. apply assert_ok_inv in Hk.
  apply pow2_in_1_2_4_iff in Hk.
  apply float_of_int_inv in Hden. destruct Hden as [Hrange ->].
  destruct (Tensor.shape s) as [| c0 gs0] eqn:Hshape;
    simpl in Hc, Hdim; [discriminate |].
  inversion Hc; subst c0.
  repeat split; try assumption.
  - simpl. rewrite !orb_true_iff in Hdim.
    destruct Hdim as [Hd | [Hd | Hd]]; try discriminate;
      apply Nat.eqb_eq in Hd; [left | right]; assumption.
  - intros Hone. rewrite Hone in Hstep.
    change (1 - 1)%Z with 0%Z in Hstep.
    rewrite py_truediv_zero in Hstep. discriminate.
Qed.

(** Once the two assertions pass, only the computation of [dt] can
    still raise. *)
Lemma init_after_checks (di : data_info) (ld : Z) (s : tensor)
    (rest : list tensor) (kw : kwargs) (c : nat) (gs : list nat) :
  Tensor.shape s = c :: gs ->
  (length gs = 2 \/ length gs = 3) ->
  (downsampling_grid kw = 0 \/ downsampling_grid kw = 1
   \/ downsampling_grid kw = 2)%Z ->
  exists build : scalar -> model,
    DVAE.__init__ di ld (s :: rest) kw =
      (denom <- float_of_int (number_of_time_points kw - 1) ;;
       step <- py_truediv Scalar.one denom ;;
       Ok (build step)).
Proof.
  intros Hshape Hdim Hk. eexists.
  unfold DVAE.__init__. cbn [bind].
  unfold Tensor.size, Tensor.unsqueeze0. rewrite Hshape. simpl.
  replace ((length gs =? 2) || ((length gs =? 3) || false)) with true
    by (destruct Hdim as [-> | ->]; reflexivity).
  apply pow2_in_1_2_4_iff in Hk. rewrite Hk. cbn [bind assert].
  match goal with
  | |- bind _ (fun d => bind _ (fun st => Ok (@?f st))) = _ =>
      instantiate (1 := f)
  end.
  reflexivity.
Qed.

Lemma sample_model_constructed (gs : list nat) (k ntp : Z) (iso : bool) :
  (length gs = 2 \/ length gs = 3) ->
  (k = 0 \/ k = 1 \/ k = 2)%Z ->
  (Z.abs (ntp - 1) < double_range)%Z -> ntp <> 1%Z ->
  DVAE.__init__ (ext := sample_externals) tt 4 (sample_statistics gs)
    (sample_kwargs k ntp iso)
  = Ok (sample_model gs k ntp iso).
Proof.
  intros Hdim Hk Hrange Hntp.
  unfold DVAE.__init__, sample_statistics. cbn [bind].
  unfold Tensor.size, Tensor.unsqueeze0, Tensor.full. simpl.
  replace ((length gs =? 2) || ((length gs =? 3) || false)) with true
    by (destruct Hdim as [-> | ->]; reflexivity).
  apply pow2_in_1_2_4_iff in Hk. rewrite Hk. cbn [bind assert].
  rewrite (float_of_int_ok _ Hrange). cbn [bind].
  unfold Scalar.one. rewrite py_truediv_fin.
  2:{ intros H0. apply (eq_IZR _ 0) in H0. lia. }
  reflexivity.
Qed.

Lemma DRVAE_init_eq (di : data_info) (ld : Z) (stats : list tensor)
    (kw : kwargs) :
  DRVAE.__init__ di ld stats kw = DVAE.__init__ di ld stats kw.
Proof. reflexivity. Qed.

End Construction.

Section ConstructionFacts.

Context {ext : Externals}.

(** The attributes of a constructed model in terms of the arguments. *)
Lemma init_fields (di : data_info) (ld : Z) (stats : list tensor)
    (kw : kwargs) (m : model) :
  DVAE.__init__ di ld stats kw = Ok m ->
  exists s rest,
    stats = s :: rest
    /\ (length (grid_size m) = 2 \/ length (grid_size m) = 3)
    /\ (downsampling_grid kw = 0 \/ downsampling_grid kw = 1
        \/ downsampling_grid kw = 2)%Z
    /\ number_of_time_points kw <> 1%Z
    /\ grid_size m = skipn 1 (Tensor.shape s)
    /\ self_downsampling_grid m = Z.to_nat (2 ^ downsampling_grid kw)
    /\ downsampled_grid_size m =
         List.map (fun g => g / self_downsampling_grid m) (grid_size m)
    /\ self_number_of_time_points m = number_of_time_points kw
    /\ dt m = Fin (1 / IZR (number_of_time_points kw - 1))
    /\ atlas m = Tensor.unsqueeze0 s.
Proof.
  intros H.
  destruct (init_inv _ _ _ _ H)
    as (s & rest & c & -> & Hc & Hdim & Hk & Hrange & Hntp).
  destruct (init_ok di ld s rest kw Hc Hdim Hk Hrange Hntp)
    as (m' & Hm' & Hgs & Hdsf & Hdgs & Hn & Hdt & Hatlas & _).
  rewrite Hm' in H. inversion H; subst m'.
  exists s, rest. rewrite Hgs, Hdsf, Hdgs, Hn, Hdt, Hatlas.
  repeat split; try assumption; reflexivity.
Qed.

Lemma downsampling_factor_values (k : Z) :
  (k = 0 \/ k = 1 \/ k = 2)%Z ->
  Z.to_nat (2 ^ k) = 1 \/ Z.to_nat (2 ^ k) = 2 \/ Z.to_nat (2 ^ k) = 4.
Proof.
  intros [-> | [-> | ->]]; [left | right; left | right; right]; reflexivity.
Qed.

End ConstructionFacts.

(** ** Claims about construction *)

(** C5 (amended).  For statistics whose first entry has a channel axis
    followed by the spatial axes [gs], constructing [DVAE] or [DRVAE]
    succeeds exactly when [gs] has 2 or 3 axes, the configuration value
    [downsampling_grid] is 0, 1 or 2 (it is the exponent of the factor
    [2 ** downsampling_grid], which is then 1, 2 or 4), and
    [number_of_time_points] is not 1 and [number_of_time_points - 1]
    converts to a float.  Another number of spatial axes fails with the
    assertion "Restricted to dimensions 2 and 3"; otherwise another
    [downsampling_grid] fails with the assertion "Only supports grid
    downsampling by 1, 2 and 4". *)
Theorem construction_succeeds_iff {ext : Externals} (di : data_info)
    (ld : Z) (s : tensor) (rest : list tensor) (kw : kwargs) (c : nat)
    (gs : list nat) :
  Tensor.shape s = c :: gs ->
  (returns (DVAE.__init__ di ld (s :: rest) kw) <->
     (length gs = 2 \/ length gs = 3)
     /\ (downsampling_grid kw = 0 \/ downsampling_grid kw = 1
         \/ downsampling_grid kw = 2)%Z
     /\ number_of_time_points kw <> 1%Z
     /\ (Z.abs (number_of_time_points kw - 1) < double_range)%Z)
  /\ (~ (length gs = 2 \/ length gs = 3) ->
      DVAE.__init__ di ld (s :: rest) kw =
        Raise (AssertionError "Restricted to dimensions 2 and 3"))
  /\ ((length gs = 2 \/ length gs = 3) ->
      ~ (downsampling_grid kw = 0 \/ downsampling_grid kw = 1
         \/ downsampling_grid kw = 2)%Z ->
      DVAE.__init__ di ld (s :: rest) kw =
        Raise (AssertionError "Only supports grid downsampling by 1, 2 and 4"))
  /\ DRVAE.__init__ di ld (s :: rest) kw = DVAE.__init__ di ld (s :: rest) kw.
Proof.
  intros Hshape. split; [split |]; [| | split; [| split; [| reflexivity]]].
  - intros [m Hm].
    destruct (init_inv _ _ _ _ Hm)
      as (s' & rest' & c' & Heq & Hc & Hdim & Hk & Hrange & Hntp).
    inversion Heq; subst s' rest'. rewrite Hshape in Hdim. simpl in Hdim.
    tauto.
  - intros (Hdim & Hk & Hntp & Hrange).
    destruct (init_ok di ld s rest kw (c := c)) as (m & Hm & _);
      try assumption.
    + now rewrite Hshape.
    + now rewrite Hshape.
    + now exists m.
  - intros Hdim. unfold DVAE.__init__. cbn [bind].
    unfold Tensor.size, Tensor.unsqueeze0. rewrite Hshape. simpl.
    destruct (Nat.eqb_spec (length gs) 2) as [H2 | H2]; [tauto |].
    destruct (Nat.eqb_spec (length gs) 3) as [H3 | H3]; [tauto |].
    reflexivity.
  - intros Hdim Hk. unfold DVAE.__init__. cbn [bind].
    unfold Tensor.size, Tensor.unsqueeze0. rewrite Hshape. simpl.
    replace ((length gs =? 2) || ((length gs =? 3) || false)) with true
      by (destruct Hdim as [-> | ->]; reflexivity).
    destruct (pow2_in_1_2_4 (downsampling_grid kw)) eqn:Hp.
    + apply pow2_in_1_2_4_iff in Hp. tauto.
    + reflexivity.
Qed.

Lemma construction_succeeds_iff_witness :
  returns (DVAE.__init__ (ext := sample_externals) tt 4
             (sample_statistics [4; 4]) (sample_kwargs 1 5 false)).
Proof.
  destruct (construction_succeeds_iff (ext := sample_externals) tt 4
              (Tensor.full [1; 4; 4] (Fin (1 / 2))) []
              (sample_kwargs 1 5 false) (c := 1) (gs := [4; 4]) eq_refl)
    as [[_ H] _].
  apply H. simpl.
  split; [left; reflexivity |].
  split; [right; left; reflexivity |].
  split; [discriminate | reflexivity].
Defined.

(** C5 fails as stated: with a 2-D atlas and the configuration value
    [downsampling_grid = 4], a member of {1, 2, 4}, both constructors raise
    the downsampling assertion (the factor is [2 ** 4 = 16]). *)
Lemma downsampling_value_4_rejected :
  In 4%Z [1; 2; 4]%Z
  /\ length [4; 4] = 2
  /\ DVAE.__init__ (ext := sample_externals) tt 4
       (sample_statistics [4; 4]) (sample_kwargs 4 5 false)
     = Raise (AssertionError "Only supports grid downsampling by 1, 2 and 4")
  /\ DRVAE.__init__ (ext := sample_externals) tt 4
       (sample_statistics [4; 4]) (sample_kwargs 4 5 false)
     = Raise (AssertionError "Only supports grid downsampling by 1, 2 and 4").
Proof.
  repeat split.
  right; right; left; reflexivity.
Qed.

(** C6 (amended).  In every constructed model the downsampling factor is
    1, 2 or 4 and each downsampled grid size is the floor of the grid size
    divided by the factor: [d * f <= g < d * f + f], and [d * f] gives back
    [g] exactly when [f] divides [g].  Construction performs no
    divisibility check. *)
Theorem downsampled_grid_size_is_floor {ext : Externals} (di : data_info)
    (ld : Z) (stats : list tensor) (kw : kwargs) (m : model) :
  DVAE.__init__ di ld stats kw = Ok m
  \/ DRVAE.__init__ di ld stats kw = Ok m ->
  let f := self_downsampling_grid m in
  (f = 1 \/ f = 2 \/ f = 4)
  /\ length (downsampled_grid_size m) = length (grid_size m)
  /\ forall i g,
       nth_error (grid_size m) i = Some g ->
       exists d,
         nth_error (downsampled_grid_size m) i = Some d
         /\ d = g / f
         /\ d * f <= g < d * f + f
         /\ (d * f = g <-> Nat.divide f g).
Proof.
  intros H f.
  assert (Hm : DVAE.__init__ di ld stats kw = Ok m)
    by (destruct H as [H | H]; [exact H | now rewrite <- DRVAE_init_eq]).
  destruct (init_fields _ _ _ _ Hm)
    as (s & rest & _ & _ & Hk & _ & _ & Hf & Hdgs & _).
  assert (Hfv : f = 1 \/ f = 2 \/ f = 4)
    by (unfold f; rewrite Hf; now apply downsampling_factor_values).
  assert (Hpos : f <> 0) by lia.
  split; [exact Hfv |]. split.
  - rewrite Hdgs. apply length_map.
  - intros i g Hg. exists (g / f). fold f in Hdgs. split; [| split; [| split]].
    + rewrite Hdgs. rewrite nth_error_map, Hg. reflexivity.
    + reflexivity.
    + pose proof (Nat.div_mod_eq g f) as Hdm.
      pose proof (Nat.mod_upper_bound g f Hpos). nia.
    + split.
      * intros He. exists (g / f). lia.
      * intros [q Hq]. subst g. rewrite Nat.div_mul by exact Hpos.
        reflexivity.
Qed.

Lemma downsampled_grid_size_is_floor_witness :
  exists m : model,
    DVAE.__init__ (ext := sample_externals) tt 4
      (sample_statistics [6; 6]) (sample_kwargs 1 5 false) = Ok m
    /\ nth_error (downsampled_grid_size m) 0 = Some 3.
Proof.
  destruct (init_ok (ext := sample_externals) tt 4
              (Tensor.full [1; 6; 6] (Fin (1 / 2))) []
              (sample_kwargs 1 5 false) (c := 1))
    as (m & Hm & Hgs & Hf & _);
    [reflexivity | left; reflexivity | right; left; reflexivity
    | reflexivity | discriminate |].
  exists m. split; [exact Hm |].
  destruct (downsampled_grid_size_is_floor (ext := sample_externals) tt 4
              (sample_statistics [6; 6]) (sample_kwargs 1 5 false)
              (or_introl Hm))
    as (_ & _ & Hall).
  destruct (Hall 0 6) as (d & Hd & Hval & _).
  - rewrite Hgs. reflexivity.
  - rewrite Hd, Hval, Hf. reflexivity.
Defined.

(** C6 fails as stated: a 3 x 3 atlas with factor 2 is accepted by both
    constructors although 2 does not divide 3; the downsampled size 1 times
    the factor is 2, not 3. *)
Lemma indivisible_grid_is_accepted :
  exists m : model,
    DVAE.__init__ (ext := sample_externals) tt 4
      (sample_statistics [3; 3]) (sample_kwargs 1 5 false) = Ok m
    /\ DRVAE.__init__ (ext := sample_externals) tt 4
         (sample_statistics [3; 3]) (sample_kwargs 1 5 false) = Ok m
    /\ grid_size m = [3; 3]
    /\ self_downsampling_grid m = 2
    /\ downsampled_grid_size m = [1; 1]
    /\ ~ Nat.divide 2 3
    /\ List.map (fun d => d * self_downsampling_grid m)
         (downsampled_grid_size m) <> grid_size m.
Proof.
  destruct (init_ok (ext := sample_externals) tt 4
              (Tensor.full [1; 3; 3] (Fin (1 / 2))) []
              (sample_kwargs 1 5 false) (c := 1))
    as (m & Hm & Hgs & Hf & Hdgs & _);
    [reflexivity | left; reflexivity | right; left; reflexivity
    | reflexivity | discriminate |].
  exists m. simpl in Hgs, Hf, Hdgs.
  change (Z.to_nat (2 ^ 1)) with 2 in Hf, Hdgs.
  rewrite Hgs, Hf, Hdgs. repeat split; try assumption.
  - intros [q Hq]. lia.
  - discriminate.
Qed.

(** C10.  With an otherwise valid configuration, [number_of_time_points = 1]
    makes both constructors raise [ZeroDivisionError] on
    [1. / float(number_of_time_points - 1)]; no value of
    [number_of_time_points] is rejected by an assertion; and a value [<= 0]
    (inside the range of a float) is accepted and gives a negative [dt]. *)
Theorem number_of_time_points_not_validated {ext : Externals}
    (di : data_info) (ld : Z) (s : tensor) (rest : list tensor)
    (kw : kwargs) (c : nat) (gs : list nat) :
  Tensor.shape s = c :: gs ->
  (length gs = 2 \/ length gs = 3) ->
  (downsampling_grid kw = 0 \/ downsampling_grid kw = 1
   \/ downsampling_grid kw = 2)%Z ->
  (number_of_time_points kw = 1%Z ->
     DVAE.__init__ di ld (s :: rest) kw = Raise ZeroDivisionError
     /\ DRVAE.__init__ di ld (s :: rest) kw = Raise ZeroDivisionError)
  /\ (forall msg,
        DVAE.__init__ di ld (s :: rest) kw <> Raise (AssertionError msg)
        /\ DRVAE.__init__ di ld (s :: rest) kw <> Raise (AssertionError msg))
  /\ ((number_of_time_points kw <= 0)%Z ->
      (Z.abs (number_of_time_points kw - 1) < double_range)%Z ->
      exists m d,
        DVAE.__init__ di ld (s :: rest) kw = Ok m
        /\ DRVAE.__init__ di ld (s :: rest) kw = Ok m
        /\ self_number_of_time_points m = number_of_time_points kw
        /\ dt m = Fin d /\ (d < 0)%R).
Proof.
  intros Hshape Hdim Hk.
  destruct (init_after_checks di ld s rest kw Hshape Hdim Hk)
    as (build & Hprefix).
  split; [| split].
  - intros Hone.
    assert (Hz : DVAE.__init__ di ld (s :: rest) kw = Raise ZeroDivisionError).
    { rewrite Hprefix. rewrite Hone. change (1 - 1)%Z with 0%Z.
      rewrite float_of_int_ok by reflexivity. cbn [bind].
      rewrite py_truediv_zero. reflexivity. }
    split; [exact Hz | now rewrite DRVAE_init_eq].
  - intros msg.
    rewrite (DRVAE_init_eq di ld (s :: rest) kw) at 1.
    assert (Hno : DVAE.__init__ di ld (s :: rest) kw
                  <> Raise (AssertionError msg)).
    { intros Hbad. rewrite Hprefix in Hbad.
      unfold float_of_int in Hbad.
      destruct (Z.abs (number_of_time_points kw - 1) <? double_range)%Z;
        [| discriminate].
      cbn [bind] in Hbad. unfold py_truediv in Hbad.
      destruct (Scalar.is_zero (IZR (number_of_time_points kw - 1)));
        [discriminate |].
      cbn [bind] in Hbad. discriminate. }
    split; exact Hno.
  - intros Hle Hrange.
    destruct (init_ok di ld s rest kw (c := c))
      as (m & Hm & _ & _ & _ & Hn & Hdt & _); try assumption.
    + now rewrite Hshape.
    + now rewrite Hshape.
    + lia.
    + exists m, (1 / IZR (number_of_time_points kw - 1))%R.
      repeat split; try assumption.
      assert (Hneg : (IZR (number_of_time_points kw - 1) < 0)%R)
        by (apply (IZR_lt _ 0); lia).
      unfold Rdiv. rewrite Rmult_1_l. now apply Rinv_lt_0_compat.
Qed.

Lemma number_of_time_points_not_validated_witness :
  DVAE.__init__ (ext := sample_externals) tt 4
    (sample_statistics [4; 4]) (sample_kwargs 1 1 false)
  = Raise ZeroDivisionError.
Proof.
  destruct (number_of_time_points_not_validated (ext := sample_externals)
              tt 4 (Tensor.full [1; 4; 4] (Fin (1 / 2))) []
              (sample_kwargs 1 1 false) (c := 1) (gs := [4; 4]) eq_refl
              (or_introl eq_refl) (or_intror (or_introl eq_refl)))
    as [H _].
  exact (proj1 (H eq_refl)).
Defined.

(** ** Lists cut into rows *)

Section Rows.

Context {A : Type}.

Lemma chunks_length (k n : nat) (d : list A) :
  length (Tensor.chunks k n d) = k.
Proof.
  revert d. induction k as [| k IH]; intros d; simpl; [reflexivity |].
  now rewrite IH.
Qed.

Lemma chunks_each (k n : nat) (d : list A) :
  k * n <= length d ->
  Forall (fun c => length c = n) (Tensor.chunks k n d).
Proof.
  revert d. induction k as [| k IH]; intros d Hlen; simpl; constructor.
  - apply firstn_length_le. simpl in Hlen. lia.
  - apply IH. rewrite length_skipn. simpl in Hlen. lia.
Qed.

Lemma concat_chunks (k n : nat) (d : list A) :
  length d = k * n -> concat (Tensor.chunks k n d) = d.
Proof.
  revert d. induction k as [| k IH]; intros d Hlen; simpl.
  - destruct d; [reflexivity | discriminate].
  - rewrite IH.
    + apply firstn_skipn.
    + rewrite length_skipn. simpl in Hlen. lia.
Qed.

Lemma chunks_concat (n : nat) (ls : list (list A)) :
  Forall (fun c => length c = n) ls ->
  Tensor.chunks (length ls) n (concat ls) = ls.
Proof.
  induction 1 as [| c ls Hc _ IH]; simpl; [reflexivity |].
  rewrite firstn_app, skipn_app, Hc, Nat.sub_diag. simpl.
  rewrite firstn_all2 by lia. rewrite skipn_all2 by lia.
  rewrite app_nil_r. simpl. now rewrite IH.
Qed.

Lemma length_concat_const (n : nat) (ls : list (list A)) :
  Forall (fun c => length c = n) ls ->
  length (concat ls) = length ls * n.
Proof.
  induction 1 as [| c ls Hc _ IH]; simpl; [reflexivity |].
  rewrite length_app, IH, Hc. reflexivity.
Qed.

Lemma mapM_id (f : A -> option A) (l : list A) :
  Forall (fun a => f a = Some a) l -> Tensor.mapM f l = Some l.
Proof.
  induction 1 as [| a l Ha _ IH]; simpl; [reflexivity |].
  now rewrite Ha, IH.
Qed.

Lemma mapM_some {B : Type} (f : A -> option B) (l : list A)
    (r : list B) :
  Tensor.mapM f l = Some r -> Forall2 (fun a b => f a = Some b) l r.
Proof.
  revert r. induction l as [| a l IH]; intros r H; simpl in H.
  - inversion H. constructor.
  - destruct (f a) as [b |] eqn:Hb; [| discriminate].
    destruct (Tensor.mapM f l) as [bs |]; [| discriminate].
    inversion H. constructor; [exact Hb | now apply IH].
Qed.

End Rows.

Section Map2.

Context {A B C : Type}.

Lemma length_map2 (f : A -> B -> C) (l1 : list A) (l2 : list B) :
  length (Tensor.map2 f l1 l2) = Nat.min (length l1) (length l2).
Proof.
  unfold Tensor.map2. now rewrite length_map, length_combine.
Qed.

Lemma map2_cons (f : A -> B -> C) (a : A) (b : B) (l1 : list A)
    (l2 : list B) :
  Tensor.map2 f (a :: l1) (b :: l2) = f a b :: Tensor.map2 f l1 l2.
Proof. reflexivity. Qed.

Lemma map2_repeat_r (f : A -> B -> C) (b : B) (l : list A) :
  Tensor.map2 f l (repeat b (length l)) = List.map (fun a => f a b) l.
Proof.
  induction l as [| a l IH]; simpl; [reflexivity |].
  rewrite map2_cons. now rewrite IH.
Qed.

Lemma map2_app (f : A -> B -> C) (l1 l1' : list A) (l2 l2' : list B) :
  length l1 = length l2 ->
  Tensor.map2 f (l1 ++ l1') (l2 ++ l2') =
    Tensor.map2 f l1 l2 ++ Tensor.map2 f l1' l2'.
Proof.
  revert l2. induction l1 as [| a l1 IH]; intros [| b l2] Hlen;
    simpl in Hlen; try discriminate; [reflexivity |].
  simpl. rewrite !map2_cons. rewrite IH by lia. reflexivity.
Qed.

End Map2.

Lemma map2_diag {A C : Type} (f : A -> A -> C) (l : list A) :
  Tensor.map2 f l l = List.map (fun a => f a a) l.
Proof.
  induction l as [| a l IH]; simpl; [reflexivity |].
  rewrite map2_cons. now rewrite IH.
Qed.

(** ** Shapes and broadcasting *)

Lemma numel_app (a b : list nat) :
  Tensor.numel (a ++ b) = Tensor.numel a * Tensor.numel b.
Proof.
  induction a as [| x a IH]; simpl; [lia |]. rewrite IH. lia.
Qed.

Lemma numel_ones (k : nat) : Tensor.numel (repeat 1 k) = 1.
Proof.
  induction k as [| k IH]; simpl; [reflexivity |]. rewrite IH. reflexivity.
Qed.

Lemma numel_pad (rank : nat) (sh : list nat) :
  Tensor.numel (Tensor.pad rank sh) = Tensor.numel sh.
Proof.
  unfold Tensor.pad. rewrite numel_app, numel_ones. lia.
Qed.

Lemma pad_same (sh : list nat) : Tensor.pad (length sh) sh = sh.
Proof.
  unfold Tensor.pad. now rewrite Nat.sub_diag.
Qed.

Lemma bshape_same (sh : list nat) : Tensor.bshape sh sh = Some sh.
Proof.
  induction sh as [| x sh IH]; simpl; [reflexivity |].
  now rewrite IH, Nat.eqb_refl.
Qed.

Lemma broadcast_shapes_same (sh : list nat) :
  Tensor.broadcast_shapes sh sh = Some sh.
Proof.
  unfold Tensor.broadcast_shapes.
  rewrite Nat.max_id, pad_same. apply bshape_same.
Qed.

Lemma expand_data_same {A : Type} (sh : list nat) (d : list A) :
  length d = Tensor.numel sh -> Tensor.expand_data sh sh d = Some d.
Proof.
  revert d. induction sh as [| s sh IH]; intros d Hlen; simpl;
    [reflexivity |].
  rewrite Nat.eqb_refl. simpl in Hlen.
  rewrite mapM_id.
  - simpl. now rewrite concat_chunks.
  - assert (Hall : Forall (fun c => length c = Tensor.numel sh)
                     (Tensor.chunks s (Tensor.numel sh) d))
      by (apply chunks_each; lia).
    eapply Forall_impl; [| exact Hall]. intros c Hc. now apply IH.
Qed.

Lemma expand_data_length {A : Type} (sh target : list nat)
    (d r : list A) :
  length d = Tensor.numel sh ->
  Tensor.expand_data sh target d = Some r ->
  length r = Tensor.numel target.
Proof.
  revert target d r.
  induction sh as [| s sh IH]; intros [| n target] d r Hlen H;
    simpl in H; try discriminate.
  - inversion H; subst. exact Hlen.
  - simpl in Hlen. destruct (Nat.eqb_spec s n) as [-> | Hne].
    + destruct (Tensor.mapM _ _) as [rs |] eqn:Hrs; [| discriminate].
      simpl in H. inversion H; subst r. apply mapM_some in Hrs.
      assert (Hall : Forall (fun c => length c = Tensor.numel sh)
                       (Tensor.chunks n (Tensor.numel sh) d))
        by (apply chunks_each; lia).
      assert (Hlens : Forall (fun c => length c = Tensor.numel target) rs).
      { clear H Hlen. induction Hrs as [| c c' cs rs' Hc _ IHrs];
          constructor.
        - inversion Hall; subst. now apply (IH target c c').
        - apply IHrs. now inversion Hall. }
      rewrite (length_concat_const Hlens).
      apply Forall2_length in Hrs. rewrite chunks_length in Hrs.
      simpl. now rewrite <- Hrs.
    + destruct (Nat.eqb_spec s 1) as [-> | Hne1]; [| discriminate].
      destruct (Tensor.expand_data sh target d) as [r' |] eqn:Hr';
        [| discriminate].
      simpl in H. inversion H; subst r.
      assert (Hr : length r' = Tensor.numel target)
        by (apply (IH target d r'); [lia | exact Hr']).
      rewrite (length_concat_const (n := Tensor.numel target)).
      * rewrite repeat_length. reflexivity.
      * apply Forall_forall. intros c Hc.
        apply repeat_spec in Hc. now subst c.
Qed.

Lemma tensor_eta (x : tensor) :
  Tensor.mk (Tensor.shape x) (Tensor.data x) = x.
Proof. now destruct x. Qed.

Lemma expand_same (x : tensor) :
  Tensor.wf x -> Tensor.expand x (Tensor.shape x) = Ok x.
Proof.
  intros Hwf. unfold Tensor.expand.
  rewrite pad_same, expand_data_same by exact Hwf.
  now rewrite tensor_eta.
Qed.

Lemma expand_wf (x y : tensor) (target : list nat) :
  Tensor.wf x -> Tensor.expand x target = Ok y ->
  Tensor.shape y = target /\ Tensor.wf y.
Proof.
  intros Hwf H. unfold Tensor.expand in H.
  destruct (Tensor.expand_data _ _ _) as [d |] eqn:Hd; [| discriminate].
  inversion H; subst y. split; [reflexivity |].
  unfold Tensor.wf. simpl.
  apply (expand_data_length _ _ _ (r := d)) in Hd; [exact Hd |].
  now rewrite numel_pad.
Qed.

Lemma binop_same (f : scalar -> scalar -> scalar) (x y : tensor) :
  Tensor.wf x -> Tensor.wf y -> Tensor.shape y = Tensor.shape x ->
  Tensor.binop f x y =
    Ok (Tensor.mk (Tensor.shape x)
          (Tensor.map2 f (Tensor.data x) (Tensor.data y))).
Proof.
  intros Hx Hy Hsh. unfold Tensor.binop.
  rewrite Hsh, broadcast_shapes_same.
  rewrite (expand_same Hx). cbn [bind].
  rewrite <- Hsh. rewrite (expand_same Hy). reflexivity.
Qed.

Lemma iadd_same (x y : tensor) :
  Tensor.wf y -> Tensor.shape y = Tensor.shape x ->
  Tensor.iadd x y =
    Ok (Tensor.mk (Tensor.shape x)
          (Tensor.map2 Scalar.add (Tensor.data x) (Tensor.data y))).
Proof.
  intros Hy Hsh. unfold Tensor.iadd.
  rewrite <- Hsh. rewrite (expand_same Hy). reflexivity.
Qed.

(** ** Finite elements *)

Lemma finite_not_nan (l : list scalar) :
  Forall (fun e => Scalar.isfinite e = true) l ->
  existsb Scalar.isnan l = false.
Proof.
  induction 1 as [| e l He _ IH]; simpl; [reflexivity |].
  rewrite IH. destruct e; simpl in *; try discriminate; reflexivity.
Qed.

Lemma add_zero_r (x : scalar) : Scalar.add x Scalar.zero = x.
Proof.
  destruct x as [| s | r]; simpl; try reflexivity.
  now rewrite Rplus_0_r.
Qed.

Lemma sub_diag_finite (x : scalar) :
  Scalar.isfinite x = true -> Scalar.sub x x = Scalar.zero.
Proof.
  destruct x as [| s | r]; simpl; try discriminate. intros _.
  unfold Scalar.sub, Scalar.zero. simpl. now rewrite Rplus_opp_r.
Qed.

Lemma mul_fin_zero (d : R) : Scalar.mul (Fin d) Scalar.zero = Scalar.zero.
Proof.
  unfold Scalar.zero. simpl. now rewrite Rmult_0_r.
Qed.

Lemma div_zero_fin (c : R) :
  c <> 0%R -> Scalar.div Scalar.zero (Fin c) = Scalar.zero.
Proof.
  intros Hc. unfold Scalar.zero, Scalar.div.
  apply is_zero_false in Hc. rewrite Hc.
  unfold Rdiv. now rewrite Rmult_0_l.
Qed.

Lemma nan_add_l (y : scalar) : Scalar.add NaN y = NaN.
Proof. reflexivity. Qed.

Lemma nan_add_r (x : scalar) : Scalar.add x NaN = NaN.
Proof. now destruct x. Qed.

Lemma nan_div_l (y : scalar) : Scalar.div NaN y = NaN.
Proof. reflexivity. Qed.

Lemma isnan_true (x : scalar) : Scalar.isnan x = true -> x = NaN.
Proof. destruct x; simpl; intros H; try discriminate; reflexivity. Qed.

(** ** The base grid *)

Lemma linspace_length (a b : scalar) (n : nat) :
  length (Tensor.linspace a b n) = n.
Proof.
  destruct n as [| [| n]]; simpl; try reflexivity.
  now rewrite length_map, length_seq.
Qed.

Lemma INR_pred_nonzero (n : nat) : 2 <= n -> INR (n - 1) <> 0%R.
Proof.
  intros Hn. apply not_0_INR. lia.
Qed.

(** Coordinate [i] of an axis sampled at [n >= 2] points. *)
Lemma linspace_nth (a b : R) (n i : nat) :
  2 <= n -> i < n ->
  nth i (Tensor.linspace (Fin a) (Fin b) n) NaN =
    Fin (a + INR i * ((b + - a) / INR (n - 1))).
Proof.
  intros Hn Hi. destruct n as [| [| n]]; try lia.
  unfold Tensor.linspace.
  set (steps := S (S n)) in *.
  rewrite (nth_indep _ NaN
             (Scalar.add (Fin a)
                (Scalar.mul (Fin (INR 0))
                   (Scalar.div (Scalar.sub (Fin b) (Fin a))
                      (Fin (INR (steps - 1)))))))
    by now rewrite length_map, length_seq.
  rewrite (map_nth (fun i => Scalar.add (Fin a)
                     (Scalar.mul (Fin (INR i))
                        (Scalar.div (Scalar.sub (Fin b) (Fin a))
                           (Fin (INR (steps - 1))))))
             (seq 0 steps) 0 i).
  rewrite seq_nth by exact Hi. simpl Nat.add.
  unfold Scalar.sub. simpl Scalar.neg. simpl Scalar.add at 2.
  unfold Scalar.div.
  pose proof (INR_pred_nonzero Hn) as Hnz. apply is_zero_false in Hnz.
  fold steps in Hnz. rewrite Hnz. reflexivity.
Qed.

Lemma linspace_finite (a b : R) (n : nat) :
  Forall (fun e => Scalar.isfinite e = true)
    (Tensor.linspace (Fin a) (Fin b) n).
Proof.
  destruct n as [| [| n]].
  - constructor.
  - repeat constructor.
  - apply Forall_forall. intros e He.
    apply (In_nth _ _ NaN) in He. destruct He as (i & Hi & <-).
    rewrite linspace_length in Hi.
    rewrite linspace_nth by lia. reflexivity.
Qed.

Lemma numel_split (k : nat) (sizes : list nat) :
  k < length sizes ->
  Tensor.numel sizes =
    Tensor.numel (firstn k sizes)
    * (nth k sizes 0 * Tensor.numel (skipn (S k) sizes)).
Proof.
  revert sizes. induction k as [| k IH]; intros [| s sizes] Hk;
    simpl in Hk; try lia.
  - simpl. lia.
  - change (skipn (S (S k)) (s :: sizes)) with (skipn (S k) sizes).
    change (nth (S k) (s :: sizes) 0) with (nth k sizes 0).
    change (firstn (S k) (s :: sizes)) with (s :: firstn k sizes).
    change (Tensor.numel (s :: sizes)) with (s * Tensor.numel sizes).
    change (Tensor.numel (s :: firstn k sizes))
      with (s * Tensor.numel (firstn k sizes)).
    rewrite (IH sizes) at 1 by lia. ring.
Qed.

Lemma meshgrid_component_length (sizes : list nat) (k : nat)
    (axis : list scalar) :
  k < length sizes -> length axis = nth k sizes 0 ->
  length (Tensor.meshgrid_component sizes k axis) = Tensor.numel sizes.
Proof.
  intros Hk Hlen. unfold Tensor.meshgrid_component.
  rewrite (length_concat_const
             (n := length axis * Tensor.numel (skipn (S k) sizes))).
  - rewrite repeat_length, (numel_split sizes Hk), Hlen. reflexivity.
  - apply Forall_forall. intros c Hc. apply repeat_spec in Hc. subst c.
    apply flat_map_constant_length. intros x _. apply repeat_length.
Qed.

Lemma meshgrid_component_in (sizes : list nat) (k : nat)
    (axis : list scalar) (e : scalar) :
  In e (Tensor.meshgrid_component sizes k axis) -> In e axis.
Proof.
  unfold Tensor.meshgrid_component. intros H.
  apply in_concat in H. destruct H as (c & Hc & He).
  apply repeat_spec in Hc. subst c.
  apply in_flat_map in He. destruct He as (a & Ha & He).
  apply repeat_spec in He. now subst e.
Qed.

Lemma combine_seq_nth {A : Type} (l : list A) (s k : nat) (a : A) :
  In (k, a) (combine (seq s (length l)) l) ->
  s <= k < s + length l /\ nth_error l (k - s) = Some a.
Proof.
  revert s. induction l as [| x l IH]; intros s H; simpl in H;
    [contradiction |].
  destruct H as [H | H].
  - inversion H; subst. simpl. rewrite Nat.sub_diag. split; [lia |].
    reflexivity.
  - apply IH in H. destruct H as [Hk Hn]. simpl. split; [lia |].
    replace (k - s) with (S (k - S s)) by lia. exact Hn.
Qed.

(** [torch.stack(torch.meshgrid(axes))] for at least one axis. *)
Lemma stack_meshgrid (axes : list (list scalar)) :
  axes <> [] ->
  let d := concat (List.map Tensor.data (Tensor.meshgrid axes)) in
  Tensor.stack (Tensor.meshgrid axes) =
    Ok (Tensor.mk (length axes :: List.map (@length scalar) axes) d)
  /\ length d =
       length axes * Tensor.numel (List.map (@length scalar) axes)
  /\ forall e, In e d -> exists axis, In axis axes /\ In e axis.
Proof.
  intros Hne. unfold Tensor.meshgrid.
  set (sizes := List.map (@length scalar) axes).
  set (comps := List.map _ (combine (seq 0 (length axes)) axes)).
  assert (Hlen : length comps = length axes).
  { unfold comps. rewrite length_map, length_combine, length_seq.
    apply Nat.min_id. }
  assert (Hshape : Forall (fun y => Tensor.shape y = sizes) comps).
  { unfold comps. apply Forall_forall. intros y Hy.
    apply in_map_iff in Hy. destruct Hy as (p & <- & _). reflexivity. }
  assert (Hdata : Forall (fun c => length c = Tensor.numel sizes)
                    (List.map Tensor.data comps)).
  { unfold comps. rewrite map_map. apply Forall_forall. intros c Hc.
    apply in_map_iff in Hc. destruct Hc as ([k axis] & <- & Hin).
    apply combine_seq_nth in Hin. destruct Hin as [Hk Hn]. simpl.
    rewrite Nat.sub_0_r in Hn.
    apply meshgrid_component_length.
    - unfold sizes. rewrite length_map. lia.
    - unfold sizes. symmetry. apply nth_error_nth.
      rewrite nth_error_map, Hn. reflexivity. }
  split; [| split].
  - unfold Tensor.stack. destruct comps as [| x xs] eqn:Hcomps.
    + destruct axes; [congruence | discriminate].
    + rewrite <- Hlen.
      assert (Hx : Tensor.shape x = sizes) by now inversion Hshape.
      rewrite Hx.
      replace (forallb _ (x :: xs)) with true; [reflexivity |].
      symmetry. apply forallb_forall. intros y Hy.
      rewrite Forall_forall in Hshape. rewrite (Hshape y Hy).
      destruct (list_eq_dec Nat.eq_dec sizes sizes); congruence.
  - rewrite (length_concat_const Hdata), length_map, Hlen. reflexivity.
  - intros e He. apply in_concat in He. destruct He as (c & Hc & He).
    apply in_map_iff in Hc. destruct Hc as (y & <- & Hy).
    unfold comps in Hy. apply in_map_iff in Hy.
    destruct Hy as ([k axis] & <- & Hin). simpl in He.
    exists axis. split.
    + apply in_combine_r in Hin. exact Hin.
    + eapply meshgrid_component_in. exact He.
Qed.

Section Integration.

Context {ext : Externals}.
Variable m : model.

Lemma axis_coordinates_sizes :
  length (downsampled_grid_size m) = length (grid_size m) ->
  List.map (@length scalar) (DVAE.axis_coordinates m)
    = downsampled_grid_size m.
Proof.
  unfold DVAE.axis_coordinates.
  generalize (grid_size m), (downsampled_grid_size m).
  intros gs. induction gs as [| g gs IH]; intros [| d dgs] Hlen;
    simpl in Hlen; try discriminate; [reflexivity |].
  simpl. rewrite linspace_length. f_equal. apply IH. lia.
Qed.

Lemma axis_coordinates_finite (axis : list scalar) :
  In axis (DVAE.axis_coordinates m) ->
  Forall (fun e => Scalar.isfinite e = true) axis.
Proof.
  unfold DVAE.axis_coordinates. intros H.
  apply in_map_iff in H. destruct H as (p & <- & _).
  apply linspace_finite.
Qed.

(** What [base_grid] returns whenever it returns. *)
Lemma base_grid_shape (bts : nat) (g : tensor) :
  DVAE.base_grid m bts = Ok g ->
  Tensor.shape g
    = bts * 1 :: length (grid_size m) :: downsampled_grid_size m
  /\ Tensor.wf g.
Proof.
  unfold DVAE.base_grid. intros H.
  apply bind_ok_inv in H. destruct H as (g1 & _ & H).
  apply bind_ok_inv in H. destruct H as (g2 & Hview & H).
  unfold Tensor.view in Hview.
  destruct (Nat.eqb_spec
              (Tensor.numel ([1; length (grid_size m)]
                             ++ downsampled_grid_size m))
              (length (Tensor.data g1))) as [Hn |]; [| discriminate].
  inversion Hview; subst g2. unfold Tensor.repeat0 in H. simpl in H.
  inversion H; subst g. split; [reflexivity |].
  unfold Tensor.wf. simpl Tensor.data. simpl Tensor.shape.
  rewrite (length_concat_const (n := length (Tensor.data g1))).
  - rewrite repeat_length, <- Hn. simpl. lia.
  - apply Forall_forall. intros c Hc. apply repeat_spec in Hc.
    now subst c.
Qed.

(** For a grid of at least one axis the base grid is built and finite. *)
Lemma base_grid_ok (bts : nat) :
  length (downsampled_grid_size m) = length (grid_size m) ->
  grid_size m <> [] ->
  exists g,
    DVAE.base_grid m bts = Ok g
    /\ Tensor.shape g
         = bts * 1 :: length (grid_size m) :: downsampled_grid_size m
    /\ Tensor.wf g
    /\ Tensor.all_finite g
    /\ Tensor.data g =
         concat (repeat (concat (List.map Tensor.data
                                   (Tensor.meshgrid (DVAE.axis_coordinates m))))
                   bts).
Proof.
  intros Hlen Hne.
  assert (Haxes : length (DVAE.axis_coordinates m) = length (grid_size m)).
  { rewrite <- (length_map (@length scalar)), axis_coordinates_sizes
      by exact Hlen. exact Hlen. }
  assert (Hne' : DVAE.axis_coordinates m <> []).
  { intros H0. rewrite H0 in Haxes. simpl in Haxes.
    destruct (grid_size m); [congruence | discriminate]. }
  destruct (stack_meshgrid Hne') as (Hstack & Hd & Hin).
  set (d := concat (List.map Tensor.data
                      (Tensor.meshgrid (DVAE.axis_coordinates m)))) in *.
  rewrite axis_coordinates_sizes in Hstack, Hd by exact Hlen.
  rewrite Haxes in Hstack, Hd.
  assert (Hgrid : DVAE.base_grid m bts =
            Ok (Tensor.mk (bts * 1 :: length (grid_size m)
                             :: downsampled_grid_size m)
                  (concat (repeat d bts)))).
  { unfold DVAE.base_grid. rewrite Hstack. cbn [bind].
    unfold Tensor.view. simpl Tensor.data.
    replace (Tensor.numel ([1; length (grid_size m)]
                           ++ downsampled_grid_size m) =? length d)
      with true.
    - reflexivity.
    - symmetry. apply Nat.eqb_eq. rewrite Hd. simpl. lia. }
  eexists. split; [exact Hgrid |].
  split; [reflexivity |].
  split; [exact (proj2 (base_grid_shape _ Hgrid)) |].
  split; [| reflexivity].
  unfold Tensor.all_finite. simpl. apply Forall_forall. intros e He.
  apply in_concat in He. destruct He as (c & Hc & He).
  apply repeat_spec in Hc. subst c.
  destruct (Hin e He) as (axis & Haxis & Hea).
  pose proof (axis_coordinates_finite _ Haxis) as Hfin.
  rewrite Forall_forall in Hfin. now apply Hfin.
Qed.

Lemma zeros_wf (sh : list nat) : Tensor.wf (Tensor.zeros sh).
Proof.
  unfold Tensor.wf, Tensor.zeros, Tensor.full. simpl.
  apply repeat_length.
Qed.

Lemma add_zeros (g : tensor) :
  Tensor.wf g -> Tensor.add g (Tensor.zeros (Tensor.shape g)) = Ok g.
Proof.
  intros Hwf. unfold Tensor.add.
  rewrite binop_same; [| exact Hwf | apply zeros_wf | reflexivity].
  unfold Tensor.zeros, Tensor.full. simpl Tensor.data.
  rewrite <- Hwf, map2_repeat_r.
  rewrite (map_ext _ (fun a => a)) by apply add_zero_r.
  now rewrite map_id, tensor_eta.
Qed.

Lemma iadd_zeros (g : tensor) :
  Tensor.wf g -> Tensor.iadd g (Tensor.zeros (Tensor.shape g)) = Ok g.
Proof.
  intros Hwf.
  rewrite iadd_same; [| apply zeros_wf | reflexivity].
  unfold Tensor.zeros, Tensor.full. simpl Tensor.data.
  rewrite <- Hwf, map2_repeat_r.
  rewrite (map_ext _ (fun a => a)) by apply add_zero_r.
  now rewrite map_id, tensor_eta.
Qed.

Lemma sub_self (g : tensor) :
  Tensor.wf g -> Tensor.all_finite g ->
  Tensor.sub g g = Ok (Tensor.zeros (Tensor.shape g)).
Proof.
  intros Hwf Hfin. unfold Tensor.sub.
  rewrite binop_same; [| exact Hwf | exact Hwf | reflexivity].
  unfold Tensor.zeros, Tensor.full. do 2 f_equal.
  rewrite map2_diag, <- Hwf.
  unfold Tensor.all_finite in Hfin.
  induction Hfin as [| e l He _ IH]; simpl; [reflexivity |].
  now rewrite (sub_diag_finite _ He), IH.
Qed.

Lemma map_zeros (f : scalar -> scalar) (sh : list nat) :
  f Scalar.zero = Scalar.zero ->
  Tensor.map f (Tensor.zeros sh) = Tensor.zeros sh.
Proof.
  intros Hf. unfold Tensor.map, Tensor.zeros, Tensor.full. simpl.
  f_equal. rewrite map_repeat. now rewrite Hf.
Qed.

(** With a zero displacement every pass of the loop leaves [x] alone. *)
Lemma integration_steps_fixed (n : nat) (g : tensor) (d : R) :
  Tensor.wf g -> Tensor.all_finite g -> dt m = Fin d ->
  (forall sh x k,
      batched_vector_interpolation_adaptive (Tensor.zeros sh) x k
      = Tensor.zeros sh) ->
  DVAE.integration_steps m n g g = Ok g.
Proof.
  intros Hwf Hfin Hdt Hinterp.
  induction n as [| n IH]; simpl; [reflexivity |].
  rewrite (sub_self Hwf Hfin). cbn [bind].
  rewrite Hinterp, Hdt. unfold Tensor.scalar_mul.
  rewrite map_zeros by apply mul_fin_zero.
  rewrite (iadd_zeros Hwf). cbn [bind].
  unfold Tensor.has_nan. rewrite (finite_not_nan Hfin).
  cbn [negb assert bind]. exact IH.
Qed.

Lemma float_pow2_ok (e : Z) :
  (0 <= e <= 1023)%Z ->
  float_pow2 e = Ok (Fin (IZR (2 ^ e))) /\ IZR (2 ^ e) <> 0%R.
Proof.
  intros He. unfold float_pow2.
  replace (0 <=? e)%Z with true by (symmetry; apply Z.leb_le; lia).
  assert (Hpos : (0 < 2 ^ e)%Z) by (apply Z.pow_pos_nonneg; lia).
  assert (Hle : (2 ^ e <= 2 ^ 1023)%Z) by (apply Z.pow_le_mono_r; lia).
  assert (Hlt : (2 ^ 1023 < double_range)%Z) by reflexivity.
  split.
  - apply float_of_int_ok. rewrite Z.abs_eq by lia. lia.
  - intros H0. apply (eq_IZR _ 0) in H0. lia.
Qed.

Lemma float_pow2_overflow (e : Z) :
  (1024 <= e)%Z -> float_pow2 e = Raise OverflowError.
Proof.
  intros He. unfold float_pow2.
  replace (0 <=? e)%Z with true by (symmetry; apply Z.leb_le; lia).
  assert (Hle : (2 ^ 1024 <= 2 ^ e)%Z) by (apply Z.pow_le_mono_r; lia).
  assert (Hlt : (double_range < 2 ^ 1024)%Z) by reflexivity.
  apply float_of_int_overflow. rewrite Z.abs_eq by lia. lia.
Qed.

(** The integrator on a zero field over a grid that can be built. *)
Lemma integration_of_zeros (bts : nat) (g : tensor) (d : R) :
  DVAE.base_grid m bts = Ok g ->
  Tensor.all_finite g -> dt m = Fin d ->
  (0 <= self_number_of_time_points m <= 1023)%Z ->
  (forall sh x k,
      batched_vector_interpolation_adaptive (Tensor.zeros sh) x k
      = Tensor.zeros sh) ->
  DVAE.vector_field_integration m
    (Tensor.zeros (bts :: length (grid_size m) :: downsampled_grid_size m))
  = Ok g.
Proof.
  intros Hg Hfin Hdt Hntp Hinterp.
  destruct (base_grid_shape _ Hg) as [Hshape Hwf].
  rewrite Nat.mul_1_r in Hshape.
  unfold DVAE.vector_field_integration.
  unfold Tensor.size at 1. simpl nth_error. cbn [bind].
  rewrite Hg. cbn [bind].
  destruct (float_pow2_ok Hntp) as [-> Hnz]. cbn [bind].
  unfold Tensor.div_scalar.
  rewrite map_zeros by now apply div_zero_fin.
  rewrite <- Hshape, (add_zeros Hwf). cbn [bind].
  now apply integration_steps_fixed with (d := d).
Qed.

End Integration.

(** ** Claims about the integrator *)

(** C1 (amended).  For every constructed model with
    [2 <= number_of_time_points <= 1023] and every batch size, if the
    vector interpolator returns zero on a zero displacement field, then
    [vector_field_integration] applied to the all-zeros velocity field
    returns the base grid it builds (the identity sampling grid), in both
    classes. *)
Theorem zero_velocity_returns_base_grid {ext : Externals} (di : data_info)
    (ld : Z) (stats : list tensor) (kw : kwargs) (m : model) (bts : nat) :
  DVAE.__init__ di ld stats kw = Ok m
  \/ DRVAE.__init__ di ld stats kw = Ok m ->
  (2 <= number_of_time_points kw <= 1023)%Z ->
  (forall sh x k,
      batched_vector_interpolation_adaptive (Tensor.zeros sh) x k
      = Tensor.zeros sh) ->
  exists grid,
    DVAE.base_grid m bts = Ok grid
    /\ DRVAE.base_grid m bts = Ok grid
    /\ DVAE.vector_field_integration m
         (Tensor.zeros
            (bts :: length (grid_size m) :: downsampled_grid_size m))
       = Ok grid
    /\ DRVAE.vector_field_integration m
         (Tensor.zeros
            (bts :: length (grid_size m) :: downsampled_grid_size m))
       = Ok grid.
Proof.
  intros H Hntp Hinterp.
  assert (Hm : DVAE.__init__ di ld stats kw = Ok m)
    by (destruct H as [H | H]; [exact H | now rewrite <- DRVAE_init_eq]).
  destruct (init_fields _ _ _ _ Hm)
    as (s & rest & _ & Hdim & _ & _ & _ & _ & Hdgs & Hn & Hdt & _).
  destruct (base_grid_ok m bts) as (g & Hg & _ & _ & Hfin & _).
  - rewrite Hdgs. apply length_map.
  - intros H0. rewrite H0 in Hdim. simpl in Hdim. lia.
  - exists g.
    assert (Hv : DVAE.vector_field_integration m
                   (Tensor.zeros
                      (bts :: length (grid_size m)
                           :: downsampled_grid_size m)) = Ok g).
    { apply integration_of_zeros with (d := (1 / IZR (number_of_time_points kw - 1))%R);
        try assumption. rewrite Hn. lia. }
    repeat split; assumption.
Qed.

Lemma zero_velocity_returns_base_grid_witness :
  exists m grid,
    DVAE.__init__ (ext := sample_externals) tt 4
      (sample_statistics [4; 4]) (sample_kwargs 1 5 false) = Ok m
    /\ DVAE.vector_field_integration (ext := sample_externals) m
         (Tensor.zeros [3; 2; 2; 2]) = Ok grid
    /\ DVAE.base_grid m 3 = Ok grid.
Proof.
  destruct (init_ok (ext := sample_externals) tt 4
              (Tensor.full [1; 4; 4] (Fin (1 / 2))) []
              (sample_kwargs 1 5 false) (c := 1))
    as (m & Hm & Hgs & _ & Hdgs & _);
    [reflexivity | left; reflexivity | right; left; reflexivity
    | reflexivity | discriminate |].
  destruct (zero_velocity_returns_base_grid (ext := sample_externals) tt 4
              (sample_statistics [4; 4]) (sample_kwargs 1 5 false) 3
              (or_introl Hm))
    as (grid & Hg & _ & Hv & _).
  - simpl. lia.
  - reflexivity.
  - exists m, grid. rewrite Hgs, Hdgs in Hv. simpl in Hv.
    change (Z.to_nat (2 ^ 1)) with 2 in Hv.
    repeat split; assumption.
Defined.

(** C1 fails as stated: with [number_of_time_points = 1024], a value
    [>= 2], the conversion [float(2 ** ntp)] raises [OverflowError] before
    any grid is returned, for a zero field and an interpolator that is zero
    on zero displacements. *)
Lemma zero_velocity_overflow_at_1024 :
  exists m,
    DVAE.__init__ (ext := sample_externals) tt 4
      (sample_statistics [4; 4]) (sample_kwargs 1 1024 false) = Ok m
    /\ DRVAE.__init__ (ext := sample_externals) tt 4
         (sample_statistics [4; 4]) (sample_kwargs 1 1024 false) = Ok m
    /\ (2 <= 1024)%Z
    /\ (forall sh x k,
          batched_vector_interpolation_adaptive (Externals := sample_externals)
            (Tensor.zeros sh) x k = Tensor.zeros sh)
    /\ DVAE.vector_field_integration (ext := sample_externals) m
         (Tensor.zeros [3; 2; 2; 2]) = Raise OverflowError
    /\ DRVAE.vector_field_integration (ext := sample_externals) m
         (Tensor.zeros [3; 2; 2; 2]) = Raise OverflowError.
Proof.
  destruct (init_ok (ext := sample_externals) tt 4
              (Tensor.full [1; 4; 4] (Fin (1 / 2))) []
              (sample_kwargs 1 1024 false) (c := 1))
    as (m & Hm & Hgs & _ & Hdgs & Hn & _);
    [reflexivity | left; reflexivity | right; left; reflexivity
    | reflexivity | discriminate |].
  exists m. split; [exact Hm |]. split; [exact Hm |].
  split; [lia |]. split; [reflexivity |].
  assert (Hv : DVAE.vector_field_integration (ext := sample_externals) m
                 (Tensor.zeros [3; 2; 2; 2]) = Raise OverflowError).
  { destruct (base_grid_ok m 3)
      as (g & Hg & _).
    - rewrite Hdgs, Hgs. reflexivity.
    - rewrite Hgs. discriminate.
    - unfold DVAE.vector_field_integration.
      unfold Tensor.size at 1. simpl nth_error. cbn [bind].
      rewrite Hg. cbn [bind]. rewrite Hn.
      rewrite float_pow2_overflow by (simpl; lia). reflexivity. }
  split; exact Hv.
Qed.

(** ** The coordinates held by the base grid *)

Lemma nth_error_combine {A B : Type} (l1 : list A) (l2 : list B) (k : nat)
    (a : A) (b : B) :
  nth_error l1 k = Some a -> nth_error l2 k = Some b ->
  nth_error (combine l1 l2) k = Some (a, b).
Proof.
  revert l2 k. induction l1 as [| x l1 IH]; intros [| y l2] [| k] Ha Hb;
    simpl in *; try discriminate.
  - now inversion Ha; inversion Hb.
  - now apply IH.
Qed.

Lemma nth_error_seq (s n k : nat) :
  k < n -> nth_error (seq s n) k = Some (s + k).
Proof.
  revert s k. induction n as [| n IH]; intros s [| k] Hk; simpl; try lia.
  - f_equal. lia.
  - rewrite IH by lia. f_equal. lia.
Qed.

Lemma numel_parts_nonzero (sh : list nat) (k : nat) :
  Forall (fun s => s <> 0) sh ->
  Tensor.numel (firstn k sh) <> 0 /\ Tensor.numel (skipn k sh) <> 0.
Proof.
  intros H. revert k. induction H as [| s sh Hs _ IH]; intros [| k];
    simpl; try (split; lia).
  - split; [lia |]. destruct (IH 0) as [_ H0]. simpl in H0. nia.
  - destruct (IH k) as [H1 H2]. split; [nia | exact H2].
Qed.

Lemma meshgrid_component_contains (sizes : list nat) (k : nat)
    (axis : list scalar) (e : scalar) :
  Forall (fun s => s <> 0) sizes -> In e axis ->
  In e (Tensor.meshgrid_component sizes k axis).
Proof.
  intros Hpos He. unfold Tensor.meshgrid_component.
  destruct (numel_parts_nonzero k Hpos) as [Ho _].
  destruct (numel_parts_nonzero (S k) Hpos) as [_ Hi].
  apply in_concat.
  exists (flat_map (fun a => repeat a (Tensor.numel (skipn (S k) sizes)))
            axis).
  split.
  - destruct (Tensor.numel (firstn k sizes)); [congruence |]. now left.
  - apply in_flat_map. exists e. split; [exact He |].
    destruct (Tensor.numel (skipn (S k) sizes)); [congruence |]. now left.
Qed.

Lemma not_integer_5_2 : ~ Scalar.is_integer (Fin (5 / 2)).
Proof.
  intros [z Hz]. inversion Hz as [Hr].
  assert (H5 : IZR (2 * z) = IZR 5) by (rewrite mult_IZR; lra).
  apply eq_IZR in H5. lia.
Qed.

Section GridCoordinates.

Variable m : model.

Lemma axis_coordinates_nth (k g d : nat) :
  nth_error (grid_size m) k = Some g ->
  nth_error (downsampled_grid_size m) k = Some d ->
  nth_error (DVAE.axis_coordinates m) k
    = Some (Tensor.linspace (Fin 0) (Fin (INR g - 1)) d).
Proof.
  intros Hg Hd. unfold DVAE.axis_coordinates.
  rewrite nth_error_map, (nth_error_combine _ _ _ Hg Hd). reflexivity.
Qed.

(** Every coordinate of an axis occurs in a non-empty base grid. *)
Lemma base_grid_contains_axis (bts k : nat) (axis : list scalar)
    (grid : tensor) (e : scalar) :
  length (downsampled_grid_size m) = length (grid_size m) ->
  Forall (fun s => s <> 0) (downsampled_grid_size m) ->
  bts <> 0 ->
  nth_error (DVAE.axis_coordinates m) k = Some axis ->
  DVAE.base_grid m bts = Ok grid ->
  In e axis -> In e (Tensor.data grid).
Proof.
  intros Hlen Hpos Hbts Haxis Hgrid He.
  assert (Hne : grid_size m <> []).
  { intros H0. unfold DVAE.axis_coordinates in Haxis.
    rewrite H0 in Haxis. simpl in Haxis. destruct k; discriminate. }
  destruct (base_grid_ok m bts Hlen Hne) as (g & Hg & _ & _ & _ & Hdata).
  rewrite Hgrid in Hg. inversion Hg; subst g. rewrite Hdata.
  apply in_concat. eexists. split.
  - destruct bts; [congruence |]. now left.
  - apply in_concat.
    exists (Tensor.meshgrid_component
              (List.map (@length scalar) (DVAE.axis_coordinates m)) k axis).
    split.
    + unfold Tensor.meshgrid. rewrite map_map. apply in_map_iff.
      exists (k, axis). split; [reflexivity |].
      apply (nth_error_In _ k). apply nth_error_combine; [| exact Haxis].
      rewrite nth_error_seq; [reflexivity |].
      apply nth_error_Some. congruence.
    + apply meshgrid_component_contains; [| exact He].
      now rewrite axis_coordinates_sizes.
Qed.

End GridCoordinates.

(** C9 (amended).  In every constructed model the base grid holds, along
    axis [k] with grid size [g] and downsampled size [d], the coordinates
    [linspace(0, g - 1, d)]: [d] evenly spaced values, the [i]-th being
    [i * (g - 1) / (d - 1)], from 0 up to [g - 1] (the single value 0 when
    [d = 1]).  Every element of the base grid is such a coordinate.  With
    downsampling factor 1 the coordinates are the integers [0 .. g - 1]. *)
Theorem base_grid_axis_coordinates {ext : Externals} (di : data_info)
    (ld : Z) (stats : list tensor) (kw : kwargs) (m : model) (k g d : nat) :
  DVAE.__init__ di ld stats kw = Ok m
  \/ DRVAE.__init__ di ld stats kw = Ok m ->
  nth_error (grid_size m) k = Some g ->
  nth_error (downsampled_grid_size m) k = Some d ->
  exists axis,
    nth_error (DVAE.axis_coordinates m) k = Some axis
    /\ nth_error (DRVAE.axis_coordinates m) k = Some axis
    /\ length axis = d
    /\ (d = 1 -> axis = [Fin 0])
    /\ (2 <= d ->
        nth 0 axis NaN = Fin 0
        /\ nth (d - 1) axis NaN = Fin (INR g - 1)
        /\ forall i, i < d ->
             nth i axis NaN = Fin (INR i * ((INR g - 1) / INR (d - 1))))
    /\ (self_downsampling_grid m = 1 ->
        forall i, i < d ->
          nth i axis NaN = Fin (INR i)
          /\ Scalar.is_integer (nth i axis NaN))
    /\ (forall bts grid,
          DVAE.base_grid m bts = Ok grid ->
          DRVAE.base_grid m bts = Ok grid
          /\ (forall e, In e (Tensor.data grid) ->
                exists axis', In axis' (DVAE.axis_coordinates m)
                              /\ In e axis')
          /\ (bts <> 0 ->
              Forall (fun s => s <> 0) (downsampled_grid_size m) ->
              forall e, In e axis -> In e (Tensor.data grid))).
Proof.
  intros H Hg Hd.
  assert (Hm : DVAE.__init__ di ld stats kw = Ok m)
    by (destruct H as [H | H]; [exact H | now rewrite <- DRVAE_init_eq]).
  destruct (init_fields _ _ _ _ Hm)
    as (s & rest & _ & Hdim & _ & _ & _ & _ & Hdgs & _).
  assert (Hlen : length (downsampled_grid_size m) = length (grid_size m))
    by (rewrite Hdgs; apply length_map).
  assert (Hne : grid_size m <> [])
    by (intros H0; rewrite H0 in Hdim; simpl in Hdim; lia).
  pose proof (axis_coordinates_nth m k Hg Hd) as Haxis.
  assert (Hnth : forall i, 2 <= d -> i < d ->
            nth i (Tensor.linspace (Fin 0) (Fin (INR g - 1)) d) NaN
            = Fin (INR i * ((INR g - 1) / INR (d - 1)))).
  { intros i H2 Hi. rewrite linspace_nth by assumption.
    f_equal. unfold Rdiv. ring. }
  exists (Tensor.linspace (Fin 0) (Fin (INR g - 1)) d).
  split; [exact Haxis |]. split; [exact Haxis |].
  split; [apply linspace_length |].
  split; [intros ->; reflexivity |].
  split; [| split].
  - intros H2. split; [| split].
    + rewrite Hnth by lia. f_equal. simpl. ring.
    + rewrite Hnth by lia. f_equal. field. now apply INR_pred_nonzero.
    + intros i Hi. now apply Hnth.
  - intros Hf i Hi.
    assert (Hdg : d = g).
    { rewrite Hdgs, nth_error_map, Hg in Hd. cbn [option_map] in Hd.
      rewrite Hf, Nat.div_1_r in Hd. now inversion Hd. }
    assert (Hval : nth i (Tensor.linspace (Fin 0) (Fin (INR g - 1)) d) NaN
                   = Fin (INR i)).
    { destruct (Nat.le_gt_cases 2 d) as [H2 | H1].
      - rewrite Hnth by assumption. f_equal. subst d.
        rewrite minus_INR by lia. simpl (INR 1).
        assert (Hnz : (INR g - 1)%R <> 0%R).
        { pose proof (INR_pred_nonzero H2) as Hp.
          rewrite minus_INR in Hp by lia. exact Hp. }
        field. exact Hnz.
      - assert (Hg1 : g = 1) by lia. assert (Hi0 : i = 0) by lia.
        rewrite Hdg, Hg1, Hi0. reflexivity. }
    split; [exact Hval |].
    rewrite Hval. exists (Z.of_nat i). now rewrite <- INR_IZR_INZ.
  - intros bts grid Hgrid. split; [exact Hgrid |]. split.
    + intros e He.
      destruct (base_grid_ok m bts Hlen Hne) as (g' & Hg' & _ & _ & _ & Hdata).
      rewrite Hgrid in Hg'. inversion Hg'; subst g'.
      rewrite Hdata in He. apply in_concat in He.
      destruct He as (c & Hc & He). apply repeat_spec in Hc. subst c.
      assert (Hne' : DVAE.axis_coordinates m <> []).
      { intros H0. rewrite H0 in Haxis. destruct k; discriminate. }
      destruct (stack_meshgrid Hne') as (_ & _ & Hin). now apply Hin.
    + intros Hbts Hpos e He.
      now apply (@base_grid_contains_axis m bts k _ grid e Hlen Hpos Hbts
                   Haxis Hgrid).
Qed.

Lemma base_grid_axis_coordinates_witness :
  exists m axis,
    DVAE.__init__ (ext := sample_externals) tt 4
      (sample_statistics [4; 4]) (sample_kwargs 0 5 false) = Ok m
    /\ nth_error (DVAE.axis_coordinates m) 0 = Some axis
    /\ length axis = 4.
Proof.
  destruct (init_ok (ext := sample_externals) tt 4
              (Tensor.full [1; 4; 4] (Fin (1 / 2))) []
              (sample_kwargs 0 5 false) (c := 1))
    as (m & Hm & Hgs & _ & Hdgs & _);
    [reflexivity | left; reflexivity | left; reflexivity
    | reflexivity | discriminate |].
  destruct (base_grid_axis_coordinates (ext := sample_externals) tt 4
              (sample_statistics [4; 4]) (sample_kwargs 0 5 false)
              0 (g := 4) (d := 4) (or_introl Hm))
    as (axis & Haxis & _ & Hlen & _).
  - rewrite Hgs. reflexivity.
  - rewrite Hdgs. reflexivity.
  - exists m, axis. repeat split; assumption.
Defined.

(** C9 fails as stated: for a 6 x 6 atlas and downsampling factor 2 the
    base grid of both classes contains the coordinate 5/2, which is not an
    integer (each axis holds 0, 5/2 and 5). *)
Lemma base_grid_has_fractional_coordinate :
  exists m grid,
    DVAE.__init__ (ext := sample_externals) tt 4
      (sample_statistics [6; 6]) (sample_kwargs 1 5 false) = Ok m
    /\ DRVAE.__init__ (ext := sample_externals) tt 4
         (sample_statistics [6; 6]) (sample_kwargs 1 5 false) = Ok m
    /\ self_downsampling_grid m = 2
    /\ DVAE.base_grid m 1 = Ok grid
    /\ DRVAE.base_grid m 1 = Ok grid
    /\ nth_error (DVAE.axis_coordinates m) 0
       = Some (Tensor.linspace (Fin 0) (Fin (INR 6 - 1)) 3)
    /\ nth 1 (Tensor.linspace (Fin 0) (Fin (INR 6 - 1)) 3) NaN = Fin (5 / 2)
    /\ In (Fin (5 / 2)) (Tensor.data grid)
    /\ ~ Scalar.is_integer (Fin (5 / 2)).
Proof.
  destruct (init_ok (ext := sample_externals) tt 4
              (Tensor.full [1; 6; 6] (Fin (1 / 2))) []
              (sample_kwargs 1 5 false) (c := 1))
    as (m & Hm & Hgs & Hf & Hdgs & _);
    [reflexivity | left; reflexivity | right; left; reflexivity
    | reflexivity | discriminate |].
  simpl in Hgs, Hf, Hdgs. change (Z.to_nat (2 ^ 1)) with 2 in Hf, Hdgs.
  change (6 / 2) with 3 in Hdgs.
  assert (Hlen : length (downsampled_grid_size m) = length (grid_size m))
    by (rewrite Hgs, Hdgs; reflexivity).
  assert (Hne : grid_size m <> []) by (rewrite Hgs; discriminate).
  destruct (base_grid_ok m 1 Hlen Hne) as (grid & Hgrid & _).
  assert (Haxis : nth_error (DVAE.axis_coordinates m) 0
                  = Some (Tensor.linspace (Fin 0) (Fin (INR 6 - 1)) 3))
    by (apply axis_coordinates_nth; [rewrite Hgs | rewrite Hdgs];
        reflexivity).
  assert (Hval : nth 1 (Tensor.linspace (Fin 0) (Fin (INR 6 - 1)) 3) NaN
                 = Fin (5 / 2)).
  { rewrite linspace_nth by lia. f_equal. simpl. field. }
  exists m, grid. repeat split; try assumption.
  - apply (@base_grid_contains_axis m 1 0
             (Tensor.linspace (Fin 0) (Fin (INR 6 - 1)) 3)
             grid (Fin (5 / 2)) Hlen);
      try assumption.
    + rewrite Hdgs. repeat constructor; discriminate.
    + discriminate.
    + rewrite <- Hval. apply nth_In. rewrite linspace_length. lia.
  - apply not_integer_5_2.
Qed.

(** ** NaN in the velocity field *)

Lemma map2_add_nan_l (l1 l2 : list scalar) :
  length l1 = length l2 -> existsb Scalar.isnan l1 = true ->
  existsb Scalar.isnan (Tensor.map2 Scalar.add l1 l2) = true.
Proof.
  revert l2. induction l1 as [| a l1 IH]; intros [| b l2] Hlen H;
    simpl in Hlen, H; try discriminate.
  rewrite map2_cons. simpl. apply orb_true_iff in H.
  apply orb_true_iff. destruct H as [H | H].
  - left. apply isnan_true in H. subst a. reflexivity.
  - right. apply IH; [lia | exact H].
Qed.

Lemma map2_add_nan_r (l1 l2 : list scalar) :
  length l1 = length l2 -> existsb Scalar.isnan l2 = true ->
  existsb Scalar.isnan (Tensor.map2 Scalar.add l1 l2) = true.
Proof.
  revert l2. induction l1 as [| a l1 IH]; intros [| b l2] Hlen H;
    simpl in Hlen, H; try discriminate.
  rewrite map2_cons. simpl. apply orb_true_iff in H.
  apply orb_true_iff. destruct H as [H | H].
  - left. apply isnan_true in H. subst b. now rewrite nan_add_r.
  - right. apply IH; [lia | exact H].
Qed.

Lemma map_div_nan (c : scalar) (l : list scalar) :
  existsb Scalar.isnan l = true ->
  existsb Scalar.isnan (List.map (fun e => Scalar.div e c) l) = true.
Proof.
  induction l as [| a l IH]; simpl; intros H; [discriminate |].
  apply orb_true_iff in H. apply orb_true_iff. destruct H as [H | H].
  - left. apply isnan_true in H. now subst a.
  - right. now apply IH.
Qed.

Lemma map_wf (f : scalar -> scalar) (x : tensor) :
  Tensor.wf x -> Tensor.wf (Tensor.map f x).
Proof.
  unfold Tensor.wf, Tensor.map. simpl. now rewrite length_map.
Qed.

Lemma binop_same_wf (f : scalar -> scalar -> scalar) (x y : tensor) :
  Tensor.wf x -> Tensor.wf y -> Tensor.shape y = Tensor.shape x ->
  Tensor.wf (Tensor.mk (Tensor.shape x)
               (Tensor.map2 f (Tensor.data x) (Tensor.data y))).
Proof.
  intros Hx Hy Hsh. unfold Tensor.wf in *. simpl.
  rewrite length_map2, Hx, Hy, Hsh. apply Nat.min_id.
Qed.

Section NanPropagation.

Context {ext : Externals}.
Variable m : model.

Hypothesis interp_wf :
  forall d x k, Tensor.wf d -> Tensor.wf x ->
                Tensor.wf (batched_vector_interpolation_adaptive d x k).

(** One pass of the loop on a state that holds a NaN never gets past the
    assertion. *)
Lemma integration_steps_nan (n : nat) (g x : tensor) :
  Tensor.wf g -> Tensor.wf x -> Tensor.shape g = Tensor.shape x ->
  Tensor.has_nan x = true ->
  DVAE.integration_steps m (S n) g x = Raise RuntimeError
  \/ DVAE.integration_steps m (S n) g x =
       Raise (AssertionError "NaN detected in grid during integration step").
Proof.
  intros Hg Hx Hsh Hnan. simpl.
  unfold Tensor.sub. rewrite (binop_same _ Hx Hg Hsh). cbn [bind].
  set (d := Tensor.mk _ _).
  assert (Hd : Tensor.wf d) by now apply binop_same_wf.
  set (y := Tensor.scalar_mul _ _).
  assert (Hy : Tensor.wf y)
    by (apply map_wf; now apply interp_wf).
  unfold Tensor.iadd.
  destruct (Tensor.expand y (Tensor.shape x)) as [y' | e] eqn:He.
  - right. cbn [bind].
    destruct (expand_wf _ Hy He) as [Hsh' Hwf'].
    unfold Tensor.has_nan at 1. simpl Tensor.data.
    rewrite map2_add_nan_l; [reflexivity | | exact Hnan].
    unfold Tensor.wf in Hx, Hwf'. now rewrite Hx, Hwf', Hsh'.
  - left. unfold Tensor.expand in He.
    destruct (Tensor.expand_data _ _ _); [discriminate |].
    inversion He. reflexivity.
Qed.

(** The state after the first line of the integrator holds the NaN. *)
Lemma initial_step_nan (g v : tensor) (c : scalar) :
  Tensor.wf g -> Tensor.wf v -> Tensor.shape v = Tensor.shape g ->
  Tensor.has_nan v = true ->
  exists x,
    Tensor.add g (Tensor.div_scalar v c) = Ok x
    /\ Tensor.wf x /\ Tensor.shape x = Tensor.shape g
    /\ Tensor.has_nan x = true.
Proof.
  intros Hg Hv Hsh Hnan. unfold Tensor.add.
  assert (Hv' : Tensor.wf (Tensor.div_scalar v c)) by now apply map_wf.
  rewrite (binop_same _ Hg Hv' Hsh).
  eexists. split; [reflexivity |].
  split; [now apply binop_same_wf |]. split; [reflexivity |].
  unfold Tensor.has_nan. simpl.
  apply map2_add_nan_r.
  - rewrite length_map. unfold Tensor.wf in Hg, Hv.
    now rewrite Hg, Hv, Hsh.
  - now apply map_div_nan.
Qed.

Lemma integration_of_nan (v : tensor) (bts : nat) :
  Tensor.wf v ->
  Tensor.shape v
    = bts :: length (grid_size m) :: downsampled_grid_size m ->
  Tensor.has_nan v = true ->
  (1 <= self_number_of_time_points m)%Z ->
  raises (DVAE.vector_field_integration m v)
  /\ (forall g c,
        DVAE.base_grid m bts = Ok g ->
        float_pow2 (self_number_of_time_points m) = Ok c ->
        DVAE.vector_field_integration m v = Raise RuntimeError
        \/ DVAE.vector_field_integration m v =
             Raise (AssertionError
                      "NaN detected in grid during integration step")).
Proof.
  intros Hv Hsh Hnan Hntp.
  assert (Hmain : forall g c,
    DVAE.base_grid m bts = Ok g ->
    float_pow2 (self_number_of_time_points m) = Ok c ->
    DVAE.vector_field_integration m v = Raise RuntimeError
    \/ DVAE.vector_field_integration m v =
         Raise (AssertionError
                  "NaN detected in grid during integration step")).
  { intros g c Hg Hc.
    destruct (base_grid_shape _ _ Hg) as [Hgs Hgwf].
    rewrite Nat.mul_1_r in Hgs.
    assert (Hvg : Tensor.shape v = Tensor.shape g) by congruence.
    destruct (initial_step_nan c Hgwf Hv Hvg Hnan)
      as (x & Hx & Hxwf & Hxs & Hxnan).
    unfold DVAE.vector_field_integration.
    unfold Tensor.size. rewrite Hsh. simpl nth_error. cbn [bind].
    rewrite Hg. cbn [bind]. rewrite Hc. cbn [bind].
    rewrite Hx. cbn [bind].
    destruct (Z.to_nat (self_number_of_time_points m)) as [| n] eqn:Hn;
      [lia |].
    apply integration_steps_nan; try assumption. now symmetry. }
  split; [| exact Hmain].
  destruct (DVAE.base_grid m bts) as [g | e] eqn:Hg.
  - destruct (float_pow2 (self_number_of_time_points m)) as [c | e] eqn:Hc.
    + destruct (Hmain g c eq_refl eq_refl) as [H | H];
        eexists; exact H.
    + exists e. unfold DVAE.vector_field_integration.
      unfold Tensor.size. rewrite Hsh. simpl nth_error. cbn [bind].
      rewrite Hg. cbn [bind]. rewrite Hc. reflexivity.
  - exists e. unfold DVAE.vector_field_integration.
    unfold Tensor.size. rewrite Hsh. simpl nth_error. cbn [bind].
    rewrite Hg. reflexivity.
Qed.

End NanPropagation.

(** ** The duplicated methods *)

Section Duplicates.

Context {ext : Externals}.
Variable m : model.

Lemma DRVAE_base_grid_eq (bts : nat) :
  DRVAE.base_grid m bts = DVAE.base_grid m bts.
Proof. reflexivity. Qed.

Lemma DRVAE_vector_field_integration_eq (v : tensor) :
  DRVAE.vector_field_integration m v = DVAE.vector_field_integration m v.
Proof. reflexivity. Qed.

Lemma DRVAE_apply_diffeomorphism_eq (source diffeomorphism : tensor) :
  DRVAE.apply_diffeomorphism source diffeomorphism
  = DVAE.apply_diffeomorphism source diffeomorphism.
Proof. reflexivity. Qed.

Lemma DRVAE_velocity_field_eq (z_psi z : tensor) :
  DRVAE.velocity_field m z_psi z = DVAE.velocity_field m z_psi z.
Proof. reflexivity. Qed.

Lemma DRVAE_decode_s_eq (z_psi z : tensor) :
  DRVAE.decode_s m z_psi z = DVAE.decode_s m z_psi z.
Proof. reflexivity. Qed.

Lemma DRVAE_absolute_decode_eq (z : tensor) :
  DRVAE.absolute_decode m z = DVAE.absolute_decode m z.
Proof. reflexivity. Qed.

Lemma DRVAE_decode_eq (z : tensor) :
  DRVAE.decode m z = DVAE.decode m z.
Proof. reflexivity. Qed.

(** [decode_s] stops at its assertion when the field holds a NaN. *)
Lemma decode_s_nan (z_psi z_s v : tensor) :
  DVAE.velocity_field m z_psi z_s = Ok v ->
  Tensor.has_nan v = true ->
  DVAE.decode_s m z_psi z_s = Raise (AssertionError "NaN detected v").
Proof.
  intros Hv Hnan. unfold DVAE.decode_s. rewrite Hv. cbn [bind].
  rewrite Hnan. reflexivity.
Qed.

Lemma decode_nan (z z_psi z_s v : tensor) :
  Tensor.split_last z (latent_dimension_psi m) (latent_dimension_s m)
    = Ok (z_psi, z_s) ->
  DVAE.velocity_field m z_psi z_s = Ok v ->
  Tensor.has_nan v = true ->
  DVAE.decode m z = Raise (AssertionError "NaN detected v").
Proof.
  intros Hsplit Hv Hnan. unfold DVAE.decode, DVAE.absolute_decode.
  rewrite Hsplit. cbn [bind]. rewrite (decode_s_nan _ _ Hv Hnan).
  reflexivity.
Qed.

End Duplicates.

(** C7.  A well-formed velocity field of the model's field shape that holds
    a NaN never comes back from [vector_field_integration] when
    [number_of_time_points >= 1]: the call raises, in both classes, and
    once the grid is built and [float(2 ** ntp)] is computed the exception
    is the assertion "NaN detected in grid during integration step" (or the
    shape error of [x += ...] if the interpolator returns another shape).
    In the decode pipeline such a field is stopped before integration by
    the assertion "NaN detected v" of [decode_s], which also aborts
    [decode]. *)
Theorem nan_velocity_aborts {ext : Externals} (m : model) (v : tensor)
    (bts : nat) :
  Tensor.wf v ->
  Tensor.shape v = bts :: length (grid_size m) :: downsampled_grid_size m ->
  Tensor.has_nan v = true ->
  (1 <= self_number_of_time_points m)%Z ->
  (forall d x k, Tensor.wf d -> Tensor.wf x ->
                 Tensor.wf (batched_vector_interpolation_adaptive d x k)) ->
  raises (DVAE.vector_field_integration m v)
  /\ raises (DRVAE.vector_field_integration m v)
  /\ (forall g c,
        DVAE.base_grid m bts = Ok g ->
        float_pow2 (self_number_of_time_points m) = Ok c ->
        DVAE.vector_field_integration m v = Raise RuntimeError
        \/ DVAE.vector_field_integration m v =
             Raise (AssertionError
                      "NaN detected in grid during integration step"))
  /\ (forall z z_psi z_s,
        Tensor.split_last z (latent_dimension_psi m) (latent_dimension_s m)
          = Ok (z_psi, z_s) ->
        DVAE.velocity_field m z_psi z_s = Ok v ->
        DVAE.decode_s m z_psi z_s = Raise (AssertionError "NaN detected v")
        /\ DVAE.decode m z = Raise (AssertionError "NaN detected v")
        /\ DRVAE.decode_s m z_psi z_s
           = Raise (AssertionError "NaN detected v")
        /\ DRVAE.decode m z = Raise (AssertionError "NaN detected v")).
Proof.
  intros Hwf Hsh Hnan Hntp Hinterp.
  destruct (integration_of_nan m Hinterp Hwf Hsh Hnan Hntp)
    as [Hraise Hexact].
  split; [exact Hraise |]. split; [exact Hraise |].
  split; [exact Hexact |].
  intros z z_psi z_s Hsplit Hv.
  pose proof (decode_s_nan m _ _ Hv Hnan) as Hs.
  pose proof (decode_nan m _ Hsplit Hv Hnan) as Hd.
  repeat split; assumption.
Qed.

Lemma nan_velocity_aborts_witness :
  exists m,
    DVAE.__init__ (ext := sample_externals) tt 4
      (sample_statistics [4; 4]) (sample_kwargs 1 5 false) = Ok m
    /\ raises (DVAE.vector_field_integration (ext := sample_externals) m
                 (Tensor.full [1; 2; 2; 2] NaN)).
Proof.
  destruct (init_ok (ext := sample_externals) tt 4
              (Tensor.full [1; 4; 4] (Fin (1 / 2))) []
              (sample_kwargs 1 5 false) (c := 1))
    as (m & Hm & Hgs & _ & Hdgs & Hn & _);
    [reflexivity | left; reflexivity | right; left; reflexivity
    | reflexivity | discriminate |].
  exists m. split; [exact Hm |].
  apply (nan_velocity_aborts (ext := sample_externals) m
           (v := Tensor.full [1; 2; 2; 2] NaN) (bts := 1)).
  - reflexivity.
  - rewrite Hgs, Hdgs. reflexivity.
  - reflexivity.
  - rewrite Hn. simpl. lia.
  - intros d x k Hd _. exact Hd.
Defined.

(** ** Sums over the rows of a batch *)

Lemma chunks_singletons {A : Type} (row : list A) :
  Tensor.chunks (length row) 1 row = List.map (fun e => [e]) row.
Proof.
  induction row as [| a row IH]; simpl; [reflexivity |]. now rewrite IH.
Qed.

Lemma col_sums_one (row : list scalar) :
  Tensor.col_sums (length row) 1 row = [Tensor.rowsum row].
Proof.
  unfold Tensor.col_sums. rewrite chunks_singletons.
  change (repeat Scalar.zero 1) with [Scalar.zero].
  induction row as [| a row IH]; simpl; [reflexivity |].
  rewrite IH. reflexivity.
Qed.

Lemma concat_map_singleton {A B : Type} (f : A -> B) (l : list A) :
  concat (List.map (fun a => [f a]) l) = List.map f l.
Proof.
  induction l as [| a l IH]; simpl; [reflexivity |]. now rewrite IH.
Qed.

Lemma sum_dims_rows (x : tensor) (b nd : nat) (rest : list nat) :
  Tensor.wf x -> Tensor.shape x = b :: rest -> length rest = nd ->
  Tensor.sum_dims x nd
  = Ok (Tensor.mk [b] (List.map Tensor.rowsum (Tensor.rows x))).
Proof.
  intros Hwf Hsh Hnd. unfold Tensor.sum_dims, Tensor.rows. rewrite Hsh.
  replace (nd <=? length rest) with true
    by (symmetry; apply Nat.leb_le; lia).
  rewrite <- Hnd, firstn_all, skipn_all. simpl Tensor.numel at 2 3.
  rewrite Nat.mul_1_r. do 2 f_equal.
  assert (Hall : Forall (fun c => length c = Tensor.numel rest)
                   (Tensor.chunks b (Tensor.numel rest) (Tensor.data x))).
  { apply chunks_each. unfold Tensor.wf in Hwf. rewrite Hwf, Hsh.
    simpl. lia. }
  rewrite (map_ext_in (Tensor.col_sums (Tensor.numel rest) 1)
             (fun c => [Tensor.rowsum c])).
  - apply concat_map_singleton.
  - intros c Hc. rewrite Forall_forall in Hall.
    rewrite <- (Hall c Hc). apply col_sums_one.
Qed.

Lemma rows_length (x : tensor) (b : nat) (rest : list nat) :
  Tensor.shape x = b :: rest -> length (Tensor.rows x) = b.
Proof.
  intros Hsh. unfold Tensor.rows. rewrite Hsh. apply chunks_length.
Qed.

Lemma rows_each (x : tensor) (b : nat) (rest : list nat) :
  Tensor.wf x -> Tensor.shape x = b :: rest ->
  Forall (fun c => length c = Tensor.numel rest) (Tensor.rows x).
Proof.
  intros Hwf Hsh. unfold Tensor.rows. rewrite Hsh.
  apply chunks_each. unfold Tensor.wf in Hwf. rewrite Hwf, Hsh.
  simpl. lia.
Qed.

Lemma nth_error_map2 {A B C : Type} (f : A -> B -> C) (l1 : list A)
    (l2 : list B) (k : nat) (a : A) (b : B) :
  nth_error l1 k = Some a -> nth_error l2 k = Some b ->
  nth_error (Tensor.map2 f l1 l2) k = Some (f a b).
Proof.
  intros Ha Hb. unfold Tensor.map2.
  rewrite nth_error_map, (nth_error_combine _ _ _ Ha Hb). reflexivity.
Qed.

Lemma firstn_map2 {A B C : Type} (f : A -> B -> C) (n : nat)
    (l1 : list A) (l2 : list B) :
  firstn n (Tensor.map2 f l1 l2)
  = Tensor.map2 f (firstn n l1) (firstn n l2).
Proof.
  revert l1 l2. induction n as [| n IH]; intros [| a l1] [| b l2];
    try reflexivity.
  rewrite map2_cons. cbn [firstn]. rewrite map2_cons. now rewrite IH.
Qed.

Lemma skipn_map2 {A B C : Type} (f : A -> B -> C) (n : nat)
    (l1 : list A) (l2 : list B) :
  length l1 = length l2 ->
  skipn n (Tensor.map2 f l1 l2)
  = Tensor.map2 f (skipn n l1) (skipn n l2).
Proof.
  revert l1 l2. induction n as [| n IH]; intros [| a l1] [| b l2] Hlen;
    try reflexivity; try discriminate.
  rewrite map2_cons. cbn [skipn]. apply IH. simpl in Hlen. lia.
Qed.

Lemma chunks_map2 {A B C : Type} (f : A -> B -> C) (k n : nat)
    (l1 : list A) (l2 : list B) :
  length l1 = length l2 ->
  Tensor.chunks k n (Tensor.map2 f l1 l2)
  = Tensor.map2 (Tensor.map2 f) (Tensor.chunks k n l1)
      (Tensor.chunks k n l2).
Proof.
  revert l1 l2. induction k as [| k IH]; intros l1 l2 Hlen; simpl;
    [reflexivity |].
  rewrite map2_cons, firstn_map2, skipn_map2 by exact Hlen.
  rewrite IH; [reflexivity |]. rewrite !length_skipn. lia.
Qed.

Lemma concat_repeat_repeat {A : Type} (e : A) (n k : nat) :
  concat (repeat (repeat e k) n) = repeat e (n * k).
Proof.
  induction n as [| n IH]; simpl; [reflexivity |].
  now rewrite IH, repeat_app.
Qed.

Lemma expand_data_ones {A : Type} (rest : list nat) (e : A) :
  Tensor.expand_data (repeat 1 (length rest)) rest [e]
  = Some (repeat e (Tensor.numel rest)).
Proof.
  induction rest as [| n rest IH]; [reflexivity |].
  cbn [length repeat Tensor.expand_data].
  destruct (Nat.eqb_spec 1 n) as [<- | Hne].
  - rewrite numel_ones.
    change (Tensor.chunks 1 1 [e]) with [[e]].
    cbn [Tensor.mapM]. rewrite IH. cbn [option_map concat].
    rewrite app_nil_r. f_equal. f_equal. simpl. lia.
  - change (1 =? 1) with true. cbn iota. rewrite IH. cbn [option_map].
    now rewrite concat_repeat_repeat.
Qed.

Lemma mapM_map_some {A B C : Type} (f : B -> option C) (g : A -> B)
    (h : A -> C) (l : list A) :
  (forall a, f (g a) = Some (h a)) ->
  Tensor.mapM f (List.map g l) = Some (List.map h l).
Proof.
  intros H. induction l as [| a l IH]; simpl; [reflexivity |].
  now rewrite H, IH.
Qed.

(** ** The isometry normaliser *)

Lemma map2_fuse {A B C D E F : Type} (g : D -> E -> F) (h : A -> D)
    (k : C -> E) (f : A -> B -> C) (l1 : list A) (l2 : list B) :
  Tensor.map2 g (List.map h l1) (List.map k (Tensor.map2 f l1 l2))
  = Tensor.map2 (fun a b => g (h a) (k (f a b))) l1 l2.
Proof.
  revert l2. induction l1 as [| a l1 IH]; intros [| b l2];
    try reflexivity.
  rewrite map2_cons. cbn [List.map]. rewrite !map2_cons. now rewrite IH.
Qed.

Lemma chunks_in {A : Type} (k n : nat) (d c : list A) (e : A) :
  In c (Tensor.chunks k n d) -> In e c -> In e d.
Proof.
  revert d. induction k as [| k IH]; intros d Hc He; simpl in Hc;
    [contradiction |].
  destruct Hc as [<- | Hc].
  - rewrite <- (firstn_skipn n d). apply in_or_app. now left.
  - rewrite <- (firstn_skipn n d). apply in_or_app. right.
    now apply (IH (skipn n d)).
Qed.

Lemma rows_finite (x : tensor) (row : list scalar) (k : nat) :
  Tensor.all_finite x -> nth_error (Tensor.rows x) k = Some row ->
  Forall (fun e => Scalar.isfinite e = true) row.
Proof.
  intros Hfin Hrow. apply nth_error_In in Hrow.
  unfold Tensor.rows in Hrow. destruct (Tensor.shape x) as [| b rest];
    [contradiction |].
  apply Forall_forall. intros e He.
  unfold Tensor.all_finite in Hfin. rewrite Forall_forall in Hfin.
  apply Hfin. eapply chunks_in; eassumption.
Qed.

(** The sum of products of a row pair, before and after both rows are
    multiplied by one finite factor. *)
Lemma rowsum_scaled (s : R) (rv rm : list scalar) :
  Forall (fun e => Scalar.isfinite e = true) rv ->
  Forall (fun e => Scalar.isfinite e = true) rm ->
  exists E,
    Tensor.rowsum (Tensor.map2 Scalar.mul rv rm) = Fin E
    /\ Tensor.rowsum
         (Tensor.map2 Scalar.mul
            (List.map (fun x => Scalar.mul x (Fin s)) rv)
            (List.map (fun x => Scalar.mul x (Fin s)) rm))
       = Fin (s * s * E).
Proof.
  intros Hv. revert rm. induction Hv as [| a rv Ha _ IH]; intros rm Hm.
  - exists 0%R. split; [reflexivity |]. simpl. unfold Scalar.zero.
    f_equal. ring.
  - destruct Hm as [| c rm Hc Hm].
    + exists 0%R. split; [reflexivity |]. simpl. unfold Scalar.zero.
      f_equal. ring.
    + destruct (IH rm Hm) as (E & HE & HsE).
      destruct a as [| | a]; try discriminate.
      destruct c as [| | c]; try discriminate.
      exists (a * c + E)%R. cbn [List.map]. rewrite !map2_cons.
      unfold Tensor.rowsum in *. cbn [fold_right].
      rewrite HE, HsE. simpl. split; [reflexivity |]. f_equal. ring.
Qed.

(** A finite sum of squares is not negative. *)
Lemma rowsum_squares_nonneg (row : list scalar) (L : R) :
  Tensor.rowsum (List.map (fun e => Scalar.mul e e) row) = Fin L ->
  (0 <= L)%R.
Proof.
  revert L. induction row as [| e row IH]; intros L H.
  - inversion H. lra.
  - unfold Tensor.rowsum in *. cbn [List.map fold_right] in H.
    destruct (fold_right Scalar.add Scalar.zero
                (List.map (fun e => Scalar.mul e e) row)) as [| s | r];
      destruct e as [| s' | x]; simpl in H; try discriminate.
    + destruct (Bool.eqb (xorb s' s') s); discriminate.
    + inversion H. pose proof (IH r eq_refl). nra.
Qed.

Lemma view_rows_ok (z rows : tensor) (bts : nat) :
  Tensor.view_rows z bts = Ok rows ->
  length (Tensor.data z) = bts * (length (Tensor.data z) / bts)
  /\ rows = Tensor.mk [bts; length (Tensor.data z) / bts] (Tensor.data z).
Proof.
  unfold Tensor.view_rows. destruct bts as [| n]; [discriminate |].
  destruct (Nat.eqb_spec (length (Tensor.data z) mod S n) 0) as [Hmod |];
    [| discriminate].
  intros H. inversion H. split; [| reflexivity].
  apply Nat.Div0.div_exact. exact Hmod.
Qed.

Lemma chunks_map_nth {A B : Type} (f : A -> B) (k n i : nat) (d : list A)
    (row : list B) :
  nth_error (Tensor.chunks k n (List.map f d)) i = Some row ->
  exists row', row = List.map f row'.
Proof.
  revert i d. induction k as [| k IH]; intros i d Hrow; simpl in Hrow.
  - destruct i; discriminate.
  - destruct i as [| i].
    + simpl in Hrow. inversion Hrow. rewrite firstn_map.
      eexists. reflexivity.
    + simpl in Hrow. rewrite skipn_map in Hrow. now apply (IH i (skipn n d)).
Qed.

Lemma latent_norm_squared_spec (bts : nat) (z lns : tensor) :
  DVAE.latent_norm_squared bts z = Ok lns ->
  Tensor.shape lns = [bts] /\ Tensor.wf lns
  /\ forall k L, nth_error (Tensor.data lns) k = Some (Fin L) ->
                 (0 <= L)%R.
Proof.
  unfold DVAE.latent_norm_squared. intros H.
  apply bind_ok_inv in H. destruct H as (rows & Hrows & H).
  apply view_rows_ok in Hrows. destruct Hrows as [Hlen ->].
  remember (length (Tensor.data z) / bts) as w eqn:Hw.
  rewrite (@sum_dims_rows _ bts 1 [w]) in H.
  - inversion H; subst lns. clear H. split; [reflexivity |]. split.
    + unfold Tensor.wf. cbn [Tensor.data Tensor.shape].
      rewrite length_map, (@rows_length _ bts [w]) by reflexivity.
      simpl. lia.
    + intros k L Hk. cbn [Tensor.data] in Hk.
      rewrite nth_error_map in Hk.
      destruct (nth_error _ k) as [row |] eqn:Hrow; [| discriminate].
      cbn [option_map] in Hk. inversion Hk as [HL]. clear Hk.
      change (Tensor.rows (Tensor.square (Tensor.mk [bts; w] (Tensor.data z))))
        with (Tensor.chunks bts (Tensor.numel [w])
                (List.map (fun e => Scalar.mul e e) (Tensor.data z)))
        in Hrow.
      apply chunks_map_nth in Hrow. destruct Hrow as (row' & ->).
      now apply (rowsum_squares_nonneg row').
  - unfold Tensor.wf, Tensor.square, Tensor.map.
    cbn [Tensor.data Tensor.shape].
    rewrite length_map. simpl. lia.
  - reflexivity.
  - reflexivity.
Qed.

Section Normaliser.

Variable m : model.

Lemma normalizer_spec (lns vns : tensor) :
  Tensor.wf lns -> Tensor.wf vns ->
  Tensor.shape vns = Tensor.shape lns ->
  DVAE.normalizer m lns vns
  = Ok (Tensor.mk (Tensor.shape lns)
          (Tensor.map2
             (fun l e => if Scalar.gt l (self_tol m)
                         then Scalar.sqrt (Scalar.div l e) else Fin 0)
             (Tensor.data lns) (Tensor.data vns))).
Proof.
  intros Hl Hv Hsh. unfold DVAE.normalizer, Tensor.div.
  rewrite (binop_same _ Hl Hv Hsh). cbn [bind].
  unfold Tensor.where_const, Tensor.map. simpl Tensor.shape.
  rewrite broadcast_shapes_same, pad_same.
  rewrite expand_data_same by (rewrite length_map; exact Hl).
  set (q := Tensor.mk _ (List.map Scalar.sqrt _)).
  assert (Hq : Tensor.wf q).
  { unfold Tensor.wf, q. simpl. rewrite length_map, length_map2.
    unfold Tensor.wf in Hl, Hv. rewrite Hl, Hv, Hsh. apply Nat.min_id. }
  change (Tensor.shape lns) with (Tensor.shape q) at 1.
  rewrite (expand_same Hq). cbn [bind]. unfold q. simpl Tensor.data.
  now rewrite map2_fuse.
Qed.

Lemma rescale_spec (lns nrm x : tensor) (b : nat) (rest tl : list nat) :
  Tensor.shape lns = b :: tl ->
  length (Tensor.data nrm) = b ->
  Tensor.wf x -> Tensor.shape x = b :: rest ->
  length rest = length (grid_size m) + 1 ->
  exists x',
    DVAE.rescale m lns nrm x = Ok x'
    /\ Tensor.shape x' = b :: rest /\ Tensor.wf x'
    /\ forall k row e,
         nth_error (Tensor.rows x) k = Some row ->
         nth_error (Tensor.data nrm) k = Some e ->
         nth_error (Tensor.rows x') k
         = Some (List.map (fun xi => Scalar.mul xi e) row).
Proof.
  intros Hlns Hnrm Hwf Hsh Hrest.
  set (R := Tensor.numel rest).
  set (ex := concat (List.map (fun e => repeat e R) (Tensor.data nrm))).
  assert (Heach : Forall (fun c => length c = R)
                    (List.map (fun e : scalar => repeat e R)
                       (Tensor.data nrm))).
  { apply Forall_forall. intros c Hc. apply in_map_iff in Hc.
    destruct Hc as (e & <- & _). apply repeat_length. }
  assert (Hexlen : length ex = b * R).
  { unfold ex. rewrite (length_concat_const Heach), length_map.
    now rewrite Hnrm. }
  assert (Hexp : Tensor.expand
                   (Tensor.mk (b :: repeat 1 (length (grid_size m) + 1))
                      (Tensor.data nrm)) (b :: rest)
                 = Ok (Tensor.mk (b :: rest) ex)).
  { unfold Tensor.expand. simpl Tensor.shape. simpl Tensor.data.
    unfold Tensor.pad. simpl length. rewrite repeat_length, Hrest.
    rewrite Nat.sub_diag. simpl app. rewrite <- Hrest.
    cbn [Tensor.expand_data]. rewrite Nat.eqb_refl.
    rewrite numel_ones, <- Hnrm, chunks_singletons.
    rewrite (mapM_map_some _ _ (fun e => repeat e R)).
    - reflexivity.
    - intros e. apply expand_data_ones. }
  assert (Hres : DVAE.rescale m lns nrm x
                 = Ok (Tensor.mk (b :: rest)
                         (Tensor.map2 Scalar.mul (Tensor.data x) ex))).
  { unfold DVAE.rescale, Tensor.size. rewrite Hlns. simpl nth_error.
    cbn [bind]. unfold Tensor.view.
    replace (Tensor.numel (b :: repeat 1 (length (grid_size m) + 1))
             =? length (Tensor.data nrm)) with true.
    2:{ symmetry. apply Nat.eqb_eq. simpl. rewrite numel_ones. lia. }
    cbn [bind]. rewrite Hsh, Hexp. cbn [bind]. unfold Tensor.mul.
    rewrite binop_same.
    - now rewrite Hsh.
    - exact Hwf.
    - unfold Tensor.wf. simpl. exact Hexlen.
    - simpl. now rewrite Hsh. }
  eexists. split; [exact Hres |]. split; [reflexivity |].
  assert (Hxlen : length (Tensor.data x) = b * R)
    by (unfold Tensor.wf in Hwf; rewrite Hwf, Hsh; reflexivity).
  split.
  - unfold Tensor.wf. simpl Tensor.data. simpl Tensor.shape.
    rewrite length_map2, Hxlen, Hexlen, Nat.min_id. reflexivity.
  - intros k row e Hrow He.
    unfold Tensor.rows. cbn [Tensor.shape Tensor.data]. cbn iota.
    fold R. rewrite chunks_map2 by now rewrite Hxlen, Hexlen.
    unfold ex.
    replace b with (length (List.map (fun e : scalar => repeat e R)
                              (Tensor.data nrm))) at 2
      by (rewrite length_map; exact Hnrm).
    rewrite (chunks_concat Heach).
    unfold Tensor.rows in Hrow. rewrite Hsh in Hrow. fold R in Hrow.
    rewrite (nth_error_map2 _ _ _ _ Hrow
               (map_nth_error (fun e => repeat e R) _ _ He)).
    f_equal.
    assert (Hrl : length row = R).
    { pose proof (rows_each Hwf Hsh) as Hall.
      rewrite Forall_forall in Hall. apply Hall.
      unfold Tensor.rows. rewrite Hsh. fold R.
      eapply nth_error_In. exact Hrow. }
    rewrite <- Hrl. apply map2_repeat_r.
Qed.

Lemma v_norm_squared_spec (v w : tensor) (b : nat) (rest : list nat) :
  Tensor.wf v -> Tensor.wf w ->
  Tensor.shape v = b :: rest -> Tensor.shape w = b :: rest ->
  length rest = length (grid_size m) + 1 ->
  exists vns,
    DVAE.v_norm_squared m v w = Ok vns
    /\ Tensor.shape vns = [b] /\ Tensor.wf vns
    /\ forall k rv rw,
         nth_error (Tensor.rows v) k = Some rv ->
         nth_error (Tensor.rows w) k = Some rw ->
         nth_error (Tensor.data vns) k
         = Some (Tensor.rowsum (Tensor.map2 Scalar.mul rv rw)).
Proof.
  intros Hv Hw Hsv Hsw Hrest.
  assert (Hvlen : length (Tensor.data v) = b * Tensor.numel rest)
    by (unfold Tensor.wf in Hv; rewrite Hv, Hsv; reflexivity).
  assert (Hwlen : length (Tensor.data w) = b * Tensor.numel rest)
    by (unfold Tensor.wf in Hw; rewrite Hw, Hsw; reflexivity).
  unfold DVAE.v_norm_squared, Tensor.mul.
  rewrite binop_same; [| exact Hv | exact Hw | congruence].
  cbn [bind].
  set (p := Tensor.mk _ _).
  assert (Hp : Tensor.wf p).
  { apply binop_same_wf; [exact Hv | exact Hw | congruence]. }
  rewrite (@sum_dims_rows p b _ rest Hp); [| exact Hsv | exact Hrest].
  eexists. split; [reflexivity |]. split; [reflexivity |]. split.
  - unfold Tensor.wf. simpl. rewrite length_map.
    rewrite (@rows_length p b rest) by exact Hsv. lia.
  - intros k rv rw Hrv Hrw. simpl Tensor.data.
    unfold Tensor.rows, p. simpl Tensor.shape. simpl Tensor.data.
    rewrite Hsv. rewrite chunks_map2 by now rewrite Hvlen, Hwlen.
    unfold Tensor.rows in Hrv, Hrw. rewrite Hsv in Hrv.
    rewrite Hsw in Hrw.
    apply map_nth_error. now apply nth_error_map2.
Qed.

End Normaliser.

Section VelocityField.

Context {ext : Externals}.
Variable m : model.

(** With the isometry constraint on, [velocity_field] is the smoothed
    field rescaled by the normaliser. *)
Lemma velocity_field_isometry (z_psi z zs lns vns nrm : tensor)
    (bts : nat) :
  self_isometry_constraint m = true ->
  Tensor.size z 0 = Ok bts ->
  Tensor.cat_last z_psi z = Ok zs ->
  DVAE.latent_norm_squared bts z = Ok lns ->
  DVAE.v_norm_squared m
    (batched_vector_smoothing (decoder_s m zs)
       (self_deformation_kernel_width m) false)
    (decoder_s m zs) = Ok vns ->
  DVAE.normalizer m lns vns = Ok nrm ->
  DVAE.velocity_field m z_psi z
  = DVAE.rescale m lns nrm
      (batched_vector_smoothing (decoder_s m zs)
         (self_deformation_kernel_width m) false).
Proof.
  intros Hiso Hbts Hcat Hlns Hvns Hnrm. unfold DVAE.velocity_field.
  rewrite Hbts. cbn [bind]. rewrite Hcat. cbn [bind].
  rewrite Hlns. cbn [bind]. rewrite Hiso, Hvns. cbn [bind].
  rewrite Hnrm. reflexivity.
Qed.

End VelocityField.

Lemma sqrt_ratio (L E : R) :
  (0 <= L)%R -> (0 < E)%R ->
  Scalar.sqrt (Scalar.div (Fin L) (Fin E)) = Fin (sqrt (L / E))
  /\ (sqrt (L / E) * sqrt (L / E) * E = L)%R.
Proof.
  intros HL HE.
  assert (Hq : (0 <= L / E)%R).
  { unfold Rdiv. apply Rmult_le_pos; [exact HL |].
    left. now apply Rinv_0_lt_compat. }
  split.
  - unfold Scalar.div.
    replace (Scalar.is_zero E) with false
      by (symmetry; apply is_zero_false; lra).
    unfold Scalar.sqrt.
    replace (Scalar.is_neg (L / E)) with false
      by (symmetry; now apply is_neg_false).
    reflexivity.
  - rewrite sqrt_sqrt by exact Hq. field. lra.
Qed.

(** ** Claims about the isometry normaliser *)

(** C8.  Wherever the latent norm [L] exceeds the tolerance (and is
    positive) while the field energy [E] is zero or negative, the
    normaliser returns [sqrt(L / E)] unguarded: the call does not raise and
    the scale factor is not finite, [+inf] for [E = 0] and NaN for
    [E < 0].  With the isometry constraint on, [velocity_field] rescales
    the field by exactly this tensor. *)
Theorem normalizer_unguarded {ext : Externals} (m : model)
    (lns vns : tensor) (b : nat) (L E : R) :
  Tensor.wf lns -> Tensor.wf vns ->
  Tensor.shape vns = Tensor.shape lns ->
  nth_error (Tensor.data lns) b = Some (Fin L) ->
  nth_error (Tensor.data vns) b = Some (Fin E) ->
  Scalar.gt (Fin L) (self_tol m) = true ->
  (0 < L)%R -> (E <= 0)%R ->
  exists nrm s,
    DVAE.normalizer m lns vns = Ok nrm
    /\ DRVAE.normalizer m lns vns = Ok nrm
    /\ nth_error (Tensor.data nrm) b = Some s
    /\ Scalar.isfinite s = false
    /\ (E = 0%R -> s = Inf false)
    /\ ((E < 0)%R -> s = NaN)
    /\ (forall z_psi z zs bts,
          self_isometry_constraint m = true ->
          Tensor.size z 0 = Ok bts ->
          Tensor.cat_last z_psi z = Ok zs ->
          DVAE.latent_norm_squared bts z = Ok lns ->
          DVAE.v_norm_squared m
            (batched_vector_smoothing (decoder_s m zs)
               (self_deformation_kernel_width m) false)
            (decoder_s m zs) = Ok vns ->
          DVAE.velocity_field m z_psi z
          = DVAE.rescale m lns nrm
              (batched_vector_smoothing (decoder_s m zs)
                 (self_deformation_kernel_width m) false)).
Proof.
  intros Hl Hv Hsh HL HE Hgt Lpos Ele.
  pose proof (normalizer_spec m Hl Hv Hsh) as Hn.
  eexists. exists (Scalar.sqrt (Scalar.div (Fin L) (Fin E))).
  split; [exact Hn |]. split; [exact Hn |]. split.
  { cbn [Tensor.data]. rewrite (nth_error_map2 _ _ _ _ HL HE).
    now rewrite Hgt. }
  assert (Hcases :
    (E = 0%R -> Scalar.sqrt (Scalar.div (Fin L) (Fin E)) = Inf false)
    /\ ((E < 0)%R -> Scalar.sqrt (Scalar.div (Fin L) (Fin E)) = NaN)).
  { split.
    - intros ->. unfold Scalar.div.
      replace (Scalar.is_zero 0) with true
        by (symmetry; now apply is_zero_true).
      replace (Scalar.is_zero L) with false
        by (symmetry; apply is_zero_false; lra).
      replace (Scalar.is_neg L) with false
        by (symmetry; apply is_neg_false; lra).
      reflexivity.
    - intros Hneg. unfold Scalar.div.
      replace (Scalar.is_zero E) with false
        by (symmetry; apply is_zero_false; lra).
      unfold Scalar.sqrt.
      replace (Scalar.is_neg (L / E)) with true; [reflexivity |].
      symmetry. apply is_neg_true.
      assert (Hinv : (/ E < 0)%R) by (apply Rinv_lt_0_compat; lra).
      unfold Rdiv. nra. }
  destruct Hcases as [Hzero Hneg].
  split; [| split; [exact Hzero | split; [exact Hneg |]]].
  - destruct (Rle_lt_or_eq_dec _ _ Ele) as [Hlt | Heq].
    + now rewrite (Hneg Hlt).
    + now rewrite (Hzero Heq).
  - intros z_psi z zs bts Hiso Hbts Hcat Hlns Hvns.
    now apply velocity_field_isometry with (vns := vns) (bts := bts).
Qed.

Lemma normalizer_unguarded_witness :
  exists nrm,
    DVAE.normalizer (sample_model [2; 2] 0 5 true)
      (Tensor.mk [1] [Fin 1]) (Tensor.mk [1] [Fin 0]) = Ok nrm
    /\ nth_error (Tensor.data nrm) 0 = Some (Inf false).
Proof.
  destruct (normalizer_unguarded (ext := sample_externals)
              (sample_model [2; 2] 0 5 true)
              (lns := Tensor.mk [1] [Fin 1]) (vns := Tensor.mk [1] [Fin 0])
              0 (L := 1) (E := 0))
    as (nrm & s & Hn & _ & Hs & _ & Hzero & _).
  - reflexivity.
  - reflexivity.
  - reflexivity.
  - reflexivity.
  - reflexivity.
  - simpl. destruct (Rlt_dec (1 / 100000) 1) as [_ | Hn]; [reflexivity |].
    exfalso. apply Hn. lra.
  - lra.
  - lra.
  - exists nrm. split; [exact Hn |]. now rewrite Hs, (Hzero eq_refl).
Defined.

(** The energy of a row rescaled by [s] against an unscaled momentum row
    is [s] times the energy of the row. *)
Lemma rowsum_scaled_left (s : R) (rv rm : list scalar) :
  Forall (fun e => Scalar.isfinite e = true) rv ->
  Forall (fun e => Scalar.isfinite e = true) rm ->
  exists E,
    Tensor.rowsum (Tensor.map2 Scalar.mul rv rm) = Fin E
    /\ Tensor.rowsum
         (Tensor.map2 Scalar.mul
            (List.map (fun x => Scalar.mul x (Fin s)) rv) rm)
       = Fin (s * E).
Proof.
  intros Hv. revert rm. induction Hv as [| a rv Ha _ IH]; intros rm Hm.
  - exists 0%R. split; [reflexivity |]. simpl. unfold Scalar.zero.
    f_equal. ring.
  - destruct Hm as [| c rm Hc Hm].
    + exists 0%R. split; [reflexivity |]. simpl. unfold Scalar.zero.
      f_equal. ring.
    + destruct (IH rm Hm) as (E & HE & HsE).
      destruct a as [| | a]; try discriminate.
      destruct c as [| | c]; try discriminate.
      exists (a * c + E)%R. cbn [List.map]. rewrite !map2_cons.
      unfold Tensor.rowsum in *. cbn [fold_right].
      rewrite HE, HsE. simpl. split; [reflexivity |]. f_equal. ring.
Qed.

Lemma sqrt_ratio_energy (L E : R) :
  (0 <= L)%R -> (0 < E)%R ->
  (sqrt (L / E) * E = sqrt (L * E))%R
  /\ ((0 < L)%R -> (sqrt (L * E) = L <-> E = L)%R).
Proof.
  intros HL HE.
  assert (HsE : (0 < sqrt E)%R) by now apply sqrt_lt_R0.
  split.
  - rewrite sqrt_div_alt by exact HE.
    rewrite sqrt_mult_alt by exact HL.
    rewrite <- (sqrt_sqrt E) at 2 by lra.
    field. lra.
  - intros Lpos. split.
    + intros H.
      assert (Hsq : (sqrt (L * E) * sqrt (L * E) = L * E)%R).
      { apply sqrt_sqrt. apply Rmult_le_pos; lra. }
      rewrite H in Hsq. nra.
    + intros ->. apply sqrt_square. lra.
Qed.

(** What [decode_s] computes under the isometry constraint for a batch
    element of positive energy, and the energy of its result against the
    momentum [v_star] that the code holds. *)
Lemma isometry_rescaling {ext : Externals} (m : model)
    (z_psi z zs lns vns : tensor) (bts b : nat) (rest : list nat)
    (L E : R) :
  let v_star := decoder_s m zs in
  let v_ := batched_vector_smoothing v_star
              (self_deformation_kernel_width m) false in
  self_isometry_constraint m = true ->
  Tensor.size z 0 = Ok bts ->
  Tensor.cat_last z_psi z = Ok zs ->
  DVAE.latent_norm_squared bts z = Ok lns ->
  Tensor.wf v_star -> Tensor.wf v_ ->
  Tensor.shape v_star = bts :: rest -> Tensor.shape v_ = bts :: rest ->
  length rest = length (grid_size m) + 1 ->
  Tensor.all_finite v_star -> Tensor.all_finite v_ ->
  DVAE.v_norm_squared m v_ v_star = Ok vns ->
  nth_error (Tensor.data lns) b = Some (Fin L) ->
  nth_error (Tensor.data vns) b = Some (Fin E) ->
  Scalar.gt (Fin L) (self_tol m) = true ->
  (0 < E)%R ->
  exists nrm v' vns_raw,
    DVAE.normalizer m lns vns = Ok nrm
    /\ nth_error (Tensor.data nrm) b = Some (Fin (sqrt (L / E)))
    /\ length (Tensor.data nrm) = bts
    /\ DVAE.velocity_field m z_psi z = Ok v'
    /\ DVAE.rescale m lns nrm v_ = Ok v'
    /\ Tensor.shape v' = bts :: rest /\ Tensor.wf v'
    /\ (forall row,
          nth_error (Tensor.rows v_) b = Some row ->
          nth_error (Tensor.rows v') b
          = Some (List.map (fun xi => Scalar.mul xi (Fin (sqrt (L / E))))
                    row))
    /\ DVAE.v_norm_squared m v' v_star = Ok vns_raw
    /\ nth_error (Tensor.data vns_raw) b = Some (Fin (sqrt (L / E) * E))
    /\ (0 <= L)%R.
Proof.
  intros v_star v_ Hiso Hbts Hcat Hlns Hws Hwv Hss Hsv Hrest
    Hfs Hfv Hvns HL HE Hgt Epos.
  destruct (latent_norm_squared_spec _ _ Hlns) as (Hlsh & Hlwf & Hnonneg).
  pose proof (Hnonneg _ _ HL) as Lnonneg.
  destruct (v_norm_squared_spec m Hwv Hws Hsv Hss Hrest)
    as (vns0 & Hvns0 & Hvsh & Hvwf & Hentry).
  rewrite Hvns in Hvns0. inversion Hvns0; subst vns0. clear Hvns0.
  assert (Hshapes : Tensor.shape vns = Tensor.shape lns) by congruence.
  pose proof (normalizer_spec m Hlwf Hvwf Hshapes) as Hn.
  set (nrm := Tensor.mk _ _) in Hn.
  destruct (sqrt_ratio Lnonneg Epos) as [Hsqrt _].
  assert (Hnb : nth_error (Tensor.data nrm) b = Some (Fin (sqrt (L / E)))).
  { unfold nrm. cbn [Tensor.data]. rewrite (nth_error_map2 _ _ _ _ HL HE).
    now rewrite Hgt, Hsqrt. }
  assert (Hnlen : length (Tensor.data nrm) = bts).
  { unfold nrm. cbn [Tensor.data]. rewrite length_map2.
    unfold Tensor.wf in Hlwf, Hvwf. rewrite Hlwf, Hvwf, Hlsh, Hvsh.
    simpl. lia. }
  destruct (@rescale_spec m lns nrm v_ bts rest [] Hlsh Hnlen Hwv Hsv Hrest)
    as (v' & Hv' & Hv'sh & Hv'wf & Hv'rows).
  destruct (v_norm_squared_spec m Hv'wf Hws Hv'sh Hss Hrest)
    as (vns_raw & Hraw & _ & _ & Hentry_raw).
  assert (Hb : b < bts).
  { rewrite <- Hnlen. apply nth_error_Some. congruence. }
  destruct (nth_error (Tensor.rows v_) b) as [rv |] eqn:Hrv.
  2:{ apply nth_error_None in Hrv. rewrite (rows_length _ Hsv) in Hrv. lia. }
  destruct (nth_error (Tensor.rows v_star) b) as [rw |] eqn:Hrw.
  2:{ apply nth_error_None in Hrw. rewrite (rows_length _ Hss) in Hrw. lia. }
  pose proof (Hentry _ _ _ Hrv Hrw) as HEsum. rewrite HE in HEsum.
  destruct (rowsum_scaled_left (sqrt (L / E))
              (@rows_finite v_ rv b Hfv Hrv)
              (@rows_finite v_star rw b Hfs Hrw))
    as (E0 & HE0 & Hscaled).
  assert (E0 = E) by (rewrite HE0 in HEsum; now inversion HEsum).
  subst E0.
  exists nrm, v', vns_raw.
  assert (Hvf : DVAE.velocity_field m z_psi z = Ok v').
  { rewrite (@velocity_field_isometry ext m z_psi z zs lns vns nrm bts
               Hiso Hbts Hcat Hlns Hvns Hn).
    exact Hv'. }
  repeat (split; [assumption |]).
  split.
  { intros row Hrow. inversion Hrow; subst row.
    exact (Hv'rows _ _ _ Hrv Hnb). }
  split; [exact Hraw |]. split; [| exact Lnonneg].
  rewrite (Hentry_raw _ _ _ (Hv'rows _ _ _ Hrv Hnb) Hrw).
  now rewrite Hscaled.
Qed.

(** C2.  With the isometry constraint on, take a batch element [b] whose
    latent norm [L] exceeds the tolerance and whose field energy [E] (the
    sum of smoothed velocity times raw momentum) is positive, all field
    values being real numbers.  The normaliser is [sqrt(L / E)] there and
    [velocity_field] returns the smoothed field [v'] rescaled by it.  The
    energy of [v'] computed as the code computes [E], against the raw
    momentum [v_star], is [sqrt(L * E)]; for [L > 0] it is [L] exactly
    when [E = L].  The energy of [v'] against the momentum [m'] rescaled in
    the same way is [L]; for a smoother that commutes with the rescaling (a
    linear one), [v'] is the smoothing of [m']. *)
Theorem isometry_scaling_law {ext : Externals} (m : model)
    (z_psi z zs lns vns : tensor) (bts b : nat) (rest : list nat)
    (L E : R) :
  let smooth := fun x =>
    batched_vector_smoothing x (self_deformation_kernel_width m) false in
  let v_star := decoder_s m zs in
  let v_ := smooth v_star in
  self_isometry_constraint m = true ->
  Tensor.size z 0 = Ok bts ->
  Tensor.cat_last z_psi z = Ok zs ->
  DVAE.latent_norm_squared bts z = Ok lns ->
  Tensor.wf v_star -> Tensor.wf v_ ->
  Tensor.shape v_star = bts :: rest -> Tensor.shape v_ = bts :: rest ->
  length rest = length (grid_size m) + 1 ->
  Tensor.all_finite v_star -> Tensor.all_finite v_ ->
  DVAE.v_norm_squared m v_ v_star = Ok vns ->
  nth_error (Tensor.data lns) b = Some (Fin L) ->
  nth_error (Tensor.data vns) b = Some (Fin E) ->
  Scalar.gt (Fin L) (self_tol m) = true ->
  (0 < E)%R ->
  exists nrm v' vns_raw m' vns',
    DVAE.normalizer m lns vns = Ok nrm
    /\ nth_error (Tensor.data nrm) b = Some (Fin (sqrt (L / E)))
    /\ DVAE.velocity_field m z_psi z = Ok v'
    /\ DRVAE.velocity_field m z_psi z = Ok v'
    /\ DVAE.rescale m lns nrm v_ = Ok v'
    /\ DVAE.v_norm_squared m v' v_star = Ok vns_raw
    /\ nth_error (Tensor.data vns_raw) b = Some (Fin (sqrt (L * E)))
    /\ ((0 < L)%R -> (sqrt (L * E) = L <-> E = L)%R)
    /\ DVAE.rescale m lns nrm v_star = Ok m'
    /\ DVAE.v_norm_squared m v' m' = Ok vns'
    /\ nth_error (Tensor.data vns') b = Some (Fin L)
    /\ ((forall x xs,
           DVAE.rescale m lns nrm x = Ok xs ->
           DVAE.rescale m lns nrm (smooth x) = Ok (smooth xs)) ->
        v' = smooth m').
Proof.
  intros smooth v_star v_ Hiso Hbts Hcat Hlns Hws Hwv Hss Hsv Hrest
    Hfs Hfv Hvns HL HE Hgt Epos.
  destruct (@isometry_rescaling ext m z_psi z zs lns vns bts b rest L E
              Hiso Hbts Hcat Hlns Hws Hwv Hss Hsv
              Hrest Hfs Hfv Hvns HL HE Hgt Epos)
    as (nrm & v' & vns_raw & Hn & Hnb & Hnlen & Hvf & Hv' & Hv'sh & Hv'wf
        & Hv'row & Hraw & Hrawb & Lnonneg).
  fold v_star in Hraw. fold v_star v_ in Hv', Hv'row.
  destruct (latent_norm_squared_spec _ _ Hlns) as (Hlsh & _ & _).
  destruct (sqrt_ratio Lnonneg Epos) as [_ Hsq].
  destruct (sqrt_ratio_energy Lnonneg Epos) as [Hprod Hiff].
  destruct (@rescale_spec m lns nrm v_star bts rest [] Hlsh Hnlen Hws Hss
              Hrest)
    as (m' & Hm' & Hm'sh & Hm'wf & Hm'rows).
  destruct (v_norm_squared_spec m Hv'wf Hm'wf Hv'sh Hm'sh Hrest)
    as (vns' & Hvns' & _ & _ & Hentry').
  assert (Hb : b < bts).
  { rewrite <- Hnlen. apply nth_error_Some. congruence. }
  destruct (nth_error (Tensor.rows v_) b) as [rv |] eqn:Hrv.
  2:{ apply nth_error_None in Hrv. rewrite (rows_length _ Hsv) in Hrv. lia. }
  destruct (nth_error (Tensor.rows v_star) b) as [rw |] eqn:Hrw.
  2:{ apply nth_error_None in Hrw. rewrite (rows_length _ Hss) in Hrw. lia. }
  destruct (v_norm_squared_spec m Hwv Hws Hsv Hss Hrest)
    as (vns0 & Hvns0 & _ & _ & Hentry).
  fold v_star v_ in Hvns0. rewrite Hvns in Hvns0.
  inversion Hvns0; subst vns0. clear Hvns0.
  pose proof (Hentry _ _ _ Hrv Hrw) as HEsum. rewrite HE in HEsum.
  destruct (rowsum_scaled (sqrt (L / E))
              (@rows_finite v_ rv b Hfv Hrv)
              (@rows_finite v_star rw b Hfs Hrw))
    as (E0 & HE0 & Hscaled).
  assert (E0 = E) by (rewrite HE0 in HEsum; now inversion HEsum).
  subst E0.
  exists nrm, v', vns_raw, m', vns'.
  split; [exact Hn |]. split; [exact Hnb |]. split; [exact Hvf |].
  split; [exact Hvf |]. split; [exact Hv' |]. split; [exact Hraw |].
  split; [now rewrite <- Hprod |]. split; [exact Hiff |].
  split; [exact Hm' |]. split; [exact Hvns' |].
  split.
  - rewrite (Hentry' _ _ _ (Hv'row _ Hrv) (Hm'rows _ _ _ Hrw Hnb)).
    rewrite Hscaled. now rewrite Hsq.
  - intros Hlin. specialize (Hlin _ _ Hm').
    pose proof (eq_trans (eq_sym Hv') Hlin) as Heq. now inversion Heq.
Qed.

Lemma isometry_scaling_law_witness :
  exists v' vns_raw m' vns',
    DVAE.velocity_field (ext := sample_externals)
      (sample_model [2; 2] 0 5 true)
      (Tensor.mk [1; 1] [Fin 1]) (Tensor.mk [1; 3] [Fin 1; Fin 0; Fin 0])
    = Ok v'
    /\ DVAE.v_norm_squared (sample_model [2; 2] 0 5 true) v'
         (decoder_s (sample_model [2; 2] 0 5 true)
            (Tensor.mk [1; 4] [Fin 1; Fin 1; Fin 0; Fin 0])) = Ok vns_raw
    /\ nth_error (Tensor.data vns_raw) 0
       = Some (Fin (sqrt ((1 * 1 + (0 * 0 + (0 * 0 + 0)))
                          * (1 * 1 + (1 * 1 + (1 * 1 + (1 * 1 + (1 * 1
                             + (1 * 1 + (1 * 1 + (1 * 1 + 0)))))))))))
    /\ DVAE.v_norm_squared (sample_model [2; 2] 0 5 true) v' m' = Ok vns'
    /\ nth_error (Tensor.data vns') 0
       = Some (Fin (1 * 1 + (0 * 0 + (0 * 0 + 0)))).
Proof.
  destruct (isometry_scaling_law (ext := sample_externals)
              (sample_model [2; 2] 0 5 true)
              (Tensor.mk [1; 1] [Fin 1])
              (Tensor.mk [1; 3] [Fin 1; Fin 0; Fin 0])
              (zs := Tensor.mk [1; 4] [Fin 1; Fin 1; Fin 0; Fin 0])
              (lns := Tensor.mk [1] [Fin (1 * 1 + (0 * 0 + (0 * 0 + 0)))])
              (vns := Tensor.mk [1]
                        [Fin (1 * 1 + (1 * 1 + (1 * 1 + (1 * 1 + (1 * 1
                              + (1 * 1 + (1 * 1 + (1 * 1 + 0))))))))])
              (bts := 1) 0 (rest := [2; 2; 2])
              (L := (1 * 1 + (0 * 0 + (0 * 0 + 0)))%R)
              (E := (1 * 1 + (1 * 1 + (1 * 1 + (1 * 1 + (1 * 1
                     + (1 * 1 + (1 * 1 + (1 * 1 + 0))))))))%R))
    as (nrm & v' & vns_raw & m' & vns' & _ & _ & Hv & _ & _ & Hraw & Hrawb
        & _ & _ & Hvns & HL & _).
  - reflexivity.
  - reflexivity.
  - reflexivity.
  - reflexivity.
  - reflexivity.
  - reflexivity.
  - reflexivity.
  - reflexivity.
  - reflexivity.
  - repeat constructor.
  - repeat constructor.
  - reflexivity.
  - reflexivity.
  - reflexivity.
  - simpl.
    destruct (Rlt_dec (1 / 100000) (1 * 1 + (0 * 0 + (0 * 0 + 0))))
      as [_ | Hn]; [reflexivity |].
    exfalso. apply Hn. lra.
  - lra.
  - exists v', vns_raw, m', vns'. repeat split; assumption.
Defined.

(** On a latent code of norm [L = 1] whose decoded field has energy
    [E = 8], the field returned by [velocity_field] has, against the raw
    momentum, an energy [e] with [e * e = 8]: it is not [L]. *)
Lemma rescaled_energy_is_not_latent_norm :
  exists zs lns vns v' vns_raw L E e,
    self_isometry_constraint (sample_model [2; 2] 0 5 true) = true
    /\ Tensor.cat_last (Tensor.mk [1; 1] [Fin 1])
         (Tensor.mk [1; 3] [Fin 1; Fin 0; Fin 0]) = Ok zs
    /\ DVAE.latent_norm_squared 1 (Tensor.mk [1; 3] [Fin 1; Fin 0; Fin 0])
       = Ok lns
    /\ nth_error (Tensor.data lns) 0 = Some (Fin L)
    /\ DVAE.v_norm_squared (sample_model [2; 2] 0 5 true)
         (batched_vector_smoothing (Externals := sample_externals)
            (decoder_s (sample_model [2; 2] 0 5 true) zs)
            (self_deformation_kernel_width (sample_model [2; 2] 0 5 true))
            false)
         (decoder_s (sample_model [2; 2] 0 5 true) zs) = Ok vns
    /\ nth_error (Tensor.data vns) 0 = Some (Fin E)
    /\ L = 1%R /\ E = 8%R
    /\ Scalar.gt (Fin L) (self_tol (sample_model [2; 2] 0 5 true)) = true
    /\ DVAE.velocity_field (ext := sample_externals)
         (sample_model [2; 2] 0 5 true)
         (Tensor.mk [1; 1] [Fin 1]) (Tensor.mk [1; 3] [Fin 1; Fin 0; Fin 0])
       = Ok v'
    /\ DVAE.v_norm_squared (sample_model [2; 2] 0 5 true) v'
         (decoder_s (sample_model [2; 2] 0 5 true) zs) = Ok vns_raw
    /\ nth_error (Tensor.data vns_raw) 0 = Some (Fin e)
    /\ (e * e = 8)%R
    /\ e <> L.
Proof.
  set (L := (1 * 1 + (0 * 0 + (0 * 0 + 0)))%R).
  set (E := (1 * 1 + (1 * 1 + (1 * 1 + (1 * 1 + (1 * 1
             + (1 * 1 + (1 * 1 + (1 * 1 + 0))))))))%R).
  assert (HLv : L = 1%R) by (unfold L; lra).
  assert (HEv : E = 8%R) by (unfold E; lra).
  assert (Hgt : Scalar.gt (Fin L)
                  (self_tol (sample_model [2; 2] 0 5 true)) = true).
  { simpl. destruct (Rlt_dec (1 / 100000) L) as [_ | Hn]; [reflexivity |].
    exfalso. apply Hn. lra. }
  destruct (isometry_rescaling (ext := sample_externals)
              (sample_model [2; 2] 0 5 true)
              (Tensor.mk [1; 1] [Fin 1])
              (Tensor.mk [1; 3] [Fin 1; Fin 0; Fin 0])
              (zs := Tensor.mk [1; 4] [Fin 1; Fin 1; Fin 0; Fin 0])
              (lns := Tensor.mk [1] [Fin L])
              (vns := Tensor.mk [1] [Fin E])
              (bts := 1) 0 (rest := [2; 2; 2]) (L := L) (E := E))
    as (nrm & v' & vns_raw & _ & _ & _ & Hv & _ & _ & _ & _ & Hraw & Hrawb
        & _);
    try reflexivity.
  - repeat constructor.
  - repeat constructor.
  - exact Hgt.
  - lra.
  - assert (Hsq : (sqrt (L / E) * sqrt (L / E) * E = L)%R)
      by (apply sqrt_ratio; lra).
    exists (Tensor.mk [1; 4] [Fin 1; Fin 1; Fin 0; Fin 0]),
      (Tensor.mk [1] [Fin L]), (Tensor.mk [1] [Fin E]), v', vns_raw,
      L, E, (sqrt (L / E) * E)%R.
    repeat (split; [first [reflexivity | assumption] |]).
    split; nra.
Qed.

(** ** Claims about the two variants *)

(** C3.  In [DRVAE], encoding the atlas itself gives zero for both the psi
    and the spatial component, whenever the two encoders return real-valued
    tensors on the atlas: the anchor is the same encoder output and is
    subtracted from it. *)
Theorem anchored_encoding_of_atlas_is_zero (m : model) :
  Tensor.wf (time_encoder m (atlas m)) ->
  Tensor.all_finite (time_encoder m (atlas m)) ->
  Tensor.wf (space_encoder m (atlas m)) ->
  Tensor.all_finite (space_encoder m (atlas m)) ->
  DRVAE.encode m (atlas m)
  = Ok (Tensor.zeros (Tensor.shape (time_encoder m (atlas m))),
        Tensor.zeros (Tensor.shape (space_encoder m (atlas m)))).
Proof.
  intros Hwt Hft Hws Hfs.
  unfold DRVAE.encode, DRVAE.atlas_anchoring, DRVAE.atlas_anchors.
  rewrite (sub_self Hwt Hft). cbn [bind].
  rewrite (sub_self Hws Hfs). reflexivity.
Qed.

Lemma anchored_encoding_of_atlas_is_zero_witness :
  DRVAE.encode (sample_model [2; 2] 0 5 false)
    (atlas (sample_model [2; 2] 0 5 false))
  = Ok (Tensor.zeros [1; 1; 2; 2], Tensor.zeros [1; 1; 2; 2]).
Proof.
  apply (anchored_encoding_of_atlas_is_zero (sample_model [2; 2] 0 5 false)).
  - reflexivity.
  - repeat constructor.
  - reflexivity.
  - repeat constructor.
Defined.

(** C4.  Constructed from the same arguments, [DVAE] and [DRVAE] hold the
    same attributes, and [vector_field_integration], [apply_diffeomorphism],
    [decode_s], [absolute_decode] and [decode] return the same result (or
    raise the same exception) on every input.  [DRVAE.encode] is
    [DVAE.encode] followed by the anchoring step. *)
Theorem decode_pipelines_coincide {ext : Externals} (di : data_info)
    (ld : Z) (stats : list tensor) (kw : kwargs) (ma mb : model) :
  DVAE.__init__ di ld stats kw = Ok ma ->
  DRVAE.__init__ di ld stats kw = Ok mb ->
  ma = mb
  /\ (forall v,
        DVAE.vector_field_integration ma v
        = DRVAE.vector_field_integration mb v)
  /\ (forall source diffeomorphism,
        DVAE.apply_diffeomorphism source diffeomorphism
        = DRVAE.apply_diffeomorphism source diffeomorphism)
  /\ (forall z_psi z, DVAE.decode_s ma z_psi z = DRVAE.decode_s mb z_psi z)
  /\ (forall z, DVAE.absolute_decode ma z = DRVAE.absolute_decode mb z)
  /\ (forall z, DVAE.decode ma z = DRVAE.decode mb z)
  /\ (forall observations,
        DRVAE.encode mb observations
        = DRVAE.atlas_anchoring mb
            (fst (DVAE.encode ma observations))
            (snd (DVAE.encode ma observations))).
Proof.
  intros Ha Hb. rewrite (DRVAE_init_eq di ld stats kw) in Hb at 1.
  assert (Heq : ma = mb) by congruence. subst mb.
  split; [reflexivity |].
  split; [intros v; symmetry; apply DRVAE_vector_field_integration_eq |].
  split; [intros s d; symmetry; apply DRVAE_apply_diffeomorphism_eq |].
  split; [intros zp z; symmetry; apply DRVAE_decode_s_eq |].
  split; [intros z; symmetry; apply DRVAE_absolute_decode_eq |].
  split; [intros z; symmetry; apply DRVAE_decode_eq |].
  intros obs. reflexivity.
Qed.

Lemma decode_pipelines_coincide_witness :
  DVAE.decode (ext := sample_externals) (sample_model [4; 4] 1 5 false)
    (Tensor.mk [1; 4] [Fin 1; Fin 0; Fin 0; Fin 0])
  = DRVAE.decode (ext := sample_externals) (sample_model [4; 4] 1 5 false)
      (Tensor.mk [1; 4] [Fin 1; Fin 0; Fin 0; Fin 0]).
Proof.
  assert (Hinit : DVAE.__init__ (ext := sample_externals) tt 4
                    (sample_statistics [4; 4]) (sample_kwargs 1 5 false)
                  = Ok (sample_model [4; 4] 1 5 false)).
  { apply sample_model_constructed.
    - left; reflexivity.
    - right; left; reflexivity.
    - reflexivity.
    - discriminate. }
  destruct (decode_pipelines_coincide (ext := sample_externals) tt 4
              (sample_statistics [4; 4]) (sample_kwargs 1 5 false)
              Hinit Hinit)
    as (_ & _ & _ & _ & _ & Hdec & _).
  apply Hdec.
Defined.

(** * Further properties of the model classes *)

(** ** Construction: failures before the assertions, and attributes *)

(** Empty statistics, or a first entry without any axis, make both
    constructors raise [IndexError] whatever the keyword arguments are. *)
Theorem construction_index_errors {ext : Externals} (di : data_info)
    (ld : Z) (kw : kwargs) :
  DVAE.__init__ di ld [] kw = Raise IndexError
  /\ DRVAE.__init__ di ld [] kw = Raise IndexError
  /\ forall s rest,
       Tensor.shape s = [] ->
       DVAE.__init__ di ld (s :: rest) kw = Raise IndexError
       /\ DRVAE.__init__ di ld (s :: rest) kw = Raise IndexError.
Proof.
  split; [reflexivity |]. split; [reflexivity |].
  intros s rest Hs.
  assert (H : DVAE.__init__ di ld (s :: rest) kw = Raise IndexError).
  { unfold DVAE.__init__. cbn [bind].
    unfold Tensor.size, Tensor.unsqueeze0. rewrite Hs. reflexivity. }
  split; exact H.
Qed.

Lemma construction_index_errors_witness :
  DVAE.__init__ (ext := sample_externals) tt 4
    [Tensor.mk [] [Fin 1]] (sample_kwargs 7 1 false)
  = Raise IndexError.
Proof.
  destruct (construction_index_errors (ext := sample_externals) tt 4
              (sample_kwargs 7 1 false)) as (_ & _ & H).
  exact (proj1 (H (Tensor.mk [] [Fin 1]) [] eq_refl)).
Defined.

(** The record behind a successful constructor call. *)
Lemma init_record {ext : Externals} (di : data_info) (ld : Z)
    (stats : list tensor) (kw : kwargs) (m : model) :
  DVAE.__init__ di ld stats kw = Ok m ->
  exists s rest c gs,
    stats = s :: rest /\ Tensor.shape s = c :: gs
    /\ latent_dimension m = ld
    /\ latent_dimension_s m = (ld - 1)%Z
    /\ latent_dimension_psi m = 1%Z
    /\ nb_channels m = c
    /\ grid_size m = gs
    /\ noise_dimension m = Tensor.numel gs
    /\ atlas m = Tensor.unsqueeze0 s
    /\ clamp_atlas m = negb (unclamp_atlas kw)
    /\ self_tol m = tol kw
    /\ self_isometry_constraint m = isometry_constraint kw
    /\ dt m = Fin (1 / IZR (number_of_time_points kw - 1))
    /\ self_number_of_time_points m = number_of_time_points kw
    /\ number_of_time_points kw <> 1%Z.
Proof.
  intros H.
  destruct (init_inv _ _ _ _ H)
    as (s & rest & c & -> & Hc & Hdim & Hk & Hrange & Hntp).
  destruct (Tensor.shape s) as [| c0 gs] eqn:Hshape; [discriminate |].
  simpl in Hc. inversion Hc; subst c0. simpl in Hdim.
  exists s, rest, c, gs.
  unfold DVAE.__init__ in H. cbn [bind] in H.
  unfold Tensor.size, Tensor.unsqueeze0 in H. rewrite Hshape in H.
  simpl in H.
  replace ((length gs =? 2) || ((length gs =? 3) || false)) with true in H
    by (destruct Hdim as [-> | ->]; reflexivity).
  apply pow2_in_1_2_4_iff in Hk. rewrite Hk in H. cbn [bind assert] in H.
  rewrite (float_of_int_ok _ Hrange) in H. cbn [bind] in H.
  unfold Scalar.one in H. rewrite py_truediv_fin in H.
  2:{ intros H0. apply (eq_IZR _ 0) in H0. lia. }
  cbn [bind] in H. inversion H. subst m. clear H. simpl.
  split; [reflexivity |]. split; [exact Hshape |].
  repeat (split; [reflexivity |]).
  split; [unfold Tensor.unsqueeze0; now rewrite Hshape |].
  repeat (split; [reflexivity |]). exact Hntp.
Qed.

(** In a constructed model the latent dimension splits into one psi
    coordinate and the spatial rest, the atlas has one batch entry, the
    channel axis and the grid axes, it holds the elements of the first
    statistic, and for [number_of_time_points >= 2] the step [dt] is a
    positive real, at most 1, with [dt * (ntp - 1) = 1]. *)
Theorem constructed_model_invariants {ext : Externals} (di : data_info)
    (ld : Z) (stats : list tensor) (kw : kwargs) (m : model) :
  DVAE.__init__ di ld stats kw = Ok m
  \/ DRVAE.__init__ di ld stats kw = Ok m ->
  latent_dimension m = ld
  /\ (latent_dimension_psi m + latent_dimension_s m = latent_dimension m)%Z
  /\ latent_dimension_psi m = 1%Z
  /\ Tensor.shape (atlas m) = 1 :: nb_channels m :: grid_size m
  /\ noise_dimension m = Tensor.numel (grid_size m)
  /\ (exists s rest,
        stats = s :: rest
        /\ Tensor.data (atlas m) = Tensor.data s
        /\ (Tensor.wf s -> Tensor.wf (atlas m)))
  /\ ((2 <= number_of_time_points kw)%Z ->
      exists d,
        dt m = Fin d /\ (0 < d <= 1)%R
        /\ (d * IZR (number_of_time_points kw - 1) = 1)%R).
Proof.
  intros H.
  assert (Hm : DVAE.__init__ di ld stats kw = Ok m)
    by (destruct H as [H | H]; [exact H | now rewrite <- DRVAE_init_eq]).
  destruct (init_record _ _ _ _ Hm)
    as (s & rest & c & gs & -> & Hshape & Hld & Hs & Hpsi & Hc & Hgs
        & Hnoise & Hatlas & _ & _ & _ & Hdt & _ & _).
  rewrite Hld, Hs, Hpsi, Hc, Hgs, Hnoise, Hatlas.
  split; [reflexivity |]. split; [lia |]. split; [reflexivity |].
  split; [unfold Tensor.unsqueeze0; simpl; now rewrite Hshape |].
  split; [reflexivity |]. split.
  - exists s, rest. split; [reflexivity |]. split; [reflexivity |].
    unfold Tensor.wf, Tensor.unsqueeze0. simpl. intros Hwf. lia.
  - intros Hntp. exists (1 / IZR (number_of_time_points kw - 1))%R.
    split; [exact Hdt |].
    assert (Hpos : (1 <= IZR (number_of_time_points kw - 1))%R)
      by (apply (IZR_le 1); lia).
    split; [split |].
    + unfold Rdiv. rewrite Rmult_1_l. apply Rinv_0_lt_compat. lra.
    + unfold Rdiv. rewrite Rmult_1_l.
      replace 1%R with (/ 1)%R at 1 by apply Rinv_1.
      apply Rinv_le_contravar; lra.
    + field. lra.
Qed.

Lemma constructed_model_invariants_witness :
  exists d,
    dt (sample_model [4; 4] 1 5 false) = Fin d /\ (0 < d <= 1)%R.
Proof.
  destruct (constructed_model_invariants (ext := sample_externals) tt 4
              (sample_statistics [4; 4]) (sample_kwargs 1 5 false)
              (m := sample_model [4; 4] 1 5 false))
    as (_ & _ & _ & _ & _ & _ & Hdt).
  - left. apply sample_model_constructed.
    + left; reflexivity.
    + right; left; reflexivity.
    + reflexivity.
    + discriminate.
  - destruct Hdt as (d & Hd & Hb & _); [simpl; lia |].
    exists d. split; assumption.
Defined.

(** ** The integrator: what a returned grid satisfies *)

Lemma iadd_shape (x y x' : tensor) :
  Tensor.iadd x y = Ok x' -> Tensor.shape x' = Tensor.shape x.
Proof.
  unfold Tensor.iadd. intros H.
  apply bind_ok_inv in H. destruct H as (y' & _ & H).
  now inversion H.
Qed.

Lemma integration_steps_post {ext : Externals} (m : model) (n : nat)
    (g x0 x : tensor) :
  DVAE.integration_steps m n g x0 = Ok x ->
  Tensor.shape x = Tensor.shape x0
  /\ (n <> 0 -> Tensor.has_nan x = false).
Proof.
  revert x0. induction n as [| n IH]; intros x0 H; simpl in H.
  - inversion H. split; [reflexivity | congruence].
  - apply bind_ok_inv in H. destruct H as (d & _ & H).
    apply bind_ok_inv in H. destruct H as (x' & Hx' & H).
    apply bind_ok_inv in H. destruct H as (u & Hassert & H).
    apply assert_ok_inv in Hassert. apply negb_true_iff in Hassert.
    destruct (IH _ H) as [Hsh Hnan].
    split; [rewrite Hsh; now apply iadd_shape with (y := Tensor.scalar_mul (dt m) (batched_vector_interpolation_adaptive d x0 (self_downsampling_grid m))) |].
    intros _. destruct n as [| n'].
    + simpl in H. inversion H. now subst x.
    + apply Hnan. discriminate.
Qed.

(** With [number_of_time_points >= 1] a grid returned by
    [vector_field_integration] holds no NaN, whatever the interpolator
    does; for a well-formed field of the model's field shape it has that
    shape. *)
Theorem integration_result_is_nan_free {ext : Externals} (m : model)
    (v x : tensor) :
  (1 <= self_number_of_time_points m)%Z ->
  DVAE.vector_field_integration m v = Ok x
  \/ DRVAE.vector_field_integration m v = Ok x ->
  Tensor.has_nan x = false
  /\ (forall bts,
        Tensor.wf v ->
        Tensor.shape v
          = bts :: length (grid_size m) :: downsampled_grid_size m ->
        Tensor.shape x = Tensor.shape v).
Proof.
  intros Hntp H.
  assert (Hx : DVAE.vector_field_integration m v = Ok x)
    by (destruct H as [H | H]; exact H).
  clear H. unfold DVAE.vector_field_integration in Hx.
  apply bind_ok_inv in Hx. destruct Hx as (b & Hb & Hx).
  apply bind_ok_inv in Hx. destruct Hx as (g & Hg & Hx).
  apply bind_ok_inv in Hx. destruct Hx as (c & Hc & Hx).
  apply bind_ok_inv in Hx. destruct Hx as (x0 & Hx0 & Hx).
  destruct (integration_steps_post _ _ _ _ Hx) as [Hsh Hnan].
  split.
  - apply Hnan. lia.
  - intros bts Hwf Hshape.
    unfold Tensor.size in Hb. rewrite Hshape in Hb. simpl in Hb.
    inversion Hb; subst b.
    destruct (base_grid_shape _ _ Hg) as [Hgs Hgwf].
    rewrite Nat.mul_1_r in Hgs.
    unfold Tensor.add in Hx0.
    rewrite binop_same in Hx0.
    + inversion Hx0; subst x0. rewrite Hsh. simpl. congruence.
    + exact Hgwf.
    + now apply map_wf.
    + simpl. congruence.
Qed.

Lemma integration_result_is_nan_free_witness :
  exists x,
    DVAE.vector_field_integration (ext := sample_externals)
      (sample_model [4; 4] 1 5 false) (Tensor.zeros [3; 2; 2; 2]) = Ok x
    /\ Tensor.has_nan x = false.
Proof.
  destruct (base_grid_ok (sample_model [4; 4] 1 5 false) 3)
    as (g & Hg & _ & _ & Hfin & _); [reflexivity | discriminate |].
  assert (Hx : DVAE.vector_field_integration (ext := sample_externals)
                 (sample_model [4; 4] 1 5 false)
                 (Tensor.zeros [3; 2; 2; 2]) = Ok g).
  { apply (integration_of_zeros (ext := sample_externals)
             (sample_model [4; 4] 1 5 false) 3 (d := (1 / IZR (5 - 1))%R)
             Hg Hfin eq_refl).
    - simpl. lia.
    - reflexivity. }
  exists g. split; [exact Hx |].
  apply (integration_result_is_nan_free (ext := sample_externals)
           (sample_model [4; 4] 1 5 false) (Tensor.zeros [3; 2; 2; 2])).
  - simpl. lia.
  - left. exact Hx.
Defined.

(** With [number_of_time_points <= 0] the loop body never runs: the
    integrator returns [grid + v / 2 ** ntp] without any NaN check, so a
    field holding a NaN comes back as a grid holding a NaN. *)
Theorem integration_without_steps_is_unchecked {ext : Externals}
    (m : model) (v g : tensor) (bts : nat) :
  (self_number_of_time_points m <= 0)%Z ->
  DVAE.base_grid m bts = Ok g ->
  Tensor.wf v ->
  Tensor.shape v = bts :: length (grid_size m) :: downsampled_grid_size m ->
  exists x,
    DVAE.vector_field_integration m v = Ok x
    /\ DRVAE.vector_field_integration m v = Ok x
    /\ Tensor.shape x = Tensor.shape v
    /\ Tensor.data x
       = Tensor.map2 Scalar.add (Tensor.data g)
           (List.map
              (fun e => Scalar.div e
                          (Fin (powerRZ 2 (self_number_of_time_points m))))
              (Tensor.data v))
    /\ (Tensor.has_nan v = true -> Tensor.has_nan x = true).
Proof.
  intros Hntp Hg Hwf Hshape.
  destruct (base_grid_shape _ _ Hg) as [Hgs Hgwf].
  rewrite Nat.mul_1_r in Hgs.
  assert (Hc : float_pow2 (self_number_of_time_points m)
               = Ok (Fin (powerRZ 2 (self_number_of_time_points m)))).
  { unfold float_pow2.
    destruct (Z.leb_spec 0 (self_number_of_time_points m)) as [H0 | H0];
      [| reflexivity].
    assert (Hz : self_number_of_time_points m = 0%Z) by lia.
    rewrite Hz. reflexivity. }
  set (c := Fin (powerRZ 2 (self_number_of_time_points m))) in *.
  assert (Hv' : Tensor.wf (Tensor.div_scalar v c)) by now apply map_wf.
  assert (Hsh' : Tensor.shape (Tensor.div_scalar v c) = Tensor.shape g)
    by (simpl; congruence).
  assert (Hx : DVAE.vector_field_integration m v
               = Ok (Tensor.mk (Tensor.shape g)
                       (Tensor.map2 Scalar.add (Tensor.data g)
                          (Tensor.data (Tensor.div_scalar v c))))).
  { unfold DVAE.vector_field_integration, Tensor.size.
    rewrite Hshape. simpl nth_error. cbn [bind]. rewrite Hg. cbn [bind].
    rewrite Hc. cbn [bind]. unfold Tensor.add.
    rewrite (binop_same _ Hgwf Hv' Hsh'). cbn [bind].
    replace (Z.to_nat (self_number_of_time_points m)) with 0%nat by lia.
    reflexivity. }
  eexists. split; [exact Hx |]. split; [exact Hx |].
  split; [simpl; congruence |]. split; [reflexivity |].
  intros Hnan. unfold Tensor.has_nan. simpl.
  apply map2_add_nan_r.
  - rewrite length_map. unfold Tensor.wf in Hgwf, Hwf.
    rewrite Hgwf, Hwf. congruence.
  - now apply map_div_nan.
Qed.

Lemma integration_without_steps_is_unchecked_witness :
  exists x,
    DVAE.vector_field_integration (ext := sample_externals)
      (sample_model [4; 4] 1 0 false) (Tensor.full [1; 2; 2; 2] NaN) = Ok x
    /\ Tensor.has_nan x = true.
Proof.
  destruct (base_grid_ok (sample_model [4; 4] 1 0 false) 1)
    as (g & Hg & _); [reflexivity | discriminate |].
  destruct (integration_without_steps_is_unchecked (ext := sample_externals)
              (sample_model [4; 4] 1 0 false)
              (v := Tensor.full [1; 2; 2; 2] NaN) (bts := 1)
              ltac:(simpl; lia) Hg eq_refl eq_refl)
    as (x & Hx & _ & _ & _ & Hnan).
  exists x. split; [exact Hx |]. apply Hnan. reflexivity.
Defined.

(** ** Splitting and stacking the latent vector *)

Lemma numel_rev (sh : list nat) : Tensor.numel (rev sh) = Tensor.numel sh.
Proof.
  induction sh as [| s sh IH]; [reflexivity |].
  simpl rev. rewrite numel_app, IH. simpl. lia.
Qed.

(** The facts behind a successful [torch.split(z, [a, b], dim=-1)]. *)
Lemma split_last_inv (z z1 z2 : tensor) (a b : Z) :
  Tensor.split_last z a b = Ok (z1, z2) ->
  exists l p,
    rev (Tensor.shape z) = l :: p
    /\ (0 <= a)%Z /\ (0 <= b)%Z /\ Z.to_nat a + Z.to_nat b = l
    /\ z1 = Tensor.mk (rev p ++ [Z.to_nat a])
              (concat (List.map (firstn (Z.to_nat a))
                         (Tensor.chunks (Tensor.numel p) l (Tensor.data z))))
    /\ z2 = Tensor.mk (rev p ++ [Z.to_nat b])
              (concat (List.map (skipn (Z.to_nat a))
                         (Tensor.chunks (Tensor.numel p) l (Tensor.data z)))).
Proof.
  unfold Tensor.split_last. intros H.
  destruct (rev (Tensor.shape z)) as [| l p]; [discriminate |].
  destruct ((0 <=? a)%Z && (0 <=? b)%Z && (a + b =? Z.of_nat l)%Z) eqn:Hc;
    [| discriminate].
  apply andb_true_iff in Hc. destruct Hc as [Hc Hsum].
  apply andb_true_iff in Hc. destruct Hc as [Ha Hb].
  apply Z.leb_le in Ha. apply Z.leb_le in Hb. apply Z.eqb_eq in Hsum.
  inversion H. exists l, p. repeat split; try assumption; lia.
Qed.

Lemma wf_rows_last (z : tensor) (l : nat) (p : list nat) :
  Tensor.wf z -> rev (Tensor.shape z) = l :: p ->
  length (Tensor.data z) = Tensor.numel p * l
  /\ Tensor.shape z = rev p ++ [l].
Proof.
  intros Hwf Hrev.
  assert (Hsh : Tensor.shape z = rev p ++ [l]).
  { rewrite <- (rev_involutive (Tensor.shape z)), Hrev. reflexivity. }
  split; [| exact Hsh].
  unfold Tensor.wf in Hwf. rewrite Hwf, Hsh, numel_app, numel_rev.
  simpl. lia.
Qed.

Lemma map_firstn_each {A : Type} (a n : nat) (rows : list (list A)) :
  Forall (fun c => length c = n) rows -> a <= n ->
  Forall (fun c => length c = a) (List.map (firstn a) rows).
Proof.
  intros H Ha. apply Forall_forall. intros c Hc.
  apply in_map_iff in Hc. destruct Hc as (r & <- & Hr).
  rewrite Forall_forall in H. apply firstn_length_le.
  rewrite (H r Hr). exact Ha.
Qed.

Lemma map_skipn_each {A : Type} (a n : nat) (rows : list (list A)) :
  Forall (fun c => length c = n) rows ->
  Forall (fun c => length c = n - a) (List.map (skipn a) rows).
Proof.
  intros H. apply Forall_forall. intros c Hc.
  apply in_map_iff in Hc. destruct Hc as (r & <- & Hr).
  rewrite Forall_forall in H. rewrite length_skipn. now rewrite (H r Hr).
Qed.

Lemma map2_app_firstn_skipn {A : Type} (a : nat) (rows : list (list A)) :
  Tensor.map2 (@app A) (List.map (firstn a) rows) (List.map (skipn a) rows)
  = rows.
Proof.
  induction rows as [| r rows IH]; [reflexivity |].
  cbn [List.map]. rewrite map2_cons, IH. now rewrite firstn_skipn.
Qed.

(** Both parts of a split tensor are well formed. *)
Lemma split_last_wf (z z1 z2 : tensor) (a b : Z) :
  Tensor.wf z -> Tensor.split_last z a b = Ok (z1, z2) ->
  Tensor.wf z1 /\ Tensor.wf z2.
Proof.
  intros Hwf H.
  destruct (split_last_inv _ _ _ H) as (l & p & Hrev & Ha & Hb & Hl & -> & ->).
  destruct (wf_rows_last Hwf Hrev) as [Hlen _].
  assert (Hrows : Forall (fun c => length c = l)
                    (Tensor.chunks (Tensor.numel p) l (Tensor.data z)))
    by (apply chunks_each; lia).
  unfold Tensor.wf. simpl. split.
  - rewrite (length_concat_const
               (@map_firstn_each _ (Z.to_nat a) l _ Hrows ltac:(lia))).
    rewrite length_map, chunks_length, numel_app, numel_rev. simpl. lia.
  - rewrite (length_concat_const (@map_skipn_each _ (Z.to_nat a) l _ Hrows)).
    rewrite length_map, chunks_length, numel_app, numel_rev. simpl. lia.
Qed.

(** Every element of a split tensor lands in one of the two parts. *)
Lemma split_last_elements (z z1 z2 : tensor) (a b : Z) (e : scalar) :
  Tensor.wf z -> Tensor.split_last z a b = Ok (z1, z2) ->
  In e (Tensor.data z) -> In e (Tensor.data z1) \/ In e (Tensor.data z2).
Proof.
  intros Hwf H He.
  destruct (split_last_inv _ _ _ H) as (l & p & Hrev & Ha & Hb & Hl & -> & ->).
  destruct (wf_rows_last Hwf Hrev) as [Hlen _].
  rewrite <- (concat_chunks (Tensor.numel p) l (Tensor.data z) Hlen) in He.
  apply in_concat in He. destruct He as (row & Hrow & He).
  rewrite <- (firstn_skipn (Z.to_nat a) row) in He.
  apply in_app_or in He. simpl. destruct He as [He | He]; [left | right];
    apply in_concat; eexists; (split; [apply in_map; exact Hrow | exact He]).
Qed.

Lemma cat_last_raises (x y : tensor) (e : exn) :
  Tensor.cat_last x y = Raise e -> e = RuntimeError.
Proof.
  unfold Tensor.cat_last.
  destruct (rev (Tensor.shape x)) as [| lx px];
    destruct (rev (Tensor.shape y)) as [| ly py]; try (intros H; now inversion H).
  destruct (list_eq_dec Nat.eq_dec px py); intros H; now inversion H.
Qed.

(** [torch.cat] of the two parts of [torch.split] gives the tensor back. *)
Lemma cat_split_last (z z1 z2 : tensor) (a b : Z) :
  Tensor.wf z -> Tensor.split_last z a b = Ok (z1, z2) ->
  Tensor.cat_last z1 z2 = Ok z.
Proof.
  intros Hwf H.
  destruct (split_last_inv _ _ _ H) as (l & p & Hrev & Ha & Hb & Hl & -> & ->).
  destruct (wf_rows_last Hwf Hrev) as [Hlen Hsh].
  set (rows := Tensor.chunks (Tensor.numel p) l (Tensor.data z)).
  assert (Hrows : Forall (fun c => length c = l) rows)
    by (apply chunks_each; lia).
  assert (Hk : length rows = Tensor.numel p) by apply chunks_length.
  unfold Tensor.cat_last. simpl Tensor.shape.
  rewrite !rev_app_distr, !rev_involutive. simpl rev. simpl app.
  cbv beta iota.
  destruct (list_eq_dec Nat.eq_dec p p) as [_ | Hne]; [| congruence].
  cbn [Tensor.data]. fold rows.
  replace (Tensor.numel p) with (length (List.map (firstn (Z.to_nat a)) rows))
    at 1 by (rewrite length_map; exact Hk).
  rewrite (chunks_concat (@map_firstn_each _ (Z.to_nat a) l _ Hrows ltac:(lia))).
  replace (Tensor.numel p) with (length (List.map (skipn (Z.to_nat a)) rows))
    by (rewrite length_map; exact Hk).
  replace (Z.to_nat b) with (l - Z.to_nat a) by lia.
  rewrite (chunks_concat (@map_skipn_each _ (Z.to_nat a) l _ Hrows)).
  rewrite map2_app_firstn_skipn. unfold rows.
  rewrite (concat_chunks _ _ _ Hlen).
  replace (Z.to_nat a + (l - Z.to_nat a)) with l by lia.
  rewrite <- Hsh. now rewrite tensor_eta.
Qed.

Lemma split_last_elements_back (z z1 z2 : tensor) (a b : Z) (e : scalar) :
  Tensor.split_last z a b = Ok (z1, z2) ->
  In e (Tensor.data z1) \/ In e (Tensor.data z2) -> In e (Tensor.data z).
Proof.
  intros H He.
  destruct (split_last_inv _ _ _ H) as (l & p & _ & _ & _ & _ & -> & ->).
  simpl in He.
  assert (Hsub : forall f : list scalar -> list scalar,
             (forall row x, In x (f row) -> In x row) ->
             In e (concat (List.map f
                     (Tensor.chunks (Tensor.numel p) l (Tensor.data z)))) ->
             In e (Tensor.data z)).
  { intros f Hf Hin. apply in_concat in Hin. destruct Hin as (c & Hc & Hec).
    apply in_map_iff in Hc. destruct Hc as (row & <- & Hrow).
    eapply chunks_in; [exact Hrow | now apply Hf]. }
  destruct He as [He | He].
  - apply (Hsub (firstn (Z.to_nat a))); [| exact He].
    intros row x Hx. rewrite <- (firstn_skipn (Z.to_nat a) row).
    apply in_or_app. now left.
  - apply (Hsub (skipn (Z.to_nat a))); [| exact He].
    intros row x Hx. rewrite <- (firstn_skipn (Z.to_nat a) row).
    apply in_or_app. now right.
Qed.

Lemma has_nan_true_iff (x : tensor) :
  Tensor.has_nan x = true <-> In NaN (Tensor.data x).
Proof.
  unfold Tensor.has_nan. rewrite existsb_exists. split.
  - intros (e & He & Hn). apply isnan_true in Hn. now subst e.
  - intros H. exists NaN. now split.
Qed.

Lemma has_nan_false_iff (x : tensor) :
  Tensor.has_nan x = false <-> ~ In NaN (Tensor.data x).
Proof.
  rewrite <- has_nan_true_iff. destruct (Tensor.has_nan x); split;
    intros H; try congruence; try reflexivity.
Qed.

(** ** The decode pipeline *)

Section Decode.

Context {ext : Externals}.
Variable m : model.

Lemma apply_diffeomorphism_inv (source diffeomorphism x : tensor) :
  DVAE.apply_diffeomorphism source diffeomorphism = Ok x ->
  Tensor.has_nan source = false
  /\ x = batched_scalar_interpolation_adaptive source diffeomorphism
  /\ Tensor.has_nan x = false.
Proof.
  unfold DVAE.apply_diffeomorphism. intros H.
  apply bind_ok_inv in H. destruct H as (u1 & H1 & H).
  apply bind_ok_inv in H. destruct H as (u2 & H2 & H).
  apply assert_ok_inv in H1. apply negb_true_iff in H1.
  apply assert_ok_inv in H2. apply negb_true_iff in H2.
  inversion H. subst x. repeat split; assumption.
Qed.

Lemma absolute_decode_inv (z x : tensor) :
  DVAE.absolute_decode m z = Ok x ->
  exists z_psi z_s field bts ra,
    Tensor.split_last z (latent_dimension_psi m) (latent_dimension_s m)
      = Ok (z_psi, z_s)
    /\ DVAE.decode_s m z_psi z_s = Ok field
    /\ Tensor.has_nan field = false
    /\ Tensor.has_nan z_psi = false
    /\ Tensor.has_nan z_s = false
    /\ Tensor.size z_psi 0 = Ok bts
    /\ Tensor.repeat0 (atlas m) bts = Ok ra
    /\ DVAE.apply_diffeomorphism
         (if clamp_atlas m
          then Tensor.map (Scalar.clamp (self_tol m)
                             (Scalar.sub Scalar.one (self_tol m))) ra
          else ra) field = Ok x.
Proof.
  unfold DVAE.absolute_decode. intros H.
  apply bind_ok_inv in H. destruct H as ([z_psi z_s] & Hsplit & H).
  apply bind_ok_inv in H. destruct H as (field & Hfield & H).
  apply bind_ok_inv in H. destruct H as (u1 & H1 & H).
  apply bind_ok_inv in H. destruct H as (u2 & H2 & H).
  apply bind_ok_inv in H. destruct H as (u3 & H3 & H).
  apply bind_ok_inv in H. destruct H as (bts & Hbts & H).
  apply bind_ok_inv in H. destruct H as (ra & Hra & H).
  apply assert_ok_inv in H1. apply negb_true_iff in H1.
  apply assert_ok_inv in H2. apply negb_true_iff in H2.
  apply assert_ok_inv in H3. apply negb_true_iff in H3.
  exists z_psi, z_s, field, bts, ra. repeat split; assumption.
Qed.

(** Without the isometry constraint the field handed to the integrator is
    the smoothed decoder output on the latent vector itself. *)
Lemma velocity_field_plain (z z_psi z_s : tensor) (bts : nat) :
  Tensor.wf z ->
  Tensor.split_last z (latent_dimension_psi m) (latent_dimension_s m)
    = Ok (z_psi, z_s) ->
  Tensor.size z_s 0 = Ok bts -> bts <> 0 ->
  self_isometry_constraint m = false ->
  DVAE.velocity_field m z_psi z_s
  = Ok (batched_vector_smoothing (decoder_s m z)
          (self_deformation_kernel_width m) false).
Proof.
  intros Hwf Hsplit Hbts Hne Hiso.
  destruct (@split_last_wf z z_psi z_s _ _ Hwf Hsplit) as [_ Hwfs].
  unfold DVAE.velocity_field. rewrite Hbts. cbn [bind].
  rewrite (@cat_split_last z z_psi z_s _ _ Hwf Hsplit). cbn [bind].
  assert (Hlns : exists lns, DVAE.latent_norm_squared bts z_s = Ok lns).
  { unfold DVAE.latent_norm_squared, Tensor.view_rows.
    destruct bts as [| n]; [congruence |].
    unfold Tensor.size in Hbts.
    destruct (Tensor.shape z_s) as [| b tl] eqn:Hsh; [discriminate |].
    simpl in Hbts. inversion Hbts; subst b.
    unfold Tensor.wf in Hwfs. rewrite Hsh in Hwfs.
    replace (length (Tensor.data z_s) mod S n =? 0) with true.
    - cbn [bind]. unfold Tensor.sum_dims, Tensor.square, Tensor.map.
      cbn [Tensor.shape]. eexists. reflexivity.
    - symmetry. apply Nat.eqb_eq. rewrite Hwfs.
      change (Tensor.numel (S n :: tl)) with (S n * Tensor.numel tl).
      rewrite Nat.mul_comm. apply Nat.Div0.mod_mul. }
  destruct Hlns as (lns & ->). cbn [bind]. now rewrite Hiso.
Qed.

(** A zero velocity field: the reconstruction samples the repeated (and
    clamped) atlas at the base grid. *)
Lemma decode_of_zero_field (z z_psi z_s g ra : tensor) (bts bts' : nat)
    (d : R) :
  Tensor.wf z -> Tensor.has_nan z = false ->
  Tensor.split_last z (latent_dimension_psi m) (latent_dimension_s m)
    = Ok (z_psi, z_s) ->
  Tensor.size z_s 0 = Ok bts -> bts <> 0 ->
  Tensor.size z_psi 0 = Ok bts' ->
  self_isometry_constraint m = false ->
  batched_vector_smoothing (decoder_s m z)
    (self_deformation_kernel_width m) false
  = Tensor.zeros (bts :: length (grid_size m) :: downsampled_grid_size m) ->
  DVAE.base_grid m bts = Ok g -> Tensor.all_finite g ->
  dt m = Fin d ->
  (0 <= self_number_of_time_points m <= 1023)%Z ->
  (forall sh x k,
      batched_vector_interpolation_adaptive (Tensor.zeros sh) x k
      = Tensor.zeros sh) ->
  Tensor.repeat0 (atlas m) bts' = Ok ra ->
  let source :=
    if clamp_atlas m
    then Tensor.map (Scalar.clamp (self_tol m)
                       (Scalar.sub Scalar.one (self_tol m))) ra
    else ra in
  Tensor.has_nan source = false ->
  Tensor.has_nan (batched_scalar_interpolation_adaptive source g) = false ->
  DVAE.decode m z = Ok (batched_scalar_interpolation_adaptive source g).
Proof.
  intros Hwf Hnan Hsplit Hbts Hne Hbts' Hiso Hzero Hg Hfin Hdt Hntp Hinterp
    Hra source Hsrc Hout.
  assert (Hpart : Tensor.has_nan z_psi = false /\ Tensor.has_nan z_s = false).
  { apply has_nan_false_iff in Hnan.
    split; apply has_nan_false_iff; intros Hin; apply Hnan;
      apply (@split_last_elements_back z z_psi z_s _ _ NaN Hsplit);
      [now left | now right]. }
  destruct Hpart as [Hpsi Hs].
  unfold DVAE.decode, DVAE.absolute_decode. rewrite Hsplit. cbn [bind].
  unfold DVAE.decode_s.
  rewrite (velocity_field_plain Hwf Hsplit Hbts Hne Hiso). cbn [bind].
  rewrite Hzero.
  replace (Tensor.has_nan (Tensor.zeros _)) with false.
  2:{ symmetry. unfold Tensor.has_nan, Tensor.zeros, Tensor.full. simpl.
      apply finite_not_nan. apply Forall_forall. intros e He.
      apply repeat_spec in He. now subst e. }
  cbn [negb assert bind].
  rewrite (integration_of_zeros m bts Hg Hfin Hdt Hntp Hinterp). cbn [bind].
  unfold Tensor.has_nan at 1. rewrite (finite_not_nan Hfin).
  cbn [negb assert bind]. rewrite Hpsi, Hs. cbn [negb assert bind].
  rewrite Hbts'. cbn [bind]. rewrite Hra. cbn [bind].
  fold source. unfold DVAE.apply_diffeomorphism.
  rewrite Hsrc. cbn [negb assert bind]. rewrite Hout. reflexivity.
Qed.

End Decode.

Lemma clamp_bounds (t : R) (x : scalar) :
  (t <= 1 / 2)%R -> Scalar.isnan x = false ->
  exists r,
    Scalar.clamp (Fin t) (Scalar.sub Scalar.one (Fin t)) x = Fin r
    /\ (t <= r <= 1 - t)%R.
Proof.
  intros Ht Hx. unfold Scalar.clamp. rewrite Hx.
  unfold Scalar.sub, Scalar.one, Scalar.lt. simpl Scalar.neg.
  simpl Scalar.add.
  destruct x as [| s | a]; [discriminate | |].
  - destruct s; simpl.
    + destruct (Rlt_dec (1 + - t) t) as [Hlt | Hge].
      * exists (1 + - t)%R. split; [reflexivity | lra].
      * exists t. split; [reflexivity | lra].
    + exists (1 + - t)%R. split; [reflexivity | lra].
  - simpl. destruct (Rlt_dec a t) as [Hlo | Hlo]; simpl.
    + destruct (Rlt_dec (1 + - t) t) as [Hlt | Hge].
      * exists (1 + - t)%R. split; [reflexivity | lra].
      * exists t. split; [reflexivity | lra].
    + destruct (Rlt_dec (1 + - t) a) as [Hhi | Hhi].
      * exists (1 + - t)%R. split; [reflexivity | lra].
      * exists a. split; [reflexivity | lra].
Qed.

Lemma clamp_nan (lo hi : scalar) : Scalar.clamp lo hi NaN = NaN.
Proof. reflexivity. Qed.

(** A NaN-free clamped tensor holds reals between the two bounds. *)
Lemma clamped_tensor_bounds (t : R) (ra : tensor) :
  (t <= 1 / 2)%R ->
  Tensor.has_nan
    (Tensor.map (Scalar.clamp (Fin t) (Scalar.sub Scalar.one (Fin t))) ra)
  = false ->
  Forall (fun e => exists r, e = Fin r /\ (t <= r <= 1 - t)%R)
    (Tensor.data
       (Tensor.map (Scalar.clamp (Fin t) (Scalar.sub Scalar.one (Fin t)))
          ra)).
Proof.
  intros Ht Hnan. apply has_nan_false_iff in Hnan.
  apply Forall_forall. intros e He. simpl in He, Hnan.
  apply in_map_iff in He. destruct He as (x & <- & Hx).
  destruct (Scalar.isnan x) eqn:Hxn.
  - exfalso. apply Hnan. apply isnan_true in Hxn. subst x.
    apply in_map_iff. exists NaN. split; [reflexivity | exact Hx].
  - destruct (clamp_bounds x Ht Hxn) as (r & Hr & Hb). exists r. now split.
Qed.

Lemma clamped_finite_no_nan (t : R) (ra : tensor) :
  (t <= 1 / 2)%R -> Tensor.has_nan ra = false ->
  Tensor.has_nan
    (Tensor.map (Scalar.clamp (Fin t) (Scalar.sub Scalar.one (Fin t))) ra)
  = false.
Proof.
  intros Ht Hnan. apply has_nan_false_iff. intros Hin. simpl in Hin.
  apply in_map_iff in Hin. destruct Hin as (x & Hx & Hin).
  destruct (Scalar.isnan x) eqn:Hxn.
  - apply isnan_true in Hxn. subst x.
    apply has_nan_false_iff in Hnan. now apply Hnan.
  - destruct (clamp_bounds x Ht Hxn) as (r & Hr & _).
    change (Scalar.sub Scalar.one (Fin t)) with (Fin (1 + - t)) in Hr.
    rewrite Hr in Hx. discriminate.
Qed.

(** A decode run of the sample model: latent with psi = 0, hence a zero
    field from the sample decoder. *)
Lemma sample_decode_ok :
  exists source,
    DVAE.decode (ext := sample_externals) (sample_model [2; 2] 0 5 false)
      (Tensor.mk [1; 4] [Fin 0; Fin 1; Fin 0; Fin 0]) = Ok source
    /\ source
       = Tensor.map (Scalar.clamp (Fin (1 / 100000))
                       (Scalar.sub Scalar.one (Fin (1 / 100000))))
           (Tensor.mk [1; 1; 2; 2] (repeat (Fin (1 / 2)) 4)).
Proof.
  set (m := sample_model [2; 2] 0 5 false).
  set (z := Tensor.mk [1; 4] [Fin 0; Fin 1; Fin 0; Fin 0]).
  destruct (base_grid_ok m 1) as (g & Hg & _ & _ & Hfin & _);
    [reflexivity | discriminate |].
  assert (Hsrc : Tensor.has_nan
                   (Tensor.map (Scalar.clamp (Fin (1 / 100000))
                      (Scalar.sub Scalar.one (Fin (1 / 100000))))
                      (Tensor.mk [1; 1; 2; 2] (repeat (Fin (1 / 2)) 4)))
                 = false).
  { apply clamped_finite_no_nan; [lra | reflexivity]. }
  eexists. split; [| reflexivity].
  apply (decode_of_zero_field (ext := sample_externals) m
           (z := z) (z_psi := Tensor.mk [1; 1] [Fin 0])
           (z_s := Tensor.mk [1; 3] [Fin 1; Fin 0; Fin 0])
           (g := g) (ra := Tensor.mk [1; 1; 2; 2] (repeat (Fin (1 / 2)) 4))
           (bts := 1) (bts' := 1) (d := (1 / IZR (5 - 1))%R));
    try reflexivity; try assumption.
  - discriminate.
  - simpl. lia.
Qed.

(** ** Properties of [decode] *)

(** A reconstruction returned by [decode] holds no NaN and is the scalar
    interpolation, at a NaN-free field, of a NaN-free source image; with
    clamping on and a tolerance of at most one half every value of that
    source is a real number in [[tol, 1 - tol]], and with clamping off the
    source is the atlas repeated over the batch. *)
Theorem decode_result_properties {ext : Externals} (m : model)
    (z x_hat : tensor) (t : R) :
  DVAE.decode m z = Ok x_hat \/ DRVAE.decode m z = Ok x_hat ->
  self_tol m = Fin t -> (t <= 1 / 2)%R ->
  Tensor.has_nan x_hat = false
  /\ exists z_psi z_s field bts ra source,
       Tensor.split_last z (latent_dimension_psi m) (latent_dimension_s m)
         = Ok (z_psi, z_s)
       /\ DVAE.decode_s m z_psi z_s = Ok field
       /\ Tensor.has_nan field = false
       /\ Tensor.size z_psi 0 = Ok bts
       /\ Tensor.repeat0 (atlas m) bts = Ok ra
       /\ x_hat = batched_scalar_interpolation_adaptive source field
       /\ Tensor.has_nan source = false
       /\ (clamp_atlas m = true ->
           Tensor.shape source = Tensor.shape ra
           /\ Forall (fun e => exists r, e = Fin r /\ (t <= r <= 1 - t)%R)
                (Tensor.data source))
       /\ (clamp_atlas m = false -> source = ra).
Proof.
  intros H Ht Hhalf.
  assert (Hx : DVAE.absolute_decode m z = Ok x_hat)
    by (destruct H as [H | H]; exact H).
  destruct (absolute_decode_inv _ _ Hx)
    as (z_psi & z_s & field & bts & ra & Hsplit & Hfield & Hnf & _ & _
        & Hbts & Hra & Happ).
  destruct (apply_diffeomorphism_inv _ _ Happ) as (Hsrc & Hval & Hout).
  split; [exact Hout |].
  exists z_psi, z_s, field, bts, ra.
  exists (if clamp_atlas m
          then Tensor.map (Scalar.clamp (self_tol m)
                             (Scalar.sub Scalar.one (self_tol m))) ra
          else ra).
  split; [exact Hsplit |]. split; [exact Hfield |]. split; [exact Hnf |].
  split; [exact Hbts |]. split; [exact Hra |].
  split; [exact Hval |]. split; [exact Hsrc |]. split.
  - intros Hclamp. rewrite Hclamp in *. rewrite Ht in *.
    split; [reflexivity |]. now apply clamped_tensor_bounds.
  - intros Hclamp. now rewrite Hclamp.
Qed.

Lemma decode_result_properties_witness :
  exists x_hat,
    DVAE.decode (ext := sample_externals) (sample_model [2; 2] 0 5 false)
      (Tensor.mk [1; 4] [Fin 0; Fin 1; Fin 0; Fin 0]) = Ok x_hat
    /\ Tensor.has_nan x_hat = false.
Proof.
  destruct sample_decode_ok as (x_hat & Hx & _).
  exists x_hat. split; [exact Hx |].
  apply (decode_result_properties (ext := sample_externals)
           (sample_model [2; 2] 0 5 false)
           (Tensor.mk [1; 4] [Fin 0; Fin 1; Fin 0; Fin 0])
           (t := (1 / 100000)%R) (or_introl Hx) eq_refl).
  lra.
Defined.

(** A well-formed latent tensor holding a NaN never gets a reconstruction:
    [decode] raises, at the latest at its assertions on the two latent
    parts. *)
Theorem decode_rejects_nan_latent {ext : Externals} (m : model)
    (z : tensor) :
  Tensor.wf z -> Tensor.has_nan z = true ->
  raises (DVAE.decode m z) /\ raises (DRVAE.decode m z).
Proof.
  intros Hwf Hnan.
  assert (H : raises (DVAE.decode m z)).
  { unfold DVAE.decode, DVAE.absolute_decode.
    destruct (Tensor.split_last z _ _) as [[z_psi z_s] | e] eqn:Hsplit;
      [| now exists e].
    cbn [bind].
    destruct (DVAE.decode_s m z_psi z_s) as [field | e]; [| now exists e].
    cbn [bind].
    destruct (Tensor.has_nan field); [eexists; reflexivity |].
    cbn [negb assert bind].
    apply has_nan_true_iff in Hnan.
    destruct (@split_last_elements z z_psi z_s _ _ NaN Hwf Hsplit Hnan)
      as [Hin | Hin]; apply has_nan_true_iff in Hin.
    - rewrite Hin. eexists. reflexivity.
    - destruct (Tensor.has_nan z_psi); [eexists; reflexivity |].
      cbn [negb assert bind]. rewrite Hin. eexists. reflexivity. }
  split; exact H.
Qed.

Lemma decode_rejects_nan_latent_witness :
  raises (DVAE.decode (ext := sample_externals)
            (sample_model [2; 2] 0 5 false)
            (Tensor.mk [1; 4] [Fin 0; NaN; Fin 0; Fin 0])).
Proof.
  apply (decode_rejects_nan_latent (ext := sample_externals)
           (sample_model [2; 2] 0 5 false)
           (z := Tensor.mk [1; 4] [Fin 0; NaN; Fin 0; Fin 0])).
  - reflexivity.
  - reflexivity.
Defined.

(** In a constructed model [decode] only accepts latent tensors whose last
    axis has the latent dimension: another width raises [RuntimeError] at
    the split, and so does a tensor without axes. *)
Theorem decode_rejects_wrong_latent_width {ext : Externals}
    (di : data_info) (ld : Z) (stats : list tensor) (kw : kwargs)
    (m : model) (z : tensor) :
  DVAE.__init__ di ld stats kw = Ok m
  \/ DRVAE.__init__ di ld stats kw = Ok m ->
  (Tensor.shape z = [] ->
   DVAE.decode m z = Raise RuntimeError
   /\ DRVAE.decode m z = Raise RuntimeError)
  /\ (forall l p,
        rev (Tensor.shape z) = l :: p -> Z.of_nat l <> ld ->
        DVAE.decode m z = Raise RuntimeError
        /\ DRVAE.decode m z = Raise RuntimeError).
Proof.
  intros H.
  assert (Hm : DVAE.__init__ di ld stats kw = Ok m)
    by (destruct H as [H | H]; [exact H | now rewrite <- DRVAE_init_eq]).
  destruct (init_record _ _ _ _ Hm)
    as (s & rest & c & gs & _ & _ & _ & Hs & Hpsi & _).
  split.
  - intros Hsh.
    assert (Hd : DVAE.decode m z = Raise RuntimeError).
    { unfold DVAE.decode, DVAE.absolute_decode, Tensor.split_last.
      rewrite Hsh. reflexivity. }
    split; exact Hd.
  - intros l p Hrev Hl.
    assert (Hd : DVAE.decode m z = Raise RuntimeError).
    { unfold DVAE.decode, DVAE.absolute_decode, Tensor.split_last.
      rewrite Hrev, Hpsi, Hs.
      replace (1 + (ld - 1) =? Z.of_nat l)%Z with false
        by (symmetry; apply Z.eqb_neq; lia).
      rewrite andb_false_r. reflexivity. }
    split; exact Hd.
Qed.

Lemma decode_rejects_wrong_latent_width_witness :
  DVAE.decode (ext := sample_externals) (sample_model [2; 2] 0 5 false)
    (Tensor.mk [1; 3] [Fin 0; Fin 1; Fin 0])
  = Raise RuntimeError.
Proof.
  assert (Hinit : DVAE.__init__ (ext := sample_externals) tt 4
                    (sample_statistics [2; 2]) (sample_kwargs 0 5 false)
                  = Ok (sample_model [2; 2] 0 5 false)).
  { apply sample_model_constructed.
    - left; reflexivity.
    - left; reflexivity.
    - reflexivity.
    - discriminate. }
  destruct (decode_rejects_wrong_latent_width (ext := sample_externals)
              tt 4 (sample_statistics [2; 2]) (sample_kwargs 0 5 false)
              (Tensor.mk [1; 3] [Fin 0; Fin 1; Fin 0]) (or_introl Hinit))
    as [_ H].
  apply (H 3 [1]); [reflexivity | discriminate].
Defined.

(** Splitting the latent tensor and stacking the two parts again gives the
    latent tensor back, so that without the isometry constraint and for a
    non-empty batch the field checked and integrated by [decode_s] is the
    smoothed decoder output on the latent tensor itself. *)
Theorem plain_velocity_is_smoothed_decoder_output {ext : Externals}
    (m : model) (z z_psi z_s : tensor) (bts : nat) :
  Tensor.wf z ->
  Tensor.split_last z (latent_dimension_psi m) (latent_dimension_s m)
    = Ok (z_psi, z_s) ->
  Tensor.size z_s 0 = Ok bts -> bts <> 0 ->
  self_isometry_constraint m = false ->
  let v := batched_vector_smoothing (decoder_s m z)
             (self_deformation_kernel_width m) false in
  Tensor.cat_last z_psi z_s = Ok z
  /\ DVAE.velocity_field m z_psi z_s = Ok v
  /\ DRVAE.velocity_field m z_psi z_s = Ok v
  /\ DVAE.decode_s m z_psi z_s
     = (_ <- assert (negb (Tensor.has_nan v)) "NaN detected v" ;;
        DVAE.vector_field_integration m v)
  /\ DRVAE.decode_s m z_psi z_s
     = (_ <- assert (negb (Tensor.has_nan v)) "NaN detected v" ;;
        DRVAE.vector_field_integration m v).
Proof.
  intros Hwf Hsplit Hbts Hne Hiso v.
  pose proof (velocity_field_plain m Hwf Hsplit Hbts Hne Hiso) as Hv.
  fold v in Hv.
  split; [exact (@cat_split_last z z_psi z_s _ _ Hwf Hsplit) |].
  split; [exact Hv |]. split; [exact Hv |].
  assert (Hd : DVAE.decode_s m z_psi z_s
               = (_ <- assert (negb (Tensor.has_nan v)) "NaN detected v" ;;
                  DVAE.vector_field_integration m v)).
  { unfold DVAE.decode_s. rewrite Hv. reflexivity. }
  split; exact Hd.
Qed.

Lemma plain_velocity_is_smoothed_decoder_output_witness :
  DVAE.velocity_field (ext := sample_externals)
    (sample_model [2; 2] 0 5 false)
    (Tensor.mk [1; 1] [Fin 0]) (Tensor.mk [1; 3] [Fin 1; Fin 0; Fin 0])
  = Ok (Tensor.zeros [1; 2; 2; 2]).
Proof.
  destruct (plain_velocity_is_smoothed_decoder_output
              (ext := sample_externals) (sample_model [2; 2] 0 5 false)
              (z := Tensor.mk [1; 4] [Fin 0; Fin 1; Fin 0; Fin 0])
              (z_psi := Tensor.mk [1; 1] [Fin 0])
              (z_s := Tensor.mk [1; 3] [Fin 1; Fin 0; Fin 0]) (bts := 1)
              eq_refl eq_refl eq_refl ltac:(discriminate) eq_refl)
    as (_ & Hv & _).
  exact Hv.
Defined.

(** An empty batch never decodes: [z.view(bts, -1)] with [bts = 0] raises
    [RuntimeError] in [decode_s], with or without the isometry constraint,
    and so does [decode] on a latent tensor whose spatial part has an empty
    first axis. *)
Theorem empty_batch_raises {ext : Externals} (m : model)
    (z_psi z_s : tensor) :
  Tensor.size z_s 0 = Ok 0 ->
  DVAE.velocity_field m z_psi z_s = Raise RuntimeError
  /\ DVAE.decode_s m z_psi z_s = Raise RuntimeError
  /\ DRVAE.decode_s m z_psi z_s = Raise RuntimeError
  /\ (forall z,
        Tensor.split_last z (latent_dimension_psi m) (latent_dimension_s m)
          = Ok (z_psi, z_s) ->
        DVAE.decode m z = Raise RuntimeError
        /\ DRVAE.decode m z = Raise RuntimeError).
Proof.
  intros Hbts.
  assert (Hv : DVAE.velocity_field m z_psi z_s = Raise RuntimeError).
  { unfold DVAE.velocity_field. rewrite Hbts. cbn [bind].
    destruct (Tensor.cat_last z_psi z_s) as [zs | e] eqn:Hcat.
    - reflexivity.
    - cbn [bind]. now rewrite (cat_last_raises _ _ Hcat). }
  assert (Hd : DVAE.decode_s m z_psi z_s = Raise RuntimeError)
    by (unfold DVAE.decode_s; now rewrite Hv).
  split; [exact Hv |]. split; [exact Hd |]. split; [exact Hd |].
  intros z Hsplit.
  assert (Hz : DVAE.decode m z = Raise RuntimeError).
  { unfold DVAE.decode, DVAE.absolute_decode. rewrite Hsplit. cbn [bind].
    now rewrite Hd. }
  split; exact Hz.
Qed.

Lemma empty_batch_raises_witness :
  DVAE.decode (ext := sample_externals) (sample_model [2; 2] 0 5 true)
    (Tensor.mk [0; 4] [])
  = Raise RuntimeError.
Proof.
  destruct (empty_batch_raises (ext := sample_externals)
              (sample_model [2; 2] 0 5 true)
              (Tensor.mk [0; 1] []) (Tensor.mk [0; 3] [])
              eq_refl)
    as (_ & _ & _ & H).
  exact (proj1 (H (Tensor.mk [0; 4] []) eq_refl)).
Defined.

(** A zero velocity field reconstructs the atlas sampled at the base grid.
    Take a model without the isometry constraint, with
    [0 <= number_of_time_points <= 1023] and a real step [dt], whose base
    grid for the batch is built and finite, and a well-formed NaN-free
    latent tensor of a non-empty batch.  When the smoothed decoder output
    is the zero field and the vector interpolator maps a zero displacement
    to zero, [decode] returns the scalar interpolation of the repeated (and,
    if enabled, clamped) atlas at the base grid, provided source and result
    hold no NaN. *)
Theorem zero_field_reconstructs_atlas {ext : Externals} (m : model)
    (z z_psi z_s g ra : tensor) (bts bts' : nat) (d : R) :
  Tensor.wf z -> Tensor.has_nan z = false ->
  Tensor.split_last z (latent_dimension_psi m) (latent_dimension_s m)
    = Ok (z_psi, z_s) ->
  Tensor.size z_s 0 = Ok bts -> bts <> 0 ->
  Tensor.size z_psi 0 = Ok bts' ->
  self_isometry_constraint m = false ->
  batched_vector_smoothing (decoder_s m z)
    (self_deformation_kernel_width m) false
  = Tensor.zeros (bts :: length (grid_size m) :: downsampled_grid_size m) ->
  DVAE.base_grid m bts = Ok g -> Tensor.all_finite g ->
  dt m = Fin d ->
  (0 <= self_number_of_time_points m <= 1023)%Z ->
  (forall sh x k,
      batched_vector_interpolation_adaptive (Tensor.zeros sh) x k
      = Tensor.zeros sh) ->
  Tensor.repeat0 (atlas m) bts' = Ok ra ->
  let source :=
    if clamp_atlas m
    then Tensor.map (Scalar.clamp (self_tol m)
                       (Scalar.sub Scalar.one (self_tol m))) ra
    else ra in
  Tensor.has_nan source = false ->
  Tensor.has_nan (batched_scalar_interpolation_adaptive source g) = false ->
  DVAE.decode m z = Ok (batched_scalar_interpolation_adaptive source g)
  /\ DRVAE.decode m z = Ok (batched_scalar_interpolation_adaptive source g).
Proof.
  intros Hwf Hnan Hsplit Hbts Hne Hbts' Hiso Hzero Hg Hfin Hdt Hntp Hinterp
    Hra source Hsrc Hout.
  assert (H : DVAE.decode m z
              = Ok (batched_scalar_interpolation_adaptive source g)).
  { now apply (@decode_of_zero_field ext m z z_psi z_s g ra bts bts' d). }
  split; exact H.
Qed.

Lemma zero_field_reconstructs_atlas_witness :
  exists g,
    DVAE.base_grid (sample_model [2; 2] 0 5 false) 1 = Ok g
    /\ DVAE.decode (ext := sample_externals) (sample_model [2; 2] 0 5 false)
         (Tensor.mk [1; 4] [Fin 0; Fin 1; Fin 0; Fin 0])
       = Ok (Tensor.map (Scalar.clamp (Fin (1 / 100000))
                           (Scalar.sub Scalar.one (Fin (1 / 100000))))
               (Tensor.mk [1; 1; 2; 2] (repeat (Fin (1 / 2)) 4))).
Proof.
  destruct (base_grid_ok (sample_model [2; 2] 0 5 false) 1)
    as (g & Hg & _ & _ & Hfin & _); [reflexivity | discriminate |].
  assert (Hsrc : Tensor.has_nan
                   (Tensor.map (Scalar.clamp (Fin (1 / 100000))
                      (Scalar.sub Scalar.one (Fin (1 / 100000))))
                      (Tensor.mk [1; 1; 2; 2] (repeat (Fin (1 / 2)) 4)))
                 = false).
  { apply clamped_finite_no_nan; [lra | reflexivity]. }
  exists g. split; [exact Hg |].
  apply (zero_field_reconstructs_atlas (ext := sample_externals)
           (sample_model [2; 2] 0 5 false)
           (z := Tensor.mk [1; 4] [Fin 0; Fin 1; Fin 0; Fin 0])
           (z_psi := Tensor.mk [1; 1] [Fin 0])
           (z_s := Tensor.mk [1; 3] [Fin 1; Fin 0; Fin 0])
           (g := g) (ra := Tensor.mk [1; 1; 2; 2] (repeat (Fin (1 / 2)) 4))
           (bts := 1) (bts' := 1) (d := (1 / IZR (5 - 1))%R));
    try reflexivity; try assumption.
  - discriminate.
  - simpl. lia.
Defined.

(** ** The tolerance gate of the normaliser *)

Lemma scale_by_zero (row : list scalar) :
  Forall (fun e => Scalar.isfinite e = true) row ->
  List.map (fun xi => Scalar.mul xi (Fin 0)) row
  = repeat (Fin 0) (length row).
Proof.
  induction 1 as [| e row He _ IH]; [reflexivity |].
  cbn [List.map length repeat]. rewrite IH.
  destruct e as [| | a]; try discriminate.
  simpl. now rewrite Rmult_0_r.
Qed.

(** Where the latent norm does not exceed the tolerance the scale factor is
    exactly 0, whatever the field energy is (zero, negative, infinite or
    NaN): the non-finite ratio of the other branch of [torch.where] is not
    used, and a real-valued velocity row is rescaled to zero. *)
Theorem normalizer_below_tolerance_is_zero (m : model)
    (lns vns x : tensor) (bts b : nat) (rest : list nat) (l e : scalar)
    (row : list scalar) :
  Tensor.wf lns -> Tensor.wf vns ->
  Tensor.shape lns = [bts] -> Tensor.shape vns = [bts] ->
  nth_error (Tensor.data lns) b = Some l ->
  nth_error (Tensor.data vns) b = Some e ->
  Scalar.gt l (self_tol m) = false ->
  Tensor.wf x -> Tensor.shape x = bts :: rest ->
  length rest = length (grid_size m) + 1 ->
  nth_error (Tensor.rows x) b = Some row ->
  Forall (fun xi => Scalar.isfinite xi = true) row ->
  exists nrm x',
    DVAE.normalizer m lns vns = Ok nrm
    /\ DRVAE.normalizer m lns vns = Ok nrm
    /\ nth_error (Tensor.data nrm) b = Some (Fin 0)
    /\ DVAE.rescale m lns nrm x = Ok x'
    /\ DRVAE.rescale m lns nrm x = Ok x'
    /\ nth_error (Tensor.rows x') b = Some (repeat (Fin 0) (length row)).
Proof.
  intros Hl Hv Hlsh Hvsh Hlb Heb Hgt Hx Hxsh Hrest Hrow Hfin.
  assert (Hsh : Tensor.shape vns = Tensor.shape lns) by congruence.
  pose proof (normalizer_spec m Hl Hv Hsh) as Hn.
  set (nrm := Tensor.mk _ _) in Hn.
  assert (Hnb : nth_error (Tensor.data nrm) b = Some (Fin 0)).
  { unfold nrm. cbn [Tensor.data]. rewrite (nth_error_map2 _ _ _ _ Hlb Heb).
    now rewrite Hgt. }
  assert (Hnlen : length (Tensor.data nrm) = bts).
  { unfold nrm. cbn [Tensor.data]. rewrite length_map2.
    unfold Tensor.wf in Hl, Hv. rewrite Hl, Hv, Hlsh, Hvsh. simpl. lia. }
  destruct (@rescale_spec m lns nrm x bts rest [] Hlsh Hnlen Hx Hxsh Hrest)
    as (x' & Hx' & _ & _ & Hrows).
  exists nrm, x'. repeat (split; [assumption |]).
  rewrite (Hrows _ _ _ Hrow Hnb). f_equal. now apply scale_by_zero.
Qed.

Lemma normalizer_below_tolerance_is_zero_witness :
  exists nrm x',
    DVAE.normalizer (sample_model [2; 2] 0 5 true)
      (Tensor.mk [1] [Fin 0]) (Tensor.mk [1] [Fin 0]) = Ok nrm
    /\ nth_error (Tensor.data nrm) 0 = Some (Fin 0)
    /\ DVAE.rescale (sample_model [2; 2] 0 5 true) (Tensor.mk [1] [Fin 0])
         nrm (Tensor.mk [1; 2; 2; 2] (repeat (Fin 1) 8)) = Ok x'
    /\ nth_error (Tensor.rows x') 0 = Some (repeat (Fin 0) 8).
Proof.
  destruct (normalizer_below_tolerance_is_zero
              (sample_model [2; 2] 0 5 true)
              (lns := Tensor.mk [1] [Fin 0]) (vns := Tensor.mk [1] [Fin 0])
              (x := Tensor.mk [1; 2; 2; 2] (repeat (Fin 1) 8))
              (bts := 1) 0 (rest := [2; 2; 2])
              (l := Fin 0) (e := Fin 0) (row := repeat (Fin 1) 8))
    as (nrm & x' & Hn & _ & Hnb & Hx' & _ & Hrow);
    try reflexivity.
  - simpl. destruct (Rlt_dec (1 / 100000) 0) as [Hlt | _]; [lra | reflexivity].
  - repeat constructor.
  - exists nrm, x'. repeat split; assumption.
Defined.

(** ** Anchoring a batch *)

Lemma expand_leading_one {A : Type} (n : nat) (rest : list nat)
    (d : list A) :
  length d = Tensor.numel rest ->
  Tensor.expand_data (1 :: rest) (n :: rest) d = Some (concat (repeat d n)).
Proof.
  intros Hlen. cbn [Tensor.expand_data].
  destruct (Nat.eqb_spec 1 n) as [<- | Hne].
  - change (Tensor.chunks 1 (Tensor.numel rest) d)
      with [firstn (Tensor.numel rest) d].
    rewrite firstn_all2 by lia. cbn [Tensor.mapM].
    rewrite (expand_data_same rest d Hlen). reflexivity.
  - change (1 =? 1) with true. cbv iota.
    rewrite (expand_data_same rest d Hlen). reflexivity.
Qed.

Lemma bshape_leading_one (n : nat) (rest : list nat) :
  Tensor.bshape (n :: rest) (1 :: rest) = Some (n :: rest).
Proof.
  cbn [Tensor.bshape]. rewrite bshape_same.
  destruct (Nat.eqb_spec n 1) as [-> | Hne]; reflexivity.
Qed.

Lemma nth_error_repeat_lt {A : Type} (a : A) (n k : nat) :
  k < n -> nth_error (repeat a n) k = Some a.
Proof.
  revert k. induction n as [| n IH]; intros [| k] Hk; simpl; try lia;
    [reflexivity |]. apply IH. lia.
Qed.

(** Subtracting a tensor with one leading entry from a batch subtracts it
    from every row of the batch. *)
Lemma sub_broadcast_rows (x y : tensor) (n : nat) (rest : list nat) :
  Tensor.wf x -> Tensor.wf y ->
  Tensor.shape x = n :: rest -> Tensor.shape y = 1 :: rest ->
  exists r,
    Tensor.sub x y = Ok r
    /\ Tensor.shape r = n :: rest
    /\ forall k row,
         nth_error (Tensor.rows x) k = Some row ->
         nth_error (Tensor.rows r) k
         = Some (Tensor.map2 Scalar.sub row (Tensor.data y)).
Proof.
  intros Hx Hy Hxs Hys.
  assert (Hxlen : length (Tensor.data x) = n * Tensor.numel rest)
    by (unfold Tensor.wf in Hx; rewrite Hx, Hxs; reflexivity).
  assert (Hylen : length (Tensor.data y) = Tensor.numel rest)
    by (unfold Tensor.wf in Hy; rewrite Hy, Hys; simpl; lia).
  assert (Heach : Forall (fun c => length c = Tensor.numel rest)
                    (repeat (Tensor.data y) n)).
  { apply Forall_forall. intros c Hc. apply repeat_spec in Hc. now subst c. }
  assert (Hres : Tensor.sub x y
                 = Ok (Tensor.mk (n :: rest)
                         (Tensor.map2 Scalar.sub (Tensor.data x)
                            (concat (repeat (Tensor.data y) n))))).
  { assert (Hp : forall a, Tensor.pad (S (length rest)) (a :: rest)
                           = a :: rest)
      by (intros a; exact (pad_same (a :: rest))).
    assert (Hex : Tensor.expand x (n :: rest) = Ok x)
      by (rewrite <- Hxs; now apply expand_same).
    assert (Hey : Tensor.expand y (n :: rest)
                  = Ok (Tensor.mk (n :: rest)
                          (concat (repeat (Tensor.data y) n)))).
    { unfold Tensor.expand. rewrite Hys. cbn [length].
      now rewrite Hp, (expand_leading_one n rest _ Hylen). }
    unfold Tensor.sub, Tensor.binop, Tensor.broadcast_shapes.
    rewrite Hxs, Hys. cbn [length]. rewrite Nat.max_id.
    rewrite !Hp, bshape_leading_one, Hex. cbn [bind]. rewrite Hey.
    reflexivity. }
  eexists. split; [exact Hres |]. split; [reflexivity |].
  intros k row Hrow.
  unfold Tensor.rows. cbn [Tensor.shape Tensor.data]. cbv iota.
  rewrite chunks_map2.
  2:{ rewrite Hxlen, (length_concat_const Heach), repeat_length.
      reflexivity. }
  replace n with (length (repeat (Tensor.data y) n)) at 2
    by apply repeat_length.
  rewrite (chunks_concat Heach).
  unfold Tensor.rows in Hrow. rewrite Hxs in Hrow.
  apply nth_error_map2; [exact Hrow |].
  apply nth_error_repeat_lt.
  rewrite <- (chunks_length n (Tensor.numel rest) (Tensor.data x)).
  apply nth_error_Some. congruence.
Qed.

(** [DRVAE.encode] on a batch: when the encoders give one row per
    observation and a single row for the atlas, the anchored codes are the
    rows of the plain codes minus the atlas row, for both components. *)
Theorem anchoring_subtracts_atlas_code_per_row (m : model)
    (observations : tensor) (n n' : nat) (r1 r2 : list nat) :
  Tensor.wf (time_encoder m observations) ->
  Tensor.wf (time_encoder m (atlas m)) ->
  Tensor.shape (time_encoder m observations) = n :: r1 ->
  Tensor.shape (time_encoder m (atlas m)) = 1 :: r1 ->
  Tensor.wf (space_encoder m observations) ->
  Tensor.wf (space_encoder m (atlas m)) ->
  Tensor.shape (space_encoder m observations) = n' :: r2 ->
  Tensor.shape (space_encoder m (atlas m)) = 1 :: r2 ->
  exists a_psi a_s,
    DRVAE.encode m observations = Ok (a_psi, a_s)
    /\ Tensor.shape a_psi = n :: r1
    /\ Tensor.shape a_s = n' :: r2
    /\ (forall k row,
          nth_error (Tensor.rows (fst (DVAE.encode m observations))) k
            = Some row ->
          nth_error (Tensor.rows a_psi) k
          = Some (Tensor.map2 Scalar.sub row
                    (Tensor.data (time_encoder m (atlas m)))))
    /\ (forall k row,
          nth_error (Tensor.rows (snd (DVAE.encode m observations))) k
            = Some row ->
          nth_error (Tensor.rows a_s) k
          = Some (Tensor.map2 Scalar.sub row
                    (Tensor.data (space_encoder m (atlas m))))).
Proof.
  intros Ht Hta Hts Htas Hs Hsa Hss Hsas.
  destruct (sub_broadcast_rows Ht Hta Hts Htas) as (a_psi & Hp & Hpsh & Hprows).
  destruct (sub_broadcast_rows Hs Hsa Hss Hsas) as (a_s & Hq & Hqsh & Hqrows).
  exists a_psi, a_s.
  split.
  - unfold DRVAE.encode, DRVAE.atlas_anchoring, DRVAE.atlas_anchors.
    rewrite Hp. cbn [bind]. rewrite Hq. reflexivity.
  - repeat split; assumption.
Qed.

Lemma anchoring_subtracts_atlas_code_per_row_witness :
  exists a_psi a_s,
    DRVAE.encode (sample_model [2; 2] 0 5 false)
      (Tensor.mk [2; 1; 2; 2] (repeat (Fin 1) 8)) = Ok (a_psi, a_s)
    /\ Tensor.shape a_psi = [2; 1; 2; 2].
Proof.
  destruct (anchoring_subtracts_atlas_code_per_row
              (sample_model [2; 2] 0 5 false)
              (Tensor.mk [2; 1; 2; 2] (repeat (Fin 1) 8))
              (n := 2) (n' := 2) (r1 := [1; 2; 2]) (r2 := [1; 2; 2])
              eq_refl eq_refl eq_refl eq_refl eq_refl eq_refl eq_refl eq_refl)
    as (a_psi & a_s & He & Hsh & _).
  exists a_psi, a_s. split; assumption.
Defined.

(** ** What a non-finite scale factor leads to *)

Lemma sqrt_ratio_negative (L E : R) :
  (0 < L)%R -> (E < 0)%R ->
  Scalar.sqrt (Scalar.div (Fin L) (Fin E)) = NaN.
Proof.
  intros HL HE. unfold Scalar.div.
  replace (Scalar.is_zero E) with false
    by (symmetry; apply is_zero_false; lra).
  unfold Scalar.sqrt.
  replace (Scalar.is_neg (L / E)) with true; [reflexivity |].
  symmetry. apply is_neg_true.
  assert (Hinv : (/ E < 0)%R) by (apply Rinv_lt_0_compat; lra).
  unfold Rdiv. nra.
Qed.

Lemma mul_nan_r (x : scalar) : Scalar.mul x NaN = NaN.
Proof. now destruct x. Qed.

Lemma rows_in_data (x : tensor) (k : nat) (row : list scalar) (e : scalar) :
  nth_error (Tensor.rows x) k = Some row -> In e row ->
  In e (Tensor.data x).
Proof.
  intros Hrow He. apply nth_error_In in Hrow. unfold Tensor.rows in Hrow.
  destruct (Tensor.shape x) as [| b rest]; [contradiction |].
  eapply chunks_in; eassumption.
Qed.

(** With the isometry constraint on, a batch element with positive latent
    norm above the tolerance and negative field energy gets the scale
    factor NaN, its velocity row becomes NaN, and [decode_s] stops at the
    assertion "NaN detected v": the unguarded division surfaces as the
    generic NaN check. *)
Theorem negative_energy_aborts_decode_s {ext : Externals} (m : model)
    (z_psi z zs lns vns : tensor) (bts b : nat) (rest : list nat)
    (L E : R) :
  let v_star := decoder_s m zs in
  let v_ := batched_vector_smoothing v_star
              (self_deformation_kernel_width m) false in
  self_isometry_constraint m = true ->
  Tensor.size z 0 = Ok bts ->
  Tensor.cat_last z_psi z = Ok zs ->
  DVAE.latent_norm_squared bts z = Ok lns ->
  Tensor.wf v_star -> Tensor.wf v_ ->
  Tensor.shape v_star = bts :: rest -> Tensor.shape v_ = bts :: rest ->
  length rest = length (grid_size m) + 1 ->
  Tensor.numel rest <> 0 ->
  DVAE.v_norm_squared m v_ v_star = Ok vns ->
  nth_error (Tensor.data lns) b = Some (Fin L) ->
  nth_error (Tensor.data vns) b = Some (Fin E) ->
  Scalar.gt (Fin L) (self_tol m) = true ->
  (0 < L)%R -> (E < 0)%R ->
  DVAE.decode_s m z_psi z = Raise (AssertionError "NaN detected v")
  /\ DRVAE.decode_s m z_psi z = Raise (AssertionError "NaN detected v").
Proof.
  intros v_star v_ Hiso Hbts Hcat Hlns Hws Hwv Hss Hsv Hrest Hne Hvns
    HL HE Hgt Lpos Eneg.
  destruct (latent_norm_squared_spec _ _ Hlns) as (Hlsh & Hlwf & _).
  destruct (v_norm_squared_spec m Hwv Hws Hsv Hss Hrest)
    as (vns0 & Hvns0 & Hvsh & Hvwf & _).
  rewrite Hvns in Hvns0. inversion Hvns0; subst vns0. clear Hvns0.
  assert (Hshapes : Tensor.shape vns = Tensor.shape lns) by congruence.
  pose proof (normalizer_spec m Hlwf Hvwf Hshapes) as Hn.
  set (nrm := Tensor.mk _ _) in Hn.
  assert (Hnb : nth_error (Tensor.data nrm) b = Some NaN).
  { unfold nrm. cbn [Tensor.data]. rewrite (nth_error_map2 _ _ _ _ HL HE).
    now rewrite Hgt, (sqrt_ratio_negative Lpos Eneg). }
  assert (Hnlen : length (Tensor.data nrm) = bts).
  { unfold nrm. cbn [Tensor.data]. rewrite length_map2.
    unfold Tensor.wf in Hlwf, Hvwf. rewrite Hlwf, Hvwf, Hlsh, Hvsh.
    simpl. lia. }
  destruct (@rescale_spec m lns nrm v_ bts rest [] Hlsh Hnlen Hwv Hsv Hrest)
    as (v' & Hv' & _ & _ & Hrows).
  assert (Hb : b < bts).
  { rewrite <- Hnlen. apply nth_error_Some. congruence. }
  destruct (nth_error (Tensor.rows v_) b) as [row |] eqn:Hrow.
  2:{ apply nth_error_None in Hrow. rewrite (rows_length _ Hsv) in Hrow.
      lia. }
  assert (Hrl : length row = Tensor.numel rest).
  { pose proof (rows_each Hwv Hsv) as Hall. rewrite Forall_forall in Hall.
    apply Hall. eapply nth_error_In. exact Hrow. }
  assert (Hnan : Tensor.has_nan v' = true).
  { apply has_nan_true_iff.
    apply (@rows_in_data v' b _ NaN (Hrows _ _ _ Hrow Hnb)).
    destruct row as [| e row']; [simpl in Hrl; lia |].
    left. apply mul_nan_r. }
  assert (Hvf : DVAE.velocity_field m z_psi z = Ok v').
  { rewrite (@velocity_field_isometry ext m z_psi z zs lns vns nrm bts
               Hiso Hbts Hcat Hlns Hvns Hn).
    exact Hv'. }
  pose proof (decode_s_nan m _ _ Hvf Hnan) as Hd.
  split; exact Hd.
Qed.

Lemma negative_energy_aborts_decode_s_witness :
  DVAE.decode_s (ext := sign_flipping_externals)
    (sample_model [2; 2] 0 5 true)
    (Tensor.mk [1; 1] [Fin 1]) (Tensor.mk [1; 3] [Fin 1; Fin 0; Fin 0])
  = Raise (AssertionError "NaN detected v").
Proof.
  apply (negative_energy_aborts_decode_s (ext := sign_flipping_externals)
           (sample_model [2; 2] 0 5 true)
           (Tensor.mk [1; 1] [Fin 1])
           (Tensor.mk [1; 3] [Fin 1; Fin 0; Fin 0])
           (zs := Tensor.mk [1; 4] [Fin 1; Fin 1; Fin 0; Fin 0])
           (lns := Tensor.mk [1] [Fin (1 * 1 + (0 * 0 + (0 * 0 + 0)))])
           (vns := Tensor.mk [1]
                     [Fin (-1 * 1 * 1 + (-1 * 1 * 1 + (-1 * 1 * 1
                           + (-1 * 1 * 1 + (-1 * 1 * 1 + (-1 * 1 * 1
                           + (-1 * 1 * 1 + (-1 * 1 * 1 + 0))))))))])
           (bts := 1) 0 (rest := [2; 2; 2])
           (L := (1 * 1 + (0 * 0 + (0 * 0 + 0)))%R)
           (E := (-1 * 1 * 1 + (-1 * 1 * 1 + (-1 * 1 * 1
                  + (-1 * 1 * 1 + (-1 * 1 * 1 + (-1 * 1 * 1
                  + (-1 * 1 * 1 + (-1 * 1 * 1 + 0))))))))%R)).
  - reflexivity.
  - reflexivity.
  - reflexivity.
  - reflexivity.
  - reflexivity.
  - reflexivity.
  - reflexivity.
  - reflexivity.
  - reflexivity.
  - discriminate.
  - reflexivity.
  - reflexivity.
  - reflexivity.
  - simpl.
    destruct (Rlt_dec (1 / 100000) (1 * 1 + (0 * 0 + (0 * 0 + 0))))
      as [_ | Hn]; [reflexivity |].
    exfalso. apply Hn. lra.
  - lra.
  - lra.
Defined.

(** ** The integrator: how it can fail *)

Lemma integration_steps_outcome {ext : Externals} (m : model) (n : nat)
    (g x0 : tensor) :
  (forall d x k,
      Tensor.wf d -> Tensor.wf x -> Tensor.shape d = Tensor.shape x ->
      Tensor.wf (batched_vector_interpolation_adaptive d x k)
      /\ Tensor.shape (batched_vector_interpolation_adaptive d x k)
         = Tensor.shape x) ->
  Tensor.wf g -> Tensor.wf x0 -> Tensor.shape x0 = Tensor.shape g ->
  (exists x, DVAE.integration_steps m n g x0 = Ok x)
  \/ DVAE.integration_steps m n g x0
     = Raise (AssertionError "NaN detected in grid during integration step").
Proof.
  intros Hinterp Hg. revert x0.
  induction n as [| n IH]; intros x0 Hx0 Hsh; simpl.
  - left. now exists x0.
  - unfold Tensor.sub.
    assert (Hgs : Tensor.shape g = Tensor.shape x0) by congruence.
    rewrite (binop_same _ Hx0 Hg Hgs). cbn [bind].
    set (d := Tensor.mk _ _).
    assert (Hd : Tensor.wf d) by (apply binop_same_wf; assumption).
    destruct (Hinterp d x0 (self_downsampling_grid m) Hd Hx0 eq_refl)
      as [Hyw Hys].
    set (y := batched_vector_interpolation_adaptive d x0 _) in *.
    assert (Hsw : Tensor.wf (Tensor.scalar_mul (dt m) y)) by now apply map_wf.
    assert (Hss : Tensor.shape (Tensor.scalar_mul (dt m) y) = Tensor.shape x0)
      by exact Hys.
    rewrite (iadd_same x0 Hsw Hss). cbn [bind].
    set (x' := Tensor.mk _ _).
    destruct (Tensor.has_nan x') eqn:Hnan; cbn [negb assert bind].
    + right. reflexivity.
    + apply IH.
      * apply binop_same_wf; assumption.
      * simpl. exact Hsh.
Qed.

(** On a constructed model with [number_of_time_points <= 1023], for a
    well-formed field of the model's field shape and an interpolator that
    returns well-formed tensors of the shape of its arguments,
    [vector_field_integration] either returns a grid or raises the
    assertion "NaN detected in grid during integration step"; it fails in
    no other way. *)
Theorem integration_only_fails_on_nan {ext : Externals} (di : data_info)
    (ld : Z) (stats : list tensor) (kw : kwargs) (m : model)
    (v : tensor) (bts : nat) :
  DVAE.__init__ di ld stats kw = Ok m
  \/ DRVAE.__init__ di ld stats kw = Ok m ->
  (number_of_time_points kw <= 1023)%Z ->
  (forall d x k,
      Tensor.wf d -> Tensor.wf x -> Tensor.shape d = Tensor.shape x ->
      Tensor.wf (batched_vector_interpolation_adaptive d x k)
      /\ Tensor.shape (batched_vector_interpolation_adaptive d x k)
         = Tensor.shape x) ->
  Tensor.wf v ->
  Tensor.shape v = bts :: length (grid_size m) :: downsampled_grid_size m ->
  let outcome := fun r : result tensor =>
    (exists x, r = Ok x)
    \/ r = Raise
             (AssertionError "NaN detected in grid during integration step")
  in
  outcome (DVAE.vector_field_integration m v)
  /\ outcome (DRVAE.vector_field_integration m v).
Proof.
  intros Hinit Hntp Hinterp Hwf Hshape outcome.
  assert (Hm : DVAE.__init__ di ld stats kw = Ok m)
    by (destruct Hinit as [H | H]; exact H).
  destruct (init_fields _ _ _ _ Hm)
    as (s & rest & _ & Hdim & _ & _ & _ & _ & Hdgs & Hn & _).
  assert (Hlen : length (downsampled_grid_size m) = length (grid_size m))
    by (rewrite Hdgs; apply length_map).
  assert (Hne : grid_size m <> [])
    by (intros H0; rewrite H0 in Hdim; simpl in Hdim; lia).
  destruct (base_grid_ok m bts Hlen Hne) as (g & Hg & Hgs & Hgwf & _).
  rewrite Nat.mul_1_r in Hgs.
  assert (Hc : exists c, float_pow2 (self_number_of_time_points m) = Ok c).
  { rewrite Hn.
    destruct (Z.leb_spec 0 (number_of_time_points kw)) as [H0 | H0].
    - destruct (float_pow2_ok (e := number_of_time_points kw)) as [Hc _];
        [lia |].
      eexists. exact Hc.
    - unfold float_pow2.
      replace (0 <=? number_of_time_points kw)%Z with false
        by (symmetry; apply Z.leb_gt; lia).
      eexists. reflexivity. }
  destruct Hc as (c & Hc).
  assert (Hv' : Tensor.wf (Tensor.div_scalar v c)) by now apply map_wf.
  assert (Hsh' : Tensor.shape (Tensor.div_scalar v c) = Tensor.shape g)
    by (simpl; congruence).
  assert (Hout : outcome (DVAE.vector_field_integration m v)).
  { unfold outcome, DVAE.vector_field_integration, Tensor.size.
    rewrite Hshape. simpl nth_error. cbn [bind]. rewrite Hg. cbn [bind].
    rewrite Hc. cbn [bind]. unfold Tensor.add.
    rewrite (binop_same _ Hgwf Hv' Hsh'). cbn [bind].
    apply integration_steps_outcome.
    - exact Hinterp.
    - exact Hgwf.
    - apply binop_same_wf; assumption.
    - reflexivity. }
  split; exact Hout.
Qed.

Lemma integration_only_fails_on_nan_witness :
  (exists x,
     DVAE.vector_field_integration (ext := sample_externals)
       (sample_model [4; 4] 1 5 false) (Tensor.full [1; 2; 2; 2] NaN) = Ok x)
  \/ DVAE.vector_field_integration (ext := sample_externals)
       (sample_model [4; 4] 1 5 false) (Tensor.full [1; 2; 2; 2] NaN)
     = Raise (AssertionError "NaN detected in grid during integration step").
Proof.
  apply (integration_only_fails_on_nan (ext := sample_externals)
           tt 4 (sample_statistics [4; 4]) (sample_kwargs 1 5 false)
           (m := sample_model [4; 4] 1 5 false)
           (v := Tensor.full [1; 2; 2; 2] NaN) (bts := 1)).
  - left. apply sample_model_constructed.
    + left. reflexivity.
    + right. left. reflexivity.
    + reflexivity.
    + discriminate.
  - simpl. lia.
  - intros d x k Hd _ Hsh. split; assumption.
  - reflexivity.
  - reflexivity.
Defined.
